(** * Course Builder i18n dashboard: translation bundles, progress, lazy
      translation and catalog upload.

    A shallow embedding of the functions of
    [modules/i18n_dashboard/i18n_dashboard.py] that reconcile the
    translatable fields of a resource with its stored bundle, and the
    properties of them that the design document states.

    Conventions of the embedding.
    - A Python value that a field, a chunk or the key of a resource can hold
      is a [value]: [None], a text ([str] or [unicode], carried as one
      [string] type: a text is identified with its UTF-8 bytes, so the
      [decode('utf-8')] of a byte string is the identity), or a number.
      Numbers are carried as integers; a float (which the code also meets,
      see the note in [add_known_translations_as_defaults]) differs only in
      how [unicode()] prints it, and is outside the model.
    - A Python [dict] used as a map is a [gmap]; a [dict] with a fixed set of
      keys (a chunk, a section, a field of a bundle) is a record.
    - A call that can raise returns a [result]; collaborators that live in
      other modules (xcontent, the i18n store, babel, the DAOs) are the
      operations of type classes. *)

From Stdlib Require Import ZArith String Ascii List DecimalString.
From stdpp Require Import base option list strings gmap fin_maps sorting.

Local Open Scope string_scope.

(** ** Python values *)

Inductive value : Type :=
| VNone
| VStr (s : string)
| VInt (n : Z).

#[global] Instance value_eq_dec : EqDecision value.
Proof. solve_decision. Defined.

(** Truth value of [v] in a condition: [if v], [not v], [v and w]. *)
Definition truthy (v : value) : bool :=
  match v with
  | VNone => false
  | VStr s => negb (String.eqb s "")
  | VInt n => negb (n =? 0)%Z
  end.

(** [a or b] on values. *)
Definition py_or (a b : value) : value := if truthy a then a else b.

(** [unicode(v)], also what [%s] formatting prints. *)
Definition unicode (v : value) : string :=
  match v with
  | VNone => "None"
  | VStr s => s
  | VInt n => NilZero.string_of_int (Z.to_int n)
  end.

(** ** Exceptions and fallible calls *)

Inductive exn_class : Type :=
| ValueError
| IndexError
| AssertionError
| UnicodeDecodeError
| BadZipfile
| ProtocolError
| OtherException.

#[global] Instance exn_class_eq_dec : EqDecision exn_class.
Proof. solve_decision. Defined.

(** An exception: its class and [str(ex)]. *)
Record exn : Type := Exn { exn_cls : exn_class; exn_str : string }.

#[global] Instance exn_eq_dec : EqDecision exn.
Proof. solve_decision. Defined.

Inductive result (A : Type) : Type :=
| Ok (a : A)
| Raise (e : exn).
Arguments Ok {A} a.
Arguments Raise {A} e.

#[global] Instance result_ret : MRet result := fun A a => Ok a.
#[global] Instance result_bind : MBind result := fun A B f m =>
  match m with
  | Ok a => f a
  | Raise e => Raise e
  end.

(** [try: m except Exception: h]. *)
Definition try_except {A} (m : result A) (h : exn -> A) : A :=
  match m with
  | Ok a => a
  | Raise e => h e
  end.

(** [for x in l: f] where the body can raise: the first exception leaves the
    loop. *)
Fixpoint mapM_result {A B} (f : A -> result B) (l : list A) : result (list B) :=
  match l with
  | [] => Ok []
  | x :: l' => y ← f x; ys ← mapM_result f l'; mret (y :: ys)
  end.

(** ** Strings *)

(** [s.split(sep, maxsplit)] for a one-character separator. *)
Fixpoint split (sep : ascii) (maxsplit : nat) (s : string) : list string :=
  match s with
  | EmptyString => [EmptyString]
  | String c rest =>
      if Ascii.eqb c sep then
        match maxsplit with
        | O => [s]
        | S n => EmptyString :: split sep n rest
        end
      else
        match split sep maxsplit rest with
        | hd :: tl => String c hd :: tl
        | [] => [String c EmptyString]
        end
  end.

(** The character occurs in the string. *)
Fixpoint contains (c : ascii) (s : string) : bool :=
  match s with
  | EmptyString => false
  | String d rest => Ascii.eqb d c || contains c rest
  end.

(** Whitespace of [str.strip()]: tab, newline, vertical tab, form feed,
    carriage return and space.  ([unicode.strip()] knows more of it, the
    separators 28 to 31 and characters outside ASCII; the model has the
    white space of [str].) *)
Definition is_space (c : ascii) : bool :=
  let n := nat_of_ascii c in
  ((9 <=? n)%nat && (n <=? 13)%nat) || (n =? 32)%nat.

Fixpoint lstrip (s : string) : string :=
  match s with
  | EmptyString => EmptyString
  | String c rest => if is_space c then lstrip rest else s
  end.

(** [rstrip]: a character is dropped when it is a space and everything after
    it was dropped. *)
Fixpoint rstrip (s : string) : string :=
  match s with
  | EmptyString => EmptyString
  | String c rest =>
      match rstrip rest with
      | EmptyString => if is_space c then EmptyString else String c EmptyString
      | r => String c r
      end
  end.

Definition strip (s : string) : string := rstrip (lstrip s).

Definition string_of_nat (n : nat) : string :=
  NilZero.string_of_uint (Nat.to_uint n).

(** The text between double quotes, as ['"%s"' % s] prints it. *)
Definition quoted (s : string) : string :=
  String (ascii_of_nat 34) s +:+ String (ascii_of_nat 34) EmptyString.

(** ** Bundle keys (class [ResourceBundleKey]) *)

Record ResourceBundleKey : Type := mkResourceBundleKey {
  _type : string;
  _key : value;
  _locale : string
}.

#[global] Instance ResourceBundleKey_eq_dec : EqDecision ResourceBundleKey.
Proof. solve_decision. Defined.

(** [__str__]: ['%s:%s:%s' % (self._type, self._key, self._locale)]. *)
Definition ResourceBundleKey_str (k : ResourceBundleKey) : string :=
  _type k +:+ ":" +:+ unicode (_key k) +:+ ":" +:+ _locale k.

Definition locale (k : ResourceBundleKey) : string := _locale k.

(** The [ValueError] of a tuple assignment that gets [n] values for more
    targets. *)
Definition unpack_too_few (n : nat) : exn :=
  Exn ValueError
    ("need more than " +:+ string_of_nat n +:+
     (if (n =? 1)%nat then " value" else " values") +:+ " to unpack").

Definition unpack_too_many : exn := Exn ValueError "too many values to unpack".

(** [fromstring]: [type_str, key, locale = key_str.split(':', 2)]. *)
Definition fromstring (key_str : string) : result ResourceBundleKey :=
  match split ":" 2 key_str with
  | [type_str; key; locale] =>
      Ok (mkResourceBundleKey type_str (VStr key) locale)
  | parts =>
      if (length parts <? 3)%nat then Raise (unpack_too_few (length parts))
      else Raise unpack_too_many
  end.

(** ** Bundles, progress records and sections *)

(** [xcontent.SourceToTargetDiffMapping.VERB_NEW], [VERB_CHANGED] and
    [VERB_CURRENT]. *)
Inductive verb : Type := VERB_NEW | VERB_CHANGED | VERB_CURRENT.

#[global] Instance verb_eq_dec : EqDecision verb.
Proof. solve_decision. Defined.

Definition TYPE_HTML : string := "html".
Definition TYPE_STRING : string := "string".
Definition TYPE_TEXT : string := "text".
Definition TYPE_URL : string := "url".

(** A source/target pair of a stored field:
    [{'source_value': ..., 'target_value': ...}]. *)
Record chunk : Type := mkChunk {
  c_source_value : value;
  c_target_value : value
}.

#[global] Instance chunk_eq_dec : EqDecision chunk.
Proof. solve_decision. Defined.

(** A field of a bundle: [{'type': ..., 'source_value': ..., 'data': [...]}]
    (see the docstring of [ResourceBundleDTO]). *)
Record field : Type := mkField {
  f_type : string;
  f_source_value : value;
  f_data : list chunk
}.

#[global] Instance field_eq_dec : EqDecision field.
Proof. solve_decision. Defined.

(** The [dict] of a [ResourceBundleDTO]: field name to field.  The [id] of the
    DTO is not read by the functions below. *)
Abbreviation bundle := (gmap string field).

(** A chunk of a section, with its classification; ['changed'] is the mark of
    an edit. *)
Record item : Type := mkItem {
  i_source_value : value;
  i_old_source_value : value;
  i_target_value : value;
  i_verb : verb;
  i_changed : bool
}.

#[global] Instance item_eq_dec : EqDecision item.
Proof. solve_decision. Defined.

Record section : Type := mkSection {
  s_name : string;
  s_label : value;
  s_type : string;
  s_source_value : value;
  s_data : list item
}.

#[global] Instance section_eq_dec : EqDecision section.
Proof. solve_decision. Defined.

(** [I18nProgressDTO]: its [dict] has the keys ['is_i18n'] and ['progress'],
    either of which can be absent. *)
Record I18nProgressDTO : Type := mkProgress {
  p_is_i18n : option bool;
  p_progress : option (gmap string Z)
}.

Definition NOT_STARTED : Z := 0.
Definition IN_PROGRESS : Z := 1.
Definition DONE : Z := 2.

Definition is_translatable (p : I18nProgressDTO) : bool :=
  default true (p_is_i18n p).

Definition get_progress (p : I18nProgressDTO) (locale : string) : Z :=
  default NOT_STARTED (default ∅ (p_progress p) !! locale).

(** [set_progress]: [self.dict.setdefault('progress', {})[locale] = value]. *)
Definition set_progress (p : I18nProgressDTO) (locale : string) (v : Z)
  : I18nProgressDTO :=
  mkProgress (p_is_i18n p) (Some (<[locale := v]> (default ∅ (p_progress p)))).

Definition clear_progress (p : I18nProgressDTO) (locale : string)
  : I18nProgressDTO :=
  mkProgress (p_is_i18n p) (delete locale <$> p_progress p).

(** ** The updater: [update_dtos_with_section_data] *)

(** One turn of the inner loop of the merge: the state is the flag [changed]
    and the list [data]. *)
Definition merge_item (st : bool * list chunk) (it : item) : bool * list chunk :=
  let '(changed, data) := st in
  if i_changed it then
    (true, (data ++ [mkChunk (i_source_value it) (i_target_value it)])%list)
  else if decide (i_verb it = VERB_CHANGED) then
    (changed,
     (data ++ [mkChunk (i_old_source_value it) (i_target_value it)])%list)
  else if decide (i_verb it = VERB_CURRENT) then
    (changed, (data ++ [mkChunk (i_source_value it) (i_target_value it)])%list)
  else
    (changed, data).

(** One turn of the outer loop of the merge. *)
Definition merge_section (d : bundle) (s : section) : bundle :=
  let '(changed, data) := foldl merge_item (false, []) (s_data s) in
  if changed then
    let source_value :=
      if decide (s_type s = TYPE_HTML) then s_source_value s else VNone in
    <[s_name s := mkField (s_type s) source_value data]> d
  else d.

(** One turn of the inner loop of the progress: the state is
    [(any_done, all_done)]. *)
Definition progress_item (st : bool * bool) (it : item) : bool * bool :=
  let '(any_done, all_done) := st in
  let both_blank :=
    negb (truthy (i_source_value it)) && negb (truthy (i_target_value it)) in
  let has_up_to_date_translation :=
    truthy (i_target_value it) &&
    (bool_decide (i_verb it = VERB_CURRENT) || i_changed it) in
  let '(any_done, all_done) :=
    if both_blank || has_up_to_date_translation then (true, all_done)
    else (any_done, false) in
  if bool_decide (i_verb it = VERB_CHANGED) && negb (i_changed it) &&
     truthy (i_target_value it)
  then (true, false)
  else (any_done, all_done).

Definition progress_section (st : bool * bool) (s : section) : bool * bool :=
  foldl progress_item st (s_data s).

Definition progress_of (sections : list section) : Z :=
  let '(any_done, all_done) := foldl progress_section (false, true) sections in
  if all_done then DONE
  else if any_done then IN_PROGRESS
  else NOT_STARTED.

(** [update_dtos_with_section_data(key, sections, resource_bundle_dto,
    i18n_progress_dto)].  Python mutates the two DTOs in place; here the
    function returns the [dict] of the bundle it worked on and the progress
    DTO.  When the bundle passed is [None] the code works on a blank bundle of
    its own, which the caller does not see. *)
Definition update_dtos_with_section_data (key : ResourceBundleKey)
    (sections : list section) (resource_bundle_dto : option bundle)
    (i18n_progress_dto : I18nProgressDTO) : bundle * I18nProgressDTO :=
  let d := match resource_bundle_dto with Some d => d | None => ∅ end in
  (foldl merge_section d sections,
   set_progress i18n_progress_dto (locale key) (progress_of sections)).

(** The merge rule in the words of the design: what one chunk of a section
    contributes to the stored list. *)
Definition merge_rule (it : item) : option chunk :=
  match i_changed it, i_verb it with
  | true, _ => Some (mkChunk (i_source_value it) (i_target_value it))
  | false, VERB_CHANGED =>
      Some (mkChunk (i_old_source_value it) (i_target_value it))
  | false, VERB_CURRENT =>
      Some (mkChunk (i_source_value it) (i_target_value it))
  | false, VERB_NEW => None
  end.

(** The progress rule in the words of the design. *)
Definition chunk_done (it : item) : bool :=
  (negb (truthy (i_source_value it)) && negb (truthy (i_target_value it)))
  || (truthy (i_target_value it) &&
      (bool_decide (i_verb it = VERB_CURRENT) || i_changed it)).

Definition chunk_in_progress (it : item) : bool :=
  bool_decide (i_verb it = VERB_CHANGED) && negb (i_changed it) &&
  truthy (i_target_value it).

(** All the chunks of a list of sections, in order. *)
Definition all_items (sections : list section) : list item :=
  concat (map s_data sections).

(** ** Collaborators of the section builder and of the lazy translator *)

(** [xcontent.SourceToTargetMapping]: the stored source and target of one
    field. *)
Record SourceToTargetMapping : Type := mkMapping {
  m_name : string;
  m_label : value;
  m_type : string;
  m_source_value : value;
  m_target_value : value
}.

(** [xcontent.SourceToTargetDiffMapping]: a mapping with its classification.
    The list alignment leaves [name], [label] and [type] unset; the code never
    reads them there. *)
Record SourceToTargetDiffMapping : Type := mkDiffMapping {
  dm_name : string;
  dm_label : value;
  dm_type : string;
  dm_source_value : value;
  dm_target_value : value;
  dm_verb : verb;
  dm_source_value_index : option nat;
  dm_target_value_index : option nat
}.

(** [xcontent]: parsing of rich content, its decomposition into chunks and
    the reverse, and the alignment of lists of chunks and of fields.  The
    configuration of the [ContentTransformer] is fixed by the application
    context and is part of the instance. *)
Class XContent : Type := {
  (** [context.tree] *)
  tree : Type;
  (** the entity bound to its schema: [schema_fields.ValueToTypeBinding] *)
  binding : Type;
  ContentIO_fromstring : value -> result tree;
  ContentIO_tostring : tree -> result string;
  (** [transformer.decompose(context)]: the tree indexed, and
      [context.resource_bundle] *)
  decompose : tree -> result (tree * list value);
  (** [transformer.recompose(context, resource_bundle, errors)]: the tree
      with the texts pushed in, and the errors appended to [errors] *)
  recompose : tree * list value -> list value -> result (tree * list string);
  (** [SourceToTargetDiffMapping.map_lists_source_to_target(a, b)] *)
  map_lists_source_to_target :
    list value -> list value -> list SourceToTargetDiffMapping;
  (** [SourceToTargetDiffMapping.map_source_to_target(binding,
      allowed_names=..., existing_mappings=...)] *)
  map_source_to_target :
    binding -> list string -> list SourceToTargetMapping ->
    list SourceToTargetDiffMapping;
  (** [SourceToTargetMapping.find_mapping(mappings, name)] *)
  find_mapping :
    list SourceToTargetMapping -> string -> option SourceToTargetMapping;
  (** [TRANSLATABLE_FIELDS_FILTER.filter_value_to_type_binding(binding)] *)
  filter_value_to_type_binding : binding -> list string
}.

(** The course: its resources and its locales. *)
Class Course `{XContent} : Type := {
  course : Type;
  (** [course.app_context.default_locale] *)
  default_locale : course -> string;
  (** [key.resource_key.get_schema(course)], [get_data_dict(course)] and
      [ValueToTypeBinding.bind_entity_to_schema(values, schema)] for the
      resource of type and key given *)
  bind_entity_to_schema : course -> string -> value -> result binding
}.

(** The process-wide translation store, [i18n.get_store()]. *)
Class I18nStore : Type := {
  translations : Type;
  (** [get_translations(locale)]; raises [AssertionError] outside a request *)
  get_translations : string -> result translations;
  (** [translations.gettext(source_value)], as a [unicode] *)
  gettext : translations -> string -> string
}.

(** ** The section builder: [build_sections_for_key] *)

Section Builder.
Context `{Course} `{I18nStore}.

(** The body of the two loops of [add_known_translations_as_defaults]. *)
Definition default_item (tr : translations) (it : item) : item :=
  if decide (i_verb it = VERB_NEW) then
    let source_value := unicode (py_or (i_source_value it) (VStr "")) in
    if negb (String.eqb source_value "") then
      let target_value := gettext tr source_value in
      if negb (String.eqb target_value source_value) then
        mkItem (i_source_value it) (i_old_source_value it)
               (VStr target_value) VERB_CHANGED (i_changed it)
      else it
    else it
  else it.

Definition default_section (tr : translations) (s : section) : section :=
  mkSection (s_name s) (s_label s) (s_type s) (s_source_value s)
            (map (default_item tr) (s_data s)).

Definition add_known_translations_as_defaults (locale : string)
    (sections : list section) : result (list section) :=
  match get_translations locale with
  | Raise e =>
      if decide (exn_cls e = AssertionError) then Ok sections else Raise e
  | Ok tr => Ok (map (default_section tr) sections)
  end.

Definition index_error : exn := Exn IndexError "list index out of range".

(** The first loop: one [SourceToTargetMapping] for each field of the
    bundle. *)
Definition existing_mapping (nv : string * field)
  : result SourceToTargetMapping :=
  let '(name, value) := nv in
  if decide (f_type value = TYPE_HTML) then
    Ok (mkMapping name VNone (f_type value) (f_source_value value) (VStr ""))
  else
    match f_data value !! 0%nat with
    | Some c =>
        Ok (mkMapping name VNone (f_type value)
                      (c_source_value c) (c_target_value c))
    | None => Raise index_error
    end.

(** A chunk of a composite field, from its alignment. *)
Definition html_item (html_existing_mappings : list chunk)
    (html_mapping : SourceToTargetDiffMapping) : result item :=
  target_value ←
    match dm_target_value_index html_mapping with
    | Some i =>
        match html_existing_mappings !! i with
        | Some c => Ok (c_target_value c)
        | None => Raise index_error
        end
    | None => Ok (VStr "")
    end;
  mret (mkItem (dm_source_value html_mapping) (dm_target_value html_mapping)
               target_value (dm_verb html_mapping) false).

(** The body of the loop over the mappings: the section of one field, or
    nothing when none of its chunks has a source. *)
Definition build_section (resource_bundle_dto : option bundle)
    (existing_mappings : list SourceToTargetMapping)
    (mapping : SourceToTargetDiffMapping) : result (option section) :=
  '(source_value, data) ←
    (if decide (dm_type mapping = TYPE_HTML) then
       let html_existing_mappings :=
         match resource_bundle_dto with
         | Some d =>
             match d !! dm_name mapping with
             | Some field_dict => f_data field_dict
             | None => []
             end
         | None => []
         end in
       t ← ContentIO_fromstring (dm_source_value mapping);
       context ← decompose t;
       let html_mappings :=
         map_lists_source_to_target
           (snd context) (map c_source_value html_existing_mappings) in
       data ← mapM_result (html_item html_existing_mappings) html_mappings;
       mret (dm_source_value mapping, data)
     else
       let old_source_value :=
         if decide (dm_verb mapping = VERB_CHANGED) then
           match find_mapping existing_mappings (dm_name mapping) with
           | Some existing_mapping => m_source_value existing_mapping
           | None => VStr ""
           end
         else VStr "" in
       mret (VStr "",
             [mkItem (dm_source_value mapping) old_source_value
                     (dm_target_value mapping) (dm_verb mapping) false]));
  if existsb (fun it => truthy (i_source_value it)) data then
    mret (Some (mkSection (dm_name mapping) (dm_label mapping)
                          (dm_type mapping) source_value data))
  else mret None.

(** [build_sections_for_key], up to the end of the loop over the mappings:
    the binding and the sections before the known translations are added.
    The items of a [dict] come in the order of [map_to_list]. *)
Definition classify_sections (key : ResourceBundleKey) (c : course)
    (resource_bundle_dto : option bundle)
  : result (binding * list section) :=
  b ← bind_entity_to_schema c (_type key) (_key key);
  let allowed_names := filter_value_to_type_binding b in
  existing_mappings ←
    match resource_bundle_dto with
    | Some d => mapM_result existing_mapping (map_to_list d)
    | None => Ok []
    end;
  let mappings := map_source_to_target b allowed_names existing_mappings in
  built ← mapM_result (build_section resource_bundle_dto existing_mappings)
                      mappings;
  mret (b, omap id (built : list (option section))).

(** [build_sections_for_key(key, course, resource_bundle_dto, transformer)]. *)
Definition build_sections_for_key (key : ResourceBundleKey) (c : course)
    (resource_bundle_dto : option bundle)
  : result (binding * list section) :=
  '(b, sections) ← classify_sections key c resource_bundle_dto;
  sections ←
    (if decide (locale key ≠ default_locale c)
     then add_known_translations_as_defaults (locale key) sections
     else Ok sections);
  mret (b, sections).

(** [I18nProgressDeferredUpdater._update_progress_for_locale], for the bundle
    that [ResourceBundleDAO.load(str(key))] gave: the section builder, then
    the updater on its sections. *)
Definition _update_progress_for_locale (key : ResourceBundleKey) (c : course)
    (resource_bundle_dto : option bundle) (i18n_progress_dto : I18nProgressDTO)
  : result (bundle * I18nProgressDTO) :=
  '(_, sections) ← build_sections_for_key key c resource_bundle_dto;
  mret (update_dtos_with_section_data key sections resource_bundle_dto
                                      i18n_progress_dto).

End Builder.

(** ** The lazy translator: class [LazyTranslator] *)

(** What the translator asks of the application context: the rights of the
    current user and the template of the error annotation. *)
Inductive custom_module_id : Type := dashboard_module | i18n_dashboard_module.

Class AppContext : Type := {
  (** [roles.Roles.is_user_allowed(app_context, module, permission)] *)
  is_user_allowed : custom_module_id -> string -> bool;
  (** [app_context.get_current_locale()] *)
  get_current_locale : string;
  (** [TranslationConsole.get_edit_url(key)] *)
  get_edit_url : ResourceBundleKey -> string;
  (** the template [lazy_loader_error.html] rendered with [error_message],
      [edit_url] and [body] *)
  render_lazy_loader_error : string -> string -> string -> string
}.

Definition ACCESS_PERMISSION : string := "access_i18n_dashboard".

Definition locale_to_permission (locale : string) : string :=
  "translate_" +:+ locale.

Definition has_locale_rights `{AppContext} (locale : string) : bool :=
  is_user_allowed dashboard_module ACCESS_PERMISSION &&
  is_user_allowed i18n_dashboard_module (locale_to_permission locale).

Definition NOT_STARTED_TRANSLATION : Z := 0.
Definition VALID_TRANSLATION : Z := 1.
Definition INVALID_TRANSLATION : Z := 2.

(** The attributes of a [LazyTranslator].  [lt_target_value] is the cache of
    the resolved text, [VNone] until it is set. *)
Record LazyTranslator : Type := mkLazyTranslator {
  lt_key : ResourceBundleKey;
  lt_source_value : value;
  lt_target_value : value;
  lt_translation_dict : field;
  lt_status : Z;
  lt_errm : string
}.

(** [__init__]: the source is [None] or a text. *)
Definition LazyTranslator_init (key : ResourceBundleKey) (source_value : value)
    (translation_dict : field) : result LazyTranslator :=
  match source_value with
  | VInt _ => Raise (Exn AssertionError "")
  | _ =>
      Ok (mkLazyTranslator key source_value VNone translation_dict
                           NOT_STARTED_TRANSLATION "")
  end.

Definition set_status (t : LazyTranslator) (st : Z) (errm : string)
  : LazyTranslator :=
  mkLazyTranslator (lt_key t) (lt_source_value t) (lt_target_value t)
                   (lt_translation_dict t) st errm.

Definition set_target_value (t : LazyTranslator) (v : value) : LazyTranslator :=
  mkLazyTranslator (lt_key t) (lt_source_value t) v
                   (lt_translation_dict t) (lt_status t) (lt_errm t).

Definition type_error_index : exn :=
  Exn OtherException "list indices must be integers, not NoneType".

(** The message of a translation with [n] misses. *)
Definition out_of_date_message (count_misses : nat) : string :=
  let parts := if (count_misses =? 1)%nat then "part" else "parts" in
  let are := if (count_misses =? 1)%nat then "is" else "are" in
  "The content has changed and " +:+ string_of_nat count_misses +:+ " " +:+
  parts +:+ " of the translation " +:+ are +:+ " out of date.".

Section Translator.
Context `{XContent} `{AppContext}.

(** [_translate_text]: the status, and the target of the first chunk. *)
Definition _translate_text (t : LazyTranslator)
  : result value * LazyTranslator :=
  let t := set_status t VALID_TRANSLATION (lt_errm t) in
  match f_data (lt_translation_dict t) !! 0%nat with
  | Some c => (Ok (c_target_value c), t)
  | None => (Raise (Exn IndexError "list index out of range"), t)
  end.

(** The [try] block of [_fallback]: the stored targets recomposed over the
    stored source. *)
Definition last_known_good (translation_dict : field) : result string :=
  let source_value := f_source_value translation_dict in
  let resource_bundle := map c_target_value (f_data translation_dict) in
  tr ← ContentIO_fromstring source_value;
  context ← decompose tr;
  '(tr', _) ← recompose context resource_bundle;
  ContentIO_tostring tr'.

(** [_fallback]: the last known good translation, or [default_body] when
    making it raises. *)
Definition _fallback (t : LazyTranslator) (default_body : string) : string :=
  try_except (last_known_good (lt_translation_dict t)) (fun _ => default_body).

(** [_detailed_error]: the body, annotated for a user who may translate the
    current locale. *)
Definition _detailed_error (t : LazyTranslator) (msg body : string) : string :=
  if is_user_allowed i18n_dashboard_module
       (locale_to_permission get_current_locale)
  then render_lazy_loader_error msg (get_edit_url (lt_key t)) body
  else body.

(** One turn of the loop over the alignment in [_translate_html]: the state
    is [count_misses] and [resource_bundle]. *)
Definition substitute (data_list : list chunk) (chunks : list value)
    (st : nat * list value) (mapping : SourceToTargetDiffMapping)
  : result (nat * list value) :=
  let '(count_misses, resource_bundle) := st in
  if decide (dm_verb mapping = VERB_CURRENT) then
    match dm_target_value_index mapping with
    | Some i =>
        match data_list !! i with
        | Some c => Ok (count_misses, (resource_bundle ++ [c_target_value c])%list)
        | None => Raise (Exn IndexError "list index out of range")
        end
    | None => Raise type_error_index
    end
  else
    (* the verb is [VERB_CHANGED] or [VERB_NEW]: a verb has no other value *)
    match dm_source_value_index mapping with
    | Some i =>
        match chunks !! i with
        | Some c => Ok (S count_misses, (resource_bundle ++ [c])%list)
        | None => Raise (Exn IndexError "list index out of range")
        end
    | None => Raise type_error_index
    end.

Fixpoint foldM_result {A B} (f : A -> B -> result A) (a : A) (l : list B)
  : result A :=
  match l with
  | [] => Ok a
  | x :: l' => a' ← f a x; foldM_result f a' l'
  end.

(** The statements of the [try] block of [_translate_html] up to the test of
    [count_misses]: the misses, the body and the errors of the
    recomposition. *)
Definition translate_html_try (t : LazyTranslator)
  : result (nat * string * list string) :=
  tr ← ContentIO_fromstring (lt_source_value t);
  context ← decompose tr;
  let data_list := f_data (lt_translation_dict t) in
  let diff_mapping_list :=
    map_lists_source_to_target (snd context) (map c_source_value data_list) in
  let count_misses :=
    if (length (snd context) <? length data_list)%nat
    then (length data_list - length (snd context))%nat
    else 0%nat in
  '(count_misses, resource_bundle) ←
    foldM_result (substitute data_list (snd context)) (count_misses, [])
                 diff_mapping_list;
  '(tr', errors) ← recompose context resource_bundle;
  body ← ContentIO_tostring tr';
  mret (count_misses, body, errors).

(** [_translate_html].  [__str__] calls it with a source that is a text, so
    that [unicode] leaves it as it is. *)
Definition _translate_html (t : LazyTranslator) : string * LazyTranslator :=
  let t := set_status t INVALID_TRANSLATION (lt_errm t) in
  match translate_html_try t with
  | Ok (count_misses, body, errors) =>
      if (count_misses =? 0)%nat && bool_decide (errors = []) then
        (body, set_status t VALID_TRANSLATION (lt_errm t))
      else
        let errm := out_of_date_message count_misses in
        let t := set_status t (lt_status t) errm in
        (_detailed_error t errm (_fallback t body), t)
  | Raise ex =>
      let t := set_status t (lt_status t) (exn_str ex) in
      (_detailed_error t (exn_str ex)
         (_fallback t (unicode (lt_source_value t))), t)
  end.

(** [__str__]: what the method returns (or the exception it raises), and the
    translator after the call.  The result is cached in [target_value]; a
    stored target that is [None] is returned as it is, and leaves the cache
    unset. *)
Definition LazyTranslator_str (t : LazyTranslator)
  : result value * LazyTranslator :=
  match lt_target_value t with
  | VNone =>
      match lt_source_value t with
      | VNone => (Ok (VStr ""), t)
      | VInt _ =>
          (Raise (Exn OtherException "'int' object has no attribute 'strip'"),
           t)
      | VStr source_value =>
          if String.eqb (strip source_value) "" then (Ok (VStr ""), t)
          else if decide (f_type (lt_translation_dict t) = TYPE_HTML) then
            let '(body, t) := _translate_html t in
            (Ok (VStr body), set_target_value t (VStr body))
          else
            match _translate_text t with
            | (Ok v, t) => (Ok v, set_target_value t v)
            | (Raise e, t) => (Raise e, t)
            end
      end
  | v => (Ok v, t)
  end.

End Translator.

(** ** Upload of translations: class [TranslationUploadRestHandler] *)

(** A message of a catalog, as [babel] reads it from a [.po] file: its id,
    its translation and its locations (text and line number). *)
Record message : Type := mkMessage {
  msg_id : string;
  msg_string : string;
  msg_locations : list (string * nat)
}.

(** The incoming translations: locale to bundle key to
    [{'original text': 'translated text'}]. *)
Abbreviation upload_translations :=
  (gmap string (gmap string (gmap string string))).

(** [for x in l: f] on a state, where the body can raise: the state reached,
    and the exception that left the loop if any. *)
Fixpoint for_each {S A} (f : S -> A -> S * option exn) (st : S) (l : list A)
  : S * option exn :=
  match l with
  | [] => (st, None)
  | x :: l' =>
      match f st x with
      | (st', None) => for_each f st' l'
      | (st', Some e) => (st', Some e)
      end
  end.

Definition protocol_error (msg : string) : exn := Exn ProtocolError msg.

(** The body of the loop over the locations of a message in [parse_po_file]:
    the state is the local [locale] and the dictionary [translations]. *)
Definition parse_location (m : message)
    (st : option string * upload_translations) (loc : string * nat)
  : (option string * upload_translations) * option exn :=
  let '(locale_, translations) := st in
  let '(location, _) := loc in
  match split "|" 4 location with
  | [protocol; _; _; key] =>
      if negb (String.eqb protocol "GCB-1") then
        (st, Some (protocol_error
                     ("Expected location format GCB-1, but had " +:+ protocol)))
      else
        match fromstring key with
        | Raise e => (st, Some e)
        | Ok k =>
            let message_locale := locale k in
            let check :=
              match locale_ with
              | None => Ok message_locale
              | Some l =>
                  if negb (String.eqb l message_locale) then
                    Raise (protocol_error
                             ("File has translations for both " +:+ quoted l
                              +:+ " and " +:+ quoted message_locale))
                  else Ok l
              end in
            match check with
            | Raise e => (st, Some e)
            | Ok l =>
                let by_key := default ∅ (translations !! l) in
                let by_id := default ∅ (by_key !! key) in
                ((Some l,
                  <[l := <[key := <[msg_id m := msg_string m]> by_id]> by_key]>
                    translations), None)
            end
        end
  | parts =>
      (st, Some (if (length parts <? 4)%nat
                 then unpack_too_few (length parts)
                 else unpack_too_many))
  end.

Definition parse_message (st : option string * upload_translations)
    (m : message) : (option string * upload_translations) * option exn :=
  for_each (parse_location m) st (msg_locations m).

(** What the upload handler asks of its surroundings: the request, the
    archive and catalog readers, the registry of translatable resources. *)
Class UploadEnv `{Course} : Type := {
  (** [appengine_config.PRODUCTION_MODE] *)
  PRODUCTION_MODE : bool;
  (** [crypto.XsrfTokenManager.is_xsrf_token_valid(token, XSRF_TOKEN_NAME)] *)
  is_xsrf_token_valid : string -> bool;
  (** [zipfile.ZipFile(...)]: the members of the archive, each with its name
      and what [zf.read(item)] gives; [BadZipfile] when it is no archive *)
  ZipFile : string -> result (list (string * result string));
  (** [pofile.read_po] *)
  read_po : string -> result (list message);
  (** [self.get_course()] *)
  get_course : course;
  (** the keys, type and key, of
      [TranslatableResourceRegistry.get_resources_and_keys(course)] *)
  get_resources_and_keys : course -> list (string * value);
  (** [common_locales.get_locale_display_name(locale)] *)
  get_locale_display_name : string -> string
}.

(** The records of the datastore: the progress DTOs by id, and the bundles by
    id, each with the [locale] property of its entity. *)
Record datastore : Type := mkDatastore {
  ds_progress : gmap string I18nProgressDTO;
  ds_bundles : gmap string (string * bundle)
}.

(** Modelled from the spec: [str(resource.Key(type, key))], the canonical
    string form [type:key] of a resource key ([models/resource.py] is not
    part of the sources at hand). *)
Definition resource_key_str (type_str : string) (key : value) : string :=
  type_str +:+ ":" +:+ unicode key.

(** [s.endswith('.po')]. *)
Definition endswith_po (s : string) : bool :=
  let n := String.length s in
  (3 <=? n)%nat && String.eqb (substring (n - 3) 3 s) ".po".

Section Upload.
Context `{Course} `{I18nStore} `{AppContext} `{!UploadEnv}.

(** [parse_po_file(translations, po_file_content)]: the dictionary as the
    call leaves it, and the exception raised if any. *)
Definition parse_po_file (translations : upload_translations)
    (po_file_content : string) : upload_translations * option exn :=
  match read_po po_file_content with
  | Raise e => (translations, Some e)
  | Ok the_catalog =>
      let '((_, translations), e) :=
        for_each parse_message (None, translations) the_catalog in
      (translations, e)
  end.

(** The state of the loops of [update_translations] over the chunks of one
    resource. *)
Record upload_state : Type := mkUploadState {
  us_messages : list string;
  us_used_translations : gset string;
  us_num_replacements : nat;
  us_num_blank_translations : nat
}.

(** The body of the loop over the chunks. *)
Definition upload_item (translations : gmap string string)
    (st : upload_state) (it : item) : upload_state * item :=
  let source_value :=
    match i_source_value it with
    | VStr s => s
    | v => unicode v   (* no [basestring]: converted *)
    end in
  match translations !! source_value with
  | None =>
      (mkUploadState
         (us_messages st ++
            ["Did not find translation for " +:+ quoted source_value])%list
         (us_used_translations st) (us_num_replacements st)
         (us_num_blank_translations st),
       it)
  | Some translation =>
      if negb (String.eqb translation "") then
        (mkUploadState (us_messages st)
           ({[source_value]} ∪ us_used_translations st)
           (S (us_num_replacements st)) (us_num_blank_translations st),
         mkItem (i_source_value it) (i_old_source_value it)
                (VStr translation) (i_verb it) true)
      else
        (mkUploadState (us_messages st)
           ({[source_value]} ∪ us_used_translations st)
           (us_num_replacements st) (S (us_num_blank_translations st)),
         it)
  end.

(** A loop that updates the elements of a list in place and carries a
    state. *)
Fixpoint map_accum {S A} (f : S -> A -> S * A) (st : S) (l : list A)
  : S * list A :=
  match l with
  | [] => (st, [])
  | x :: l' =>
      let '(st1, y) := f st x in
      let '(st2, ys) := map_accum f st1 l' in
      (st2, y :: ys)
  end.

Definition upload_section (translations : gmap string string)
    (st : upload_state) (s : section) : upload_state * section :=
  let '(st', data) := map_accum (upload_item translations) st (s_data s) in
  (st', mkSection (s_name s) (s_label s) (s_type s) (s_source_value s) data).

(** The two loops over the sections and their chunks. *)
Definition upload_sections (translations : gmap string string)
    (st : upload_state) (sections : list section)
  : upload_state * list section :=
  map_accum (upload_section translations) st sections.

(** The state of the loop of [update_translations] over the resources, for
    one locale: the messages, the counters, and the DTOs in memory by id. *)
Record locale_state : Type := mkLocaleState {
  ls_messages : list string;
  ls_used_resource_translations : gset string;
  ls_num_resources : nat;
  ls_num_replacements : nat;
  ls_num_blank_translations : nat;
  ls_bundle_by_key : gmap string bundle;
  ls_progress_by_key : gmap string I18nProgressDTO
}.

(** The body of the loop over the resources. *)
Definition update_resource (c : course) (locale : string)
    (resource_translations : gmap string (gmap string string))
    (st : locale_state) (resource_key : string * value)
  : locale_state * option exn :=
  let num_resources := S (ls_num_resources st) in
  let key := mkResourceBundleKey (fst resource_key) (snd resource_key) locale in
  let key_str := ResourceBundleKey_str key in
  (* the DTOs of the resource, blank ones when it has none *)
  let resource_bundle_dto := default ∅ (ls_bundle_by_key st !! key_str) in
  let bundle_by_key := <[key_str := resource_bundle_dto]> (ls_bundle_by_key st) in
  let progress_id := resource_key_str (fst resource_key) (snd resource_key) in
  let i18n_progress_dto :=
    default (mkProgress None None) (ls_progress_by_key st !! progress_id) in
  let progress_by_key :=
    <[progress_id := i18n_progress_dto]> (ls_progress_by_key st) in
  let '(translations, used_resource_translations) :=
    match resource_translations !! key_str with
    | Some t =>
        if decide (t = ∅) then (∅, ls_used_resource_translations st)
        else (t, {[key_str]} ∪ ls_used_resource_translations st)
    | None => (∅, ls_used_resource_translations st)
    end in
  match build_sections_for_key key c (Some resource_bundle_dto) with
  | Raise e =>
      (mkLocaleState (ls_messages st) used_resource_translations num_resources
         (ls_num_replacements st) (ls_num_blank_translations st)
         bundle_by_key progress_by_key, Some e)
  | Ok (_, sections) =>
      let '(us, sections) :=
        upload_sections translations
          (mkUploadState (ls_messages st) ∅ (ls_num_replacements st)
                         (ls_num_blank_translations st)) sections in
      let unused :=
        map (fun unused_translation =>
               "Translation for " +:+ quoted unused_translation +:+
               " present but not used.")
            (elements (dom translations ∖ us_used_translations us)) in
      let '(d, p) :=
        update_dtos_with_section_data key sections (Some resource_bundle_dto)
                                      i18n_progress_dto in
      (mkLocaleState (us_messages us ++ unused)%list used_resource_translations
         num_resources (us_num_replacements us) (us_num_blank_translations us)
         (<[key_str := d]> bundle_by_key) (<[progress_id := p]> progress_by_key),
       None)
  end.

(** [ResourceBundleDAO.save_all]: [before_put] sets the [locale] of each
    entity from the id of its DTO. *)
Definition save_all_bundles (dtos : gmap string bundle)
    (stored : gmap string (string * bundle))
  : result (gmap string (string * bundle)) :=
  entities ←
    mapM_result
      (fun '(the_id, d) =>
         resource_bundle_key ← fromstring the_id;
         mret (the_id, (locale resource_bundle_key, d)))
      (map_to_list dtos);
  mret (list_to_map entities ∪ stored).

(** The body of the loop over the locales: the state is the datastore, the
    progress DTOs in memory and the messages. *)
Definition update_locale (c : course)
    (st : datastore * gmap string I18nProgressDTO * list string)
    (lt : string * gmap string (gmap string string))
  : (datastore * gmap string I18nProgressDTO * list string) * option exn :=
  let '(ds, progress_by_key, messages) := st in
  let '(locale, resource_translations) := lt in
  (* [ResourceBundleDAO.get_all_for_locale(locale)] *)
  let bundle_by_key :=
    snd <$> filter (fun kv => fst (snd kv) = locale) (ds_bundles ds) in
  match
    for_each (update_resource c locale resource_translations)
      (mkLocaleState messages ∅ 0 0 0 bundle_by_key progress_by_key)
      (get_resources_and_keys c)
  with
  | (ls, Some e) => ((ds, ls_progress_by_key ls, ls_messages ls), Some e)
  | (ls, None) =>
      let unused :=
        map (fun unused =>
               "Translation file had " +:+
               string_of_nat (size (default ∅ (resource_translations !! unused)))
               +:+ " items for resource " +:+ quoted unused +:+
               ", but course had no such resource.")
            (elements (dom resource_translations
                         ∖ ls_used_resource_translations ls)) in
      let summary :=
        "For " +:+ get_locale_display_name locale +:+ ", made " +:+
        string_of_nat (ls_num_replacements ls) +:+ " total replacements in " +:+
        string_of_nat (ls_num_resources ls) +:+ " resources.  " +:+
        string_of_nat (ls_num_blank_translations ls) +:+
        " items in the uploaded file did not have translations." in
      let messages := (ls_messages ls ++ unused ++ [summary])%list in
      match save_all_bundles (ls_bundle_by_key ls) (ds_bundles ds) with
      | Raise e => ((ds, ls_progress_by_key ls, messages), Some e)
      | Ok bundles =>
          ((mkDatastore (ds_progress ds) bundles, ls_progress_by_key ls,
            messages), None)
      end
  end.

(** [update_translations(course, translations, messages)]: the datastore and
    the list [messages] as the call leaves them, and the exception raised if
    any. *)
Definition update_translations (c : course) (translations : upload_translations)
    (messages : list string) (ds : datastore)
  : datastore * list string * option exn :=
  match
    for_each (update_locale c) (ds, ds_progress ds, messages)
             (map_to_list translations)
  with
  | ((ds', _, messages'), Some e) => (ds', messages', Some e)
  | ((ds', progress_by_key, messages'), None) =>
      (* [I18nProgressDAO.save_all(i18n_progress_dtos)] *)
      (mkDatastore (progress_by_key ∪ ds_progress ds') (ds_bundles ds'),
       messages', None)
  end.

End Upload.

(** The request of an upload: what [transforms.loads] makes of the parameter
    [request] and the [xsrf_token] in it, and the parameter [file] of the
    form ([None] when absent; the content read when it is a
    [cgi.FieldStorage]). *)
Record upload_request : Type := mkUploadRequest {
  rq_xsrf_token : result (option string);
  rq_file : option (option string)
}.

Inductive response : Type :=
| JsonResponse (status : nat) (message : string)
| FileUploadResponse (status : nat) (message : string)
                     (payload : option (list string)).

(** How a handler ends: with a response, or with an exception that nothing
    caught. *)
Inductive outcome : Type :=
| Responded (r : response)
| Uncaught (e : exn).

Section Post.
Context `{Course} `{I18nStore} `{AppContext} `{!UploadEnv}.

(** The inner [try] of [post]: the archive read member by member. *)
Definition read_archive (file_content : string)
  : upload_translations * option exn :=
  match ZipFile file_content with
  | Raise e => (∅, Some e)
  | Ok infolist =>
      for_each
        (fun (translations : upload_translations)
             (item : string * result string) =>
           if endswith_po (fst item) then
             match snd item with
             | Raise e => (translations, Some e)
             | Ok content => parse_po_file translations content
             end
           else (translations, None))
        ∅ infolist
  end.

(** The two nested [try] statements of [post]: the translations collected,
    or the way the handler ends. *)
Definition collect_translations (file_content : string)
  : outcome + upload_translations :=
  let '(translations, raised) := read_archive file_content in
  let after_inner : (outcome + upload_translations) * option exn :=
    match raised with
    | Some ex =>
        if decide (exn_cls ex = BadZipfile) then
          match parse_po_file translations file_content with
          | (translations', Some ex') =>
              if decide (exn_cls ex' = UnicodeDecodeError) then
                (inl (Responded (FileUploadResponse 400
                   "Uploaded file did not parse as .zip or .po file." None)),
                 None)
              else (inr translations', Some ex')
          | (translations', None) => (inr translations', None)
          end
        else (inr translations, Some ex)
    | None => (inr translations, None)
    end in
  match after_inner with
  | (r, Some ex) =>
      if decide (exn_cls ex = ProtocolError) then
        inl (Responded (FileUploadResponse 400 (exn_str ex) None))
      else inl (Uncaught ex)
  | (r, None) => r
  end.

(** [post]: the datastore after the request, and how the handler ends.  The
    loading of the data of the locales, before the parsing, is left out. *)
Definition post (rq : upload_request) (ds : datastore) : datastore * outcome :=
  if PRODUCTION_MODE then
    (ds, Responded (JsonResponse 403 "Not available in production."))
  else
    match rq_xsrf_token rq with
    | Raise e =>
        if decide (exn_cls e = ValueError) then
          (ds, Responded (FileUploadResponse 400
                 ("Malformed or missing " +:+ quoted "request" +:+ " parameter.")
                 None))
        else (ds, Uncaught e)
    | Ok token =>
        if negb (match token with
                 | Some tok =>
                     negb (String.eqb tok "") && is_xsrf_token_valid tok
                 | None => false
                 end) then
          (ds, Responded (FileUploadResponse 403
                 "Missing or invalid XSRF token." None))
        else
          match rq_file rq with
          | None =>
              (ds, Responded (FileUploadResponse 400
                     "Must select a .zip or .po file to upload." None))
          | Some None =>
              (ds, Responded (FileUploadResponse 400
                     "Must select a .zip or .po file to upload" None))
          | Some (Some file_content) =>
              if String.eqb file_content "" then
                (ds, Responded (FileUploadResponse 400
                       "The .zip or .po file must not be empty." None))
              else
                match collect_translations file_content with
                | inl o => (ds, o)
                | inr translations =>
                    if decide (translations = ∅) then
                      (ds, Responded (FileUploadResponse 400
                             "No translations found in provided file." None))
                    else if negb (forallb (fun l => has_locale_rights l)
                                     (map fst (map_to_list translations))) then
                      (ds, Responded (FileUploadResponse 401
                             "Access denied." None))
                    else
                      match update_translations get_course translations [] ds
                      with
                      | (ds', _, Some e) => (ds', Uncaught e)
                      | (ds', messages, None) =>
                          (ds', Responded (FileUploadResponse 200 "Success."
                                             (Some messages)))
                      end
                end
          end
    end.

End Post.

(** ** The reading of catalog strings: [denormalize]

    The function that the module puts in the place of babel's
    [pofile.denormalize]. *)









(** ** Export of translations: classes [TranslationsAndLocations] and
    [TranslationDownloadRestHandler] *)

#[global] Instance value_countable : Countable value.
Proof.
  refine (inj_countable'
            (fun v => match v with
                      | VNone => inl tt
                      | VStr s => inr (inl s)
                      | VInt n => inr (inr n)
                      end)
            (fun x => match x with
                      | inl _ => VNone
                      | inr (inl s) => VStr s
                      | inr (inr n) => VInt n
                      end) _).
  intros []; reflexivity.
Defined.

(** The attribute [_translations]: a set, which the second test of
    [add_translation] replaces with a list. *)
Inductive translation_store : Type :=
| TSet (s : gset value)
| TList (l : list value).

Record TranslationsAndLocations : Type := mkTAndL {
  tl_translations : translation_store;
  tl_locations : list string;
  tl_comments : list string;
  tl_previous_id : value
}.

(** [__init__]. *)
Definition TranslationsAndLocations_init : TranslationsAndLocations :=
  mkTAndL (TSet ∅) [] [] (VStr "").

(** [not self._translations] and [any(self._translations)]. *)
Definition store_is_empty (st : translation_store) : bool :=
  match st with
  | TSet s => bool_decide (s = ∅)
  | TList l => bool_decide (l = [])
  end.

Definition store_any (st : translation_store) : bool :=
  match st with
  | TSet s => bool_decide (exists v, v ∈ s /\ truthy v = true)
  | TList l => existsb truthy l
  end.

(** [add_translation(translation)]; a list has no [add]. *)
Definition add_translation (t : TranslationsAndLocations) (translation : value)
  : result TranslationsAndLocations :=
  store ←
    (if truthy translation || store_is_empty (tl_translations t) then
       match tl_translations t with
       | TSet s => Ok (TSet ({[translation]} ∪ s))
       | TList _ =>
           Raise (Exn OtherException "'list' object has no attribute 'add'")
       end
     else Ok (tl_translations t));
  let store :=
    if truthy translation && negb (store_any store)
    then TList [translation] else store in
  mret (mkTAndL store (tl_locations t) (tl_comments t) (tl_previous_id t)).

Definition add_location (t : TranslationsAndLocations) (location : string)
  : TranslationsAndLocations :=
  mkTAndL (tl_translations t) (tl_locations t ++ [location])%list
          (tl_comments t) (tl_previous_id t).

(** [add_comment(comment)]: the comment is made a [unicode]. *)
Definition add_comment (t : TranslationsAndLocations) (comment : value)
  : TranslationsAndLocations :=
  mkTAndL (tl_translations t) (tl_locations t)
          (tl_comments t ++ [unicode comment])%list (tl_previous_id t).

Definition set_previous_id (t : TranslationsAndLocations) (previous_id : value)
  : TranslationsAndLocations :=
  mkTAndL (tl_translations t) (tl_locations t) (tl_comments t) previous_id.

(** What the export asks of its surroundings: the description of a field of
    the binding, [binding.find_field(name).description], and the title of the
    resource of a key (the registry gives each key with its resource),
    [resource.Registry.get(type).get_resource_title(rsrc)], which raises
    [AttributeError] where there is no handler. *)
Inductive title_lookup : Type :=
| Title (title : value)
| NoHandler                  (* [AttributeError] *)
| TitleRaises (e : exn).     (* an exception of another class *)

Class ExportEnv `{UploadEnv} : Type := {
  find_field_description : binding -> string -> result value;
  get_resource_title : string * value -> title_lookup
}.

(** The collected translations: original text to locale to
    [TranslationsAndLocations]. *)
Abbreviation export_translations :=
  (gmap string (gmap string TranslationsAndLocations)).

(** The location of a chunk in a catalog:
    ['GCB-1|%s|%s|%s' % (section_name, section_type, str(key))]. *)
Definition export_location (section_name section_type : string)
    (key : ResourceBundleKey) : string :=
  "GCB-1|" +:+ section_name +:+ "|" +:+ section_type +:+ "|" +:+
  ResourceBundleKey_str key.

Section Download.
Context `{Course} `{I18nStore} `{!UploadEnv} `{!ExportEnv}.

(** The body of the loop of [_collect_section_translations] over the chunks
    of a section. *)
Definition collect_item (export_what locale : string)
    (key : ResourceBundleKey) (resource_key : string * value)
    (section_name section_type : string) (description : value)
    (translations : export_translations) (translation : item)
  : export_translations * option exn :=
  let message := unicode (py_or (i_source_value translation) (VStr "")) in
  let translated_message := py_or (i_target_value translation) (VStr "") in
  let is_current := bool_decide (i_verb translation = VERB_CURRENT) in
  let old_message := i_old_source_value translation in
  if String.eqb message "" then (translations, None)
  else if negb (String.eqb export_what "all") && is_current
  then (translations, None)
  else
    let by_locale := default ∅ (translations !! message) in
    let t_and_l := default TranslationsAndLocations_init (by_locale !! locale) in
    let t_and_l :=
      add_location t_and_l (export_location section_name section_type key) in
    let t_and_l := add_comment t_and_l description in
    let store (t : TranslationsAndLocations) : export_translations :=
      <[message := <[locale := t]> by_locale]> translations in
    match
      (match get_resource_title resource_key with
       | Title title =>
           Ok (if truthy title then add_comment t_and_l title else t_and_l)
       | NoHandler => Ok t_and_l      (* [except AttributeError: pass] *)
       | TitleRaises e => Raise e
       end)
    with
    | Raise e => (store t_and_l, Some e)
    | Ok t_and_l =>
        if is_current then
          match add_translation t_and_l translated_message with
          | Ok t_and_l => (store t_and_l, None)
          | Raise e => (store t_and_l, Some e)
          end
        else
          match add_translation t_and_l (VStr "") with
          | Raise e => (store t_and_l, Some e)
          | Ok t_and_l =>
              if truthy old_message then
                let t_and_l := set_previous_id t_and_l old_message in
                if truthy translated_message then
                  (store (add_comment t_and_l
                            (VStr ("Previously translated as: " +:+
                                   quoted (unicode translated_message)))),
                   None)
                else (store t_and_l, None)
              else (store t_and_l, None)
          end
    end.

(** The body of the loop over the sections. *)
Definition collect_section (binding_ : binding)
    (export_what locale : string) (key : ResourceBundleKey)
    (resource_key : string * value)
    (translations : export_translations) (s : section)
  : export_translations * option exn :=
  match find_field_description binding_ (s_name s) with
  | Raise e => (translations, Some e)
  | Ok description =>
      for_each
        (collect_item export_what locale key resource_key
                      (s_name s) (s_type s) (py_or description (VStr "")))
        translations (s_data s)
  end.

(** [_collect_section_translations(translations, sections, binding,
    export_what, locale, key, resource_key, rsrc)]. *)
Definition _collect_section_translations (translations : export_translations)
    (sections : list section) (binding_ : binding)
    (export_what locale : string) (key : ResourceBundleKey)
    (resource_key : string * value)
  : export_translations * option exn :=
  for_each (collect_section binding_ export_what locale key resource_key)
           translations sections.

(** The state of the loop of [build_translations] over the resources, for
    one locale. *)
Record export_state : Type := mkExportState {
  es_translations : export_translations;
  es_bundle_by_key : gmap string bundle;
  es_progress_by_key : gmap string I18nProgressDTO
}.

(** The body of the loop over the resources. *)
Definition export_resource (c : course) (export_what locale : string)
    (st : export_state) (resource_key : string * value)
  : export_state * option exn :=
  let key := mkResourceBundleKey (fst resource_key) (snd resource_key) locale in
  let key_str := ResourceBundleKey_str key in
  (* the DTOs of the resource, blank ones when it has none *)
  let resource_bundle_dto := default ∅ (es_bundle_by_key st !! key_str) in
  let bundle_by_key := <[key_str := resource_bundle_dto]> (es_bundle_by_key st) in
  let progress_id := resource_key_str (fst resource_key) (snd resource_key) in
  let i18n_progress_dto :=
    default (mkProgress None None) (es_progress_by_key st !! progress_id) in
  let progress_by_key :=
    <[progress_id := i18n_progress_dto]> (es_progress_by_key st) in
  match build_sections_for_key key c (Some resource_bundle_dto) with
  | Raise e =>
      (mkExportState (es_translations st) bundle_by_key progress_by_key, Some e)
  | Ok (binding_, sections) =>
      let '(d, p) :=
        update_dtos_with_section_data key sections (Some resource_bundle_dto)
                                      i18n_progress_dto in
      let '(translations, raised) :=
        _collect_section_translations (es_translations st) sections binding_
          export_what locale key resource_key in
      (mkExportState translations (<[key_str := d]> bundle_by_key)
                     (<[progress_id := p]> progress_by_key),
       raised)
  end.

(** [ResourceBundleDAO.get_all_for_locale(locale)], by id. *)
Definition get_all_for_locale (ds : datastore) (locale : string)
  : gmap string bundle :=
  snd <$> filter (fun kv => fst (snd kv) = locale) (ds_bundles ds).

(** The body of the loop over the locales: the state is the datastore, the
    progress DTOs in memory and the translations. *)
Definition export_locale (c : course) (export_what : string)
    (st : datastore * gmap string I18nProgressDTO * export_translations)
    (locale : string)
  : (datastore * gmap string I18nProgressDTO * export_translations)
    * option exn :=
  let '(ds, progress_by_key, translations) := st in
  match
    for_each (export_resource c export_what locale)
      (mkExportState translations (get_all_for_locale ds locale)
                     progress_by_key)
      (get_resources_and_keys c)
  with
  | (es, Some e) => ((ds, es_progress_by_key es, es_translations es), Some e)
  | (es, None) =>
      match save_all_bundles (es_bundle_by_key es) (ds_bundles ds) with
      | Raise e => ((ds, es_progress_by_key es, es_translations es), Some e)
      | Ok bundles =>
          ((mkDatastore (ds_progress ds) bundles, es_progress_by_key es,
            es_translations es), None)
      end
  end.

(** [build_translations(course, locales, export_what)]: the datastore as
    the call leaves it, and the translations it returns or the exception it
    raises. *)
Definition build_translations (c : course) (locales : list string)
    (export_what : string) (ds : datastore)
  : datastore * result export_translations :=
  match
    for_each (export_locale c export_what) (ds, ds_progress ds, ∅) locales
  with
  | ((ds', _, _), Some e) => (ds', Raise e)
  | ((ds', progress_by_key, translations), None) =>
      (* [I18nProgressDAO.save_all(i18n_progress_dtos)] *)
      (mkDatastore (progress_by_key ∪ ds_progress ds') (ds_bundles ds'),
       Ok translations)
  end.

End Download.

(** ** Deletion of translations: class [TranslationDeletionRestHandler] *)

(** [l.remove(x)]: the first element equal to [x] is taken out; [ValueError]
    when there is none. *)
Fixpoint list_remove {A} `{EqDecision A} (x : A) (l : list A)
  : result (list A) :=
  match l with
  | [] => Raise (Exn ValueError "list.remove(x): x not in list")
  | y :: l' =>
      if decide (x = y) then Ok l'
      else rest ← list_remove x l'; mret (y :: rest)
  end.

(** An entry of the course setting ['extra_locales']: a dictionary with the
    key ['locale'], and its other keys. *)
Record configured_locale : Type := mkConfiguredLocale {
  cl_locale : string;
  cl_settings : gmap string value
}.

#[global] Instance configured_locale_eq_dec : EqDecision configured_locale.
Proof. solve_decision. Defined.

(** The loop over a copy of [extra_locales] that removes the entries of the
    locales from the list itself. *)
Definition remove_locales (locales : list string)
    (extra_locales : list configured_locale)
  : result (list configured_locale) :=
  foldM_result
    (fun remaining configured_locale =>
       if bool_decide (cl_locale configured_locale ∈ locales)
       then list_remove configured_locale remaining
       else Ok remaining)
    extra_locales extra_locales.

(** [ResourceBundleDAO.delete_all_for_locale(locale)]. *)
Definition delete_all_for_locale (locale : string)
    (bundles : gmap string (string * bundle)) : gmap string (string * bundle) :=
  filter (fun kv => fst (snd kv) <> locale) bundles.

(** [delete_locales(course, locales)]: the datastore as the call leaves it,
    and the setting ['extra_locales'] of the course that it saves ([None]
    when the environment has no such key: the list that [get] gives then is
    not part of the environment), or the exception raised. *)
Definition delete_locales (locales : list string) (ds : datastore)
    (extra_locales : option (list configured_locale))
  : datastore * result (option (list configured_locale)) :=
  let progress :=
    (fun i18n_progress_dto => foldl clear_progress i18n_progress_dto locales)
      <$> ds_progress ds in
  let bundles :=
    foldl (fun bundles locale => delete_all_for_locale locale bundles)
          (ds_bundles ds) locales in
  (mkDatastore progress bundles,
   match extra_locales with
   | None => Ok None
   | Some configured =>
       remaining ← remove_locales locales configured; mret (Some remaining)
   end).

(** ** The deferred update of progress: class [I18nProgressDeferredUpdater] *)

Section DeferredUpdater.
Context `{Course} `{I18nStore}.

(** The body of the loop of [_update_progress_for_resource] over the locales
    of the course: the state is the progress DTO.  The bundle is loaded from
    the datastore; what the updater does to it in memory is not saved. *)
Definition update_progress_step (c : course) (ds : datastore)
    (resource_key : string * value) (i18n_progress_dto : I18nProgressDTO)
    (locale_ : string) : result I18nProgressDTO :=
  if decide (locale_ <> default_locale c) then
    let key :=
      mkResourceBundleKey (fst resource_key) (snd resource_key) locale_ in
    let resource_bundle_dto :=
      snd <$> ds_bundles ds !! ResourceBundleKey_str key in
    '(_, i18n_progress_dto) ←
      _update_progress_for_locale key c resource_bundle_dto i18n_progress_dto;
    mret i18n_progress_dto
  else Ok i18n_progress_dto.

(** [_update_progress_for_resource(resource_key)], with the locales that
    [app_context.get_all_locales()] gives: the datastore as the call leaves
    it, and the exception raised if any. *)
Definition _update_progress_for_resource (c : course)
    (all_locales : list string) (ds : datastore)
    (resource_key : string * value) : datastore * option exn :=
  let progress_id := resource_key_str (fst resource_key) (snd resource_key) in
  let i18n_progress_dto :=
    default (mkProgress None None) (ds_progress ds !! progress_id) in
  match
    foldM_result (update_progress_step c ds resource_key) i18n_progress_dto
                 all_locales
  with
  | Raise e => (ds, Some e)
  | Ok i18n_progress_dto =>
      (mkDatastore (<[progress_id := i18n_progress_dto]> (ds_progress ds))
                   (ds_bundles ds),
       None)
  end.

(** [run()]: the resources of the job one after the other; an exception
    ends the job. *)
Definition run (c : course) (all_locales : list string)
    (resource_key_list : list (string * value)) (ds : datastore)
  : datastore * option exn :=
  for_each (_update_progress_for_resource c all_locales) ds resource_key_list.

End DeferredUpdater.

(** ** The translation console: class [TranslationConsoleRestHandler] *)

(** An entry of the validation report: ['status'], ['errm'] and, for a
    field that has a translation, ['output']. *)
Record report_entry : Type := mkReportEntry {
  re_status : Z;
  re_errm : string;
  re_output : option string
}.

(** What [put] reads from its request: the key, the truth of
    [request.get('validate', False)], whether
    [assert_xsrf_token_or_fail] lets the request pass, and the sections of
    the payload as [transforms.loads] and [transforms.json_to_dict] give
    them, or the exception that they raise. *)
Record console_request : Type := mkConsoleRequest {
  cr_key : string;
  cr_validate : bool;
  cr_xsrf_ok : bool;
  cr_sections : result (list section)
}.

(** How [put] ends. *)
Inductive console_outcome : Type :=
| XsrfRefused (key : string)       (* the answer of the token check *)
| AccessDenied (key : string)      (* 401, ['Access denied.'] *)
| Validated (report : gmap string report_entry)       (* 200, ['OK'] *)
| Saved                            (* 200, ['Saved.'] *)
| ConsoleUncaught (e : exn).

Section Console.
Context `{XContent} `{AppContext}.

(** [unicode(translator)]: [__str__] has to return a text. *)
Definition LazyTranslator_unicode (t : LazyTranslator)
  : result string * LazyTranslator :=
  match LazyTranslator_str t with
  | (Ok (VStr output), t) => (Ok output, t)
  | (Ok VNone, t) =>
      (Raise (Exn OtherException "__str__ returned non-string (type NoneType)"),
       t)
  | (Ok (VInt _), t) =>
      (Raise (Exn OtherException "__str__ returned non-string (type int)"), t)
  | (Raise e, t) => (Raise e, t)
  end.

(** The body of the loop of [_get_validation_report]: the entry of one
    name. *)
Definition validation_entry (key : ResourceBundleKey)
    (resource_bundle_dto : bundle) (name : string) : result report_entry :=
  match resource_bundle_dto !! name with
  | None =>
      Ok (mkReportEntry NOT_STARTED_TRANSLATION "No translation saved yet" None)
  | Some section =>
      source_value ←
        (if decide (f_type section = TYPE_HTML) then Ok (f_source_value section)
         else
           match f_data section !! 0%nat with
           | Some c => Ok (c_source_value c)
           | None => Raise (Exn IndexError "list index out of range")
           end);
      translator ← LazyTranslator_init key source_value section;
      match LazyTranslator_unicode translator with
      | (Raise e, _) => Raise e
      | (Ok output, translator) =>
          Ok (mkReportEntry (lt_status translator) (lt_errm translator)
                            (Some output))
      end
  end.

(** [_get_validation_report(key, section_names, resource_bundle_dto)]. *)
Definition _get_validation_report (key : ResourceBundleKey)
    (section_names : list string) (resource_bundle_dto : bundle)
  : result (gmap string report_entry) :=
  foldM_result
    (fun report name =>
       entry ← validation_entry key resource_bundle_dto name;
       mret (<[name := entry]> report))
    ∅ section_names.

(** [put]: the datastore after the request, and how the handler ends.  The
    request is what [transforms.loads] makes of the parameter [request], or
    the exception that it or the reading of ['key'] raises. *)
Definition put (request : result console_request) (ds : datastore)
  : datastore * console_outcome :=
  match request with
  | Raise e => (ds, ConsoleUncaught e)
  | Ok request =>
      match fromstring (cr_key request) with
      | Raise e => (ds, ConsoleUncaught e)
      | Ok key =>
          if negb (cr_xsrf_ok request) then
            (ds, XsrfRefused (ResourceBundleKey_str key))
          else if negb (has_locale_rights (locale key)) then
            (ds, AccessDenied (ResourceBundleKey_str key))
          else
            match cr_sections request with
            | Raise e => (ds, ConsoleUncaught e)
            | Ok sections =>
                let bundle_id := ResourceBundleKey_str key in
                let resource_bundle_dto :=
                  default ∅ (snd <$> ds_bundles ds !! bundle_id) in
                let progress_id := resource_key_str (_type key) (_key key) in
                let i18n_progress_dto :=
                  default (mkProgress None None)
                          (ds_progress ds !! progress_id) in
                let '(d, p) :=
                  update_dtos_with_section_data key sections
                    (Some resource_bundle_dto) i18n_progress_dto in
                if cr_validate request then
                  match _get_validation_report key (map s_name sections) d with
                  | Raise e => (ds, ConsoleUncaught e)
                  | Ok report => (ds, Validated report)
                  end
                else
                  (* [I18nProgressDAO.save], then [ResourceBundleDAO.save]
                     with its [before_put] *)
                  let progress := <[progress_id := p]> (ds_progress ds) in
                  match fromstring bundle_id with
                  | Raise e =>
                      (mkDatastore progress (ds_bundles ds), ConsoleUncaught e)
                  | Ok resource_bundle_key =>
                      (mkDatastore progress
                         (<[bundle_id := (locale resource_bundle_key, d)]>
                            (ds_bundles ds)),
                       Saved)
                  end
            end
      end
  end.

End Console.

(** ** The mark of what is translatable: class [IsTranslatableRestHandler] *)

(** The setter of [is_translatable]: [assert type(value) == bool]; the
    value is a [bool], or a value of another type. *)
Definition set_is_translatable (p : I18nProgressDTO) (v : bool + value)
  : result I18nProgressDTO :=
  match v with
  | inl b => Ok (mkProgress (Some b) (p_progress p))
  | inr _ => Raise (Exn AssertionError "")
  end.

(** What [post] reads from its request: whether
    [assert_xsrf_token_or_fail] lets it pass, whether
    [CourseOutlineRights.can_edit] holds, and the ['resource_key'] and the
    ['value'] of the payload. *)
Record translatable_request : Type := mkTranslatableRequest {
  tq_xsrf_ok : bool;
  tq_can_edit : bool;
  tq_resource_key : string;
  tq_value : bool + value
}.

(** How [post] ends. *)
Inductive translatable_outcome : Type :=
| TranslatableXsrfRefused            (* the answer of the token check *)
| TranslatableAccessDenied           (* 401, ['Access denied.'] *)
| TranslatableOk                     (* 200, ['OK'] *)
| TranslatableUncaught (e : exn).

(** [IsTranslatableRestHandler.post]. *)
Definition is_translatable_post (rq : translatable_request) (ds : datastore)
  : datastore * translatable_outcome :=
  if negb (tq_xsrf_ok rq) then (ds, TranslatableXsrfRefused)
  else if negb (tq_can_edit rq) then (ds, TranslatableAccessDenied)
  else
    let i18n_progress_dto :=
      default (mkProgress None None) (ds_progress ds !! tq_resource_key rq) in
    match set_is_translatable i18n_progress_dto (tq_value rq) with
    | Raise e => (ds, TranslatableUncaught e)
    | Ok i18n_progress_dto =>
        (mkDatastore
           (<[tq_resource_key rq := i18n_progress_dto]> (ds_progress ds))
           (ds_bundles ds),
         TranslatableOk)
    end.

(** ** The translation of loaded resources: [translate_units],
    [translate_html_hooks], [translate_course_env], [translate_dto_list] *)

(** The [value] of a field of a binding: a plain value, or the translator
    put in its place. *)
Inductive bound_value : Type :=
| Plain (v : value)
| Translated (t : LazyTranslator).

(** The body of the loop [for name, translation_dict in bundle.dict.items()]
    of these functions:
    [source_value = binding.name_to_value[name].value], then
    [binding.name_to_value[name].value = LazyTranslator(app_context, key,
    source_value, translation_dict)].  A name that the binding does not have
    raises [KeyError]; a value that is already a translator fails the
    assertion of [__init__]. *)
Definition translate_field (key : ResourceBundleKey)
    (name_to_value : gmap string bound_value) (nf : string * field)
  : result (gmap string bound_value) :=
  let '(name, translation_dict) := nf in
  match name_to_value !! name with
  | None => Raise (Exn OtherException ("u'" +:+ name +:+ "'"))
  | Some (Translated _) => Raise (Exn AssertionError "")
  | Some (Plain source_value) =>
      translator ← LazyTranslator_init key source_value translation_dict;
      mret (<[name := Translated translator]> name_to_value)
  end.

(** The loop over the fields of the bundle, in the order of [map_to_list]. *)
Definition translate_fields (key : ResourceBundleKey)
    (name_to_value : gmap string bound_value) (resource_bundle_dto : bundle)
  : result (gmap string bound_value) :=
  foldM_result (translate_field key) name_to_value
               (map_to_list resource_bundle_dto).

(** ** The registry of translatable resources: class
    [TranslatableResourceRegistry] *)

Section Registry.
Context `{Course}.

(** A type of translatable resource: what its class methods [get_title],
    [get_ordering] and [get_resources_and_keys] give (of the last one, the
    keys, type and key). *)
Record translatable_resource : Type := mkTranslatableResource {
  get_title : string;
  get_ordering : Z;
  rt_get_resources_and_keys : course -> list (string * value)
}.

(** The class attributes [_RESOURCE_TYPES] and [_RESOURCE_TITLES]. *)
Record registry : Type := mkRegistry {
  _RESOURCE_TYPES : list translatable_resource;
  _RESOURCE_TITLES : gset string
}.

Definition empty_registry : registry := mkRegistry [] ∅.

(** [register(translatable_resource)]. *)
Definition register (reg : registry) (t : translatable_resource)
  : result registry :=
  let title := get_title t in
  if decide (title ∈ _RESOURCE_TITLES reg) then
    Raise (Exn ValueError
             ("Title " +:+ quoted title +:+
              " is already registered as a translatable resource."))
  else
    Ok (mkRegistry (_RESOURCE_TYPES reg ++ [t])%list
                   ({[title]} ∪ _RESOURCE_TITLES reg)).

(** [sorted(l, key=...)]: the sort is stable, an element goes before the
    first one with a key that is not smaller. *)
Fixpoint insert_by_key {A} (key : A -> Z) (x : A) (l : list A) : list A :=
  match l with
  | [] => [x]
  | y :: l' =>
      if (key x <=? key y)%Z then x :: y :: l'
      else y :: insert_by_key key x l'
  end.

Definition sorted_by_key {A} (key : A -> Z) (l : list A) : list A :=
  foldr (insert_by_key key) [] l.

(** [get_all()]. *)
Definition get_all (reg : registry) : list translatable_resource :=
  sorted_by_key get_ordering (_RESOURCE_TYPES reg).

(** [get_resources_and_keys(course)] of the registry. *)
Definition registry_get_resources_and_keys (reg : registry) (c : course)
  : list (string * value) :=
  concat (map (fun resource_type => rt_get_resources_and_keys resource_type c)
              (get_all reg)).

(** The calls of [register] of a run, one after the other; a call that
    raises leaves the registry as it was. *)
Definition register_all (reg : registry) (ts : list translatable_resource)
  : registry :=
  foldl (fun reg t => match register reg t with Ok reg' => reg' | Raise _ => reg end)
        reg ts.

End Registry.

(** ** Notions of the statements *)

(** The keys that survive the string form: the type and the key are texts
    without [:]. *)
Definition colon_free (k : ResourceBundleKey) : bool :=
  negb (contains ":" (_type k)) &&
  match _key k with
  | VStr s => negb (contains ":" s)
  | _ => false
  end.

Definition edited (s : section) : bool := existsb i_changed (s_data s).

(** The field that the updater stores for a section with an edit. *)
Definition stored_field (s : section) : field :=
  mkField (s_type s)
          (if decide (s_type s = TYPE_HTML) then s_source_value s else VNone)
          (omap merge_rule (s_data s)).



(** The text under which a chunk is looked up in the uploaded translations. *)
Definition source_text (it : item) : string :=
  match i_source_value it with
  | VStr s => s
  | v => unicode v
  end.

(** What the upload makes of a chunk, in the words of the code: a
    translation that is found and is not the empty text becomes the target
    and marks the chunk as edited; any other chunk is left as it is. *)
Definition uploaded (translations : gmap string string) (it : item) : item :=
  match translations !! source_text it with
  | Some translation =>
      if String.eqb translation "" then it
      else mkItem (i_source_value it) (i_old_source_value it)
                  (VStr translation) (i_verb it) true
  | None => it
  end.








(** ** An instance of the collaborators

    A small content format on which the functions above run: a rich text is
    a sequence of chunks separated by [/], recomposition wants as many texts
    as there are chunks, and two lists of chunks are aligned position by
    position.  The examples and the instances of the theorems below are
    computed on it. *)

Definition slash_chunks (s : string) : list string :=
  split "/" (String.length s) s.

Fixpoint align_from (i : nat) (a b : list value)
  : list SourceToTargetDiffMapping :=
  match a with
  | [] => []
  | x :: a' =>
      match b with
      | [] =>
          mkDiffMapping "" VNone "" x VNone VERB_NEW (Some i) None
            :: align_from (S i) a' []
      | y :: b' =>
          mkDiffMapping "" VNone "" x y
            (if decide (x = y) then VERB_CURRENT else VERB_CHANGED)
            (Some i) (Some i)
            :: align_from (S i) a' b'
      end
  end.

Definition find_by_name (mappings : list SourceToTargetMapping) (name : string)
  : option SourceToTargetMapping :=
  List.find (fun m => String.eqb (m_name m) name) mappings.

Definition align_field (existing : list SourceToTargetMapping)
    (f : string * (string * value)) : SourceToTargetDiffMapping :=
  let '(name, (type_name, v)) := f in
  match find_by_name existing name with
  | Some m =>
      mkDiffMapping name VNone type_name v (m_target_value m)
        (if decide (v = m_source_value m) then VERB_CURRENT else VERB_CHANGED)
        None None
  | None => mkDiffMapping name VNone type_name v VNone VERB_NEW None None
  end.

Definition slash_content : XContent := {|
  tree := list string;
  binding := list (string * (string * value));
  ContentIO_fromstring := fun v =>
    match v with
    | VStr s => Ok (slash_chunks s)
    | _ => Raise (Exn OtherException "expected string or buffer")
    end;
  ContentIO_tostring := fun t => Ok (String.concat "/" t);
  decompose := fun t => Ok (t, map VStr t);
  recompose := fun context resource_bundle =>
    if (length resource_bundle =? length (snd context))%nat
    then Ok (map unicode resource_bundle, [])
    else Raise (Exn OtherException "resource bundle does not match the content");
  map_lists_source_to_target := align_from 0;
  map_source_to_target := fun b allowed_names existing =>
    map (align_field existing)
        (filter (fun f => bool_decide (fst f ∈ allowed_names)) b);
  find_mapping := find_by_name;
  filter_value_to_type_binding := fun b =>
    map fst
        (filter (fun f =>
                   bool_decide (fst (snd f) ∈
                                [TYPE_HTML; TYPE_STRING; TYPE_TEXT; TYPE_URL]))
                b)
|}.

(** A course with one resource: its default locale and the fields of the
    resource, each with its type and value. *)
Record one_resource : Type := mkOneResource {
  or_default_locale : string;
  or_fields : list (string * (string * value))
}.

Definition one_resource_course : @Course slash_content := {|
  course := one_resource;
  default_locale := or_default_locale;
  bind_entity_to_schema := fun c _ _ => Ok (or_fields c : @binding slash_content)
|}.

(** A store that knows one translation, and a store that is out of reach. *)
Definition store_of (known : gmap string string) : I18nStore := {|
  translations := gmap string string;
  get_translations := fun _ => Ok known;
  gettext := fun tr s => default s (tr !! s)
|}.

Definition no_store : I18nStore := {|
  translations := unit;
  get_translations := fun _ =>
    Raise (Exn AssertionError "Request global variable is not set.");
  gettext := fun _ s => s
|}.


(** A translator with all rights. *)
Definition translator_viewer : AppContext := {|
  is_user_allowed := fun _ _ => true;
  get_current_locale := "fr";
  get_edit_url := fun key => "dashboard?action=i18_console";
  render_lazy_loader_error := fun msg url body => msg +:+ body
|}.

(** An upload of a plain catalog: the file is no archive, and it reads as one
    message whose locations are the parts of the file between [;]. *)
Definition po_upload : @UploadEnv slash_content one_resource_course := {|
  PRODUCTION_MODE := false;
  is_xsrf_token_valid := fun tok => String.eqb tok "token";
  ZipFile := fun _ => Raise (Exn BadZipfile "File is not a zip file");
  read_po := fun content =>
    Ok [mkMessage "Intro" "Introduction"
          (map (fun l => (l, 1%nat)) (split ";" (String.length content) content))];
  get_course :=
    (mkOneResource "en" [("title", (TYPE_STRING, VStr "Intro"))]
     : @course _ one_resource_course);
  get_resources_and_keys := fun _ => [("lesson", VInt 1)];
  get_locale_display_name := fun l => l
|}.

(** The data of the examples. *)

(** A lesson with a title and a body, seen in French, with no bundle yet. *)
Definition lesson_fr : ResourceBundleKey :=
  mkResourceBundleKey "lesson" (VInt 1) "fr".

Definition lesson : @course _ one_resource_course :=
  mkOneResource "en"
    [("title", (TYPE_STRING, VStr "Intro"));
     ("body", (TYPE_HTML, VStr "Hello/World"))].

Definition known_intro : I18nStore := store_of {[ "Intro" := "Introduction" ]}.




(** An upload with a valid token, and an empty datastore. *)
Definition upload_of (file_content : string) : upload_request :=
  mkUploadRequest (Ok (Some "token")) (Some (Some file_content)).

Definition empty_datastore : datastore := mkDatastore ∅ ∅.





(** The number of occurrences of a character in a string. *)
Fixpoint count_char (c : ascii) (s : string) : nat :=
  match s with
  | EmptyString => 0
  | String d rest => (if Ascii.eqb d c then 1 else 0) + count_char c rest
  end.

(** The text under which the export files a chunk, and the chunks it
    exports: those with a source that is not blank, all of them when
    [export_what] is ['all'] and otherwise those that are not [CURRENT]. *)
Definition export_message (it : item) : string :=
  unicode (py_or (i_source_value it) (VStr "")).

Definition is_exported (export_what : string) (it : item) : bool :=
  negb (String.eqb (export_message it) "")
  && (String.eqb export_what "all"
      || negb (bool_decide (i_verb it = VERB_CURRENT))).

(** The entry of a message and a locale in the collected translations, a
    fresh one when there is none. *)
Definition entry_of (translations : export_translations)
    (message locale : string) : TranslationsAndLocations :=
  default TranslationsAndLocations_init
          (default ∅ (translations !! message) !! locale).

(** The locations of the exported chunks of a message, in the order of the
    sections and of their chunks. *)
Definition exported_locations (export_what : string) (key : ResourceBundleKey)
    (message : string) (sections : list section) : list string :=
  concat
    (map (fun s =>
            map (fun _ => export_location (s_name s) (s_type s) key)
                (List.filter
                   (fun it => is_exported export_what it
                              && String.eqb (export_message it) message)
                   (s_data s)))
         sections).

(** An export where every field has the description [Field] and the
    resource has the title [Lesson 1]. *)
Definition described_export : @ExportEnv slash_content one_resource_course
                                         po_upload := {|
  find_field_description := fun _ _ => Ok (VStr "Field");
  get_resource_title := fun _ => Title (VStr "Lesson 1")
|}.

(** The collected translations offer, for a message and a locale, only
    translations that are blank or that [Q] allows. *)
Definition offers_only (Q : string -> string -> value -> Prop)
    (translations : export_translations) : Prop :=
  forall message locale,
    exists s,
      tl_translations (entry_of translations message locale) = TSet s
      /\ forall v, v ∈ s -> truthy v = true -> Q message locale v.

(** A datastore as the DAO writes it: the [locale] of every bundle entity is
    the locale of the key that its id reads as ([before_put]). *)
Definition filed (ds : datastore) : Prop :=
  forall the_id l d,
    ds_bundles ds !! the_id = Some (l, d) ->
    exists k, fromstring the_id = Ok k /\ locale k = l.

(** A key of a resource, type and key, that prints without [:]. *)
Definition plain_resource_key (resource_key : string * value) : bool :=
  negb (contains ":" (fst resource_key))
  && negb (contains ":" (unicode (snd resource_key))).

(** A datastore that holds the French title of the lesson. *)
Definition title_in_french : bundle :=
  {[ "title" := mkField TYPE_STRING VNone
                        [mkChunk (VStr "Intro") (VStr "Introduction")] ]}.

Definition french_title_stored : datastore :=
  mkDatastore ∅ {[ "lesson:1:fr" := ("fr", title_in_french) ]}.

(** The progress record of an id, a blank one when there is none
    ([load_or_default]). *)
Definition progress_record (records : gmap string I18nProgressDTO)
    (the_id : string) : I18nProgressDTO :=
  default (mkProgress None None) (records !! the_id).

(** The German title of the lesson, as an upload brings it. *)
Definition german_title : upload_translations :=
  {[ "de" := {[ "lesson:1:de" := {[ "Intro" := "Einleitung" ]} ]} ]}.




(** A section as the builder makes it: one of its chunks has a source, and a
    section that is not [html] is one chunk, with no source of its own. *)
Definition well_built (s : section) : Prop :=
  existsb (fun it => truthy (i_source_value it)) (s_data s) = true
  /\ (s_type s <> TYPE_HTML ->
      length (s_data s) = 1%nat /\ s_source_value s = VStr "").

(** A message is on file for one of its locations: under the locale and
    the text of the bundle key of the location, its id gives its
    translation. *)
Definition on_file (translations : upload_translations)
    (p : message * (string * nat)) : Prop :=
  exists a b key k by_key by_id,
    split "|" 4 (fst (snd p)) = ["GCB-1"; a; b; key]
    /\ fromstring key = Ok k
    /\ translations !! locale k = Some by_key
    /\ by_key !! key = Some by_id
    /\ by_id !! msg_id (fst p) = Some (msg_string (fst p)).

(** What the loops over the chunks leave in their state: the messages for
    the chunks without a translation, the texts that were looked up with
    success, and the two counters. *)
Definition accounted (translations : gmap string string) (items : list item)
    (st st' : upload_state) : Prop :=
  (forall msg, msg ∈ us_messages st' <->
     msg ∈ us_messages st
     \/ exists it, it ∈ items /\ translations !! source_text it = None
                   /\ msg = "Did not find translation for "
                              +:+ quoted (source_text it))
  /\ (forall src, src ∈ us_used_translations st' <->
        src ∈ us_used_translations st
        \/ exists it, it ∈ items /\ source_text it = src
                      /\ is_Some (translations !! src))
  /\ (us_num_replacements st' + us_num_blank_translations st'
      = us_num_replacements st + us_num_blank_translations st
        + length (List.filter
                    (fun it => bool_decide
                                 (is_Some (translations !! source_text it)))
                    items))%nat.

(** An upload for the French lesson: the title, and a text that the lesson
    does not have. *)
Definition french_title_and_more : gmap string (gmap string string) :=
  {[ "lesson:1:fr" := {[ "Intro" := "Introduction"; "Gone" := "Parti" ]} ]}.

(** * Properties *)

(** ** Examples: the functions on concrete inputs *)

Example split_at_most_twice : split ":" 2 "a:b:c:d" = ["a"; "b"; "c:d"].
Proof. reflexivity. Qed.

Example fromstring_lesson :
  fromstring "lesson:4:fr" = Ok (mkResourceBundleKey "lesson" (VStr "4") "fr").
Proof. reflexivity. Qed.

Example fromstring_too_short :
  fromstring "lesson" = Raise (Exn ValueError "need more than 1 value to unpack").
Proof. reflexivity. Qed.

Example str_of_numeric_key :
  ResourceBundleKey_str (mkResourceBundleKey "lesson" (VInt 4) "fr")
  = "lesson:4:fr".
Proof. reflexivity. Qed.

Example strip_both_ends : strip "  a b  " = "a b".
Proof. reflexivity. Qed.

(** ** Bundle keys *)

Lemma split_zero sep s : split sep 0 s = [s].
Proof.
  induction s as [|c s IH]; simpl; [reflexivity|].
  destruct (Ascii.eqb c sep); [reflexivity|]. now rewrite IH.
Qed.

Lemma split_no_sep sep n s : contains sep s = false -> split sep n s = [s].
Proof.
  induction s as [|c s IH]; simpl; [reflexivity|].
  intros Hc. apply orb_false_iff in Hc as [Hc Hs].
  rewrite Hc, (IH Hs). reflexivity.
Qed.

Lemma split_first sep n a b :
  contains sep a = false ->
  split sep (S n) (a +:+ String sep b) = a :: split sep n b.
Proof.
  induction a as [|c a IH]; simpl.
  - intros _. now rewrite Ascii.eqb_refl.
  - intros Hc. apply orb_false_iff in Hc as [Hc Ha].
    rewrite Hc, (IH Ha). reflexivity.
Qed.

Lemma fromstring_str k :
  colon_free k = true -> fromstring (ResourceBundleKey_str k) = Ok k.
Proof.
  destruct k as [t [|s|n] l]; unfold colon_free; simpl; try (rewrite andb_false_r; discriminate).
  intros H. apply andb_true_iff in H as [Ht Hs].
  apply negb_true_iff in Ht, Hs.
  unfold fromstring, ResourceBundleKey_str. simpl.
  change (t +:+ ":" +:+ s +:+ ":" +:+ l)
    with (t +:+ String ":" (s +:+ String ":" l)).
  rewrite (split_first _ _ _ _ Ht), (split_first _ _ _ _ Hs), split_zero.
  reflexivity.
Qed.

(** C5, as the code has it.  The string form of a bundle key is
    [type:key:locale], and [fromstring] splits it on [:] at most twice, from
    the left.  A key whose type and key are texts without [:] is read back
    with the same three components (the locale may hold any text), and two
    such keys are equal exactly when their string forms are. *)
Theorem bundle_key_roundtrip (k1 k2 : ResourceBundleKey) :
  colon_free k1 = true ->
  colon_free k2 = true ->
  ResourceBundleKey_str k1
    = _type k1 +:+ ":" +:+ unicode (_key k1) +:+ ":" +:+ _locale k1
  /\ fromstring (ResourceBundleKey_str k1) = Ok k1
  /\ (forall s k, fromstring s = Ok k ->
        split ":" 2 s = [_type k; unicode (_key k); _locale k])
  /\ (ResourceBundleKey_str k1 = ResourceBundleKey_str k2 <-> k1 = k2).
Proof.
  intros H1 H2. split; [reflexivity|]. split; [now apply fromstring_str|].
  split.
  - intros s k. unfold fromstring.
    destruct (split ":" 2 s) as [|a [|b [|c [|d parts]]]]; simpl;
      try discriminate.
    intros [= <-]. reflexivity.
  - split; [|now intros ->].
    intros Heq. apply fromstring_str in H1, H2.
    rewrite Heq in H1. rewrite H1 in H2. now injection H2.
Qed.

(** The key of a lesson, and another one, through [bundle_key_roundtrip]. *)
Lemma bundle_key_roundtrip_lesson :
  fromstring (ResourceBundleKey_str (mkResourceBundleKey "lesson" (VStr "4") "fr"))
    = Ok (mkResourceBundleKey "lesson" (VStr "4") "fr")
  /\ (ResourceBundleKey_str (mkResourceBundleKey "lesson" (VStr "4") "fr")
        = ResourceBundleKey_str (mkResourceBundleKey "lesson" (VStr "5") "fr")
      <-> mkResourceBundleKey "lesson" (VStr "4") "fr"
          = mkResourceBundleKey "lesson" (VStr "5") "fr").
Proof.
  pose proof (bundle_key_roundtrip
                (mkResourceBundleKey "lesson" (VStr "4") "fr")
                (mkResourceBundleKey "lesson" (VStr "5") "fr")
                eq_refl eq_refl) as (_ & Hparse & _ & Heq).
  exact (conj Hparse Heq).
Defined.

(** C5, as stated, fails on a key that holds a [:]: the second split falls
    inside the key, whose tail goes to the locale.  And two keys with
    different components can share a string form.  (A key that is a number,
    as the id of a lesson is, is read back as a text.) *)
Lemma bundle_key_colon_in_key :
  fromstring
    (ResourceBundleKey_str (mkResourceBundleKey "course" (VStr "unit:2") "fr"))
    = Ok (mkResourceBundleKey "course" (VStr "unit") "2:fr")
  /\ mkResourceBundleKey "course" (VStr "unit") "2:fr"
     <> mkResourceBundleKey "course" (VStr "unit:2") "fr"
  /\ ResourceBundleKey_str (mkResourceBundleKey "course" (VStr "unit:2") "fr")
     = ResourceBundleKey_str (mkResourceBundleKey "course:unit" (VStr "2") "fr")
  /\ mkResourceBundleKey "course" (VStr "unit:2") "fr"
     <> mkResourceBundleKey "course:unit" (VStr "2") "fr"
  /\ fromstring
       (ResourceBundleKey_str (mkResourceBundleKey "lesson" (VInt 4) "fr"))
     = Ok (mkResourceBundleKey "lesson" (VStr "4") "fr")
  /\ mkResourceBundleKey "lesson" (VStr "4") "fr"
     <> mkResourceBundleKey "lesson" (VInt 4) "fr".
Proof. repeat split; try reflexivity; discriminate. Qed.

(** ** The updater *)

Lemma foldl_merge_item items changed data :
  foldl merge_item (changed, data) items
  = (changed || existsb i_changed items,
     (data ++ omap merge_rule items)%list).
Proof.
  revert changed data.
  induction items as [|it items IH]; intros changed data; simpl.
  - now rewrite orb_false_r, app_nil_r.
  - destruct it as [src old tgt v ch].
    destruct ch; [|destruct v]; cbn; repeat case_decide;
      try discriminate; try congruence;
      rewrite IH; cbn; rewrite <- ?app_assoc, ?orb_true_r; reflexivity.
Qed.

Lemma merge_section_spec d s :
  merge_section d s
  = if edited s then <[s_name s := stored_field s]> d else d.
Proof.
  unfold merge_section, edited, stored_field.
  rewrite foldl_merge_item. simpl. reflexivity.
Qed.

Lemma foldl_merge_section_untouched sections (d : gmap string field) name :
  (forall s, s ∈ sections -> s_name s = name -> edited s = false) ->
  foldl merge_section d sections !! name = d !! name.
Proof.
  revert d. induction sections as [|s sections IH]; intros d Hall; simpl;
    [reflexivity|].
  rewrite IH by (intros s' Hs'; apply Hall; now right).
  rewrite merge_section_spec.
  destruct (edited s) eqn:He; [|reflexivity].
  destruct (decide (s_name s = name)) as [Hn|Hn].
  - rewrite (Hall s) in He; [discriminate|now left|exact Hn].
  - now rewrite lookup_insert_ne.
Qed.

Lemma foldl_merge_section_last pre s post (d : gmap string field) :
  edited s = true ->
  (forall s', s' ∈ post -> s_name s' = s_name s -> edited s' = false) ->
  foldl merge_section d (pre ++ s :: post) !! s_name s = Some (stored_field s).
Proof.
  intros He Hpost. rewrite foldl_app. simpl.
  rewrite foldl_merge_section_untouched by exact Hpost.
  rewrite merge_section_spec, He. apply lookup_insert_eq.
Qed.

(** C1, as the code has it.  A chunk with an edit is stored with its current
    source and its edited target; without an edit, a [CHANGED] chunk is
    stored with its old source and its target, a [CURRENT] chunk with its
    source and target, and a [NEW] chunk is not stored.  The field of a
    section is written, as the list built by these rules, only when the
    section holds at least one edited chunk (the last such section of a name
    wins); a name none of whose sections holds an edit keeps the field it
    had. *)
Theorem merge_rule_of_edited_sections (key : ResourceBundleKey)
    (sections : list section) (rb : option (gmap string field))
    (p : I18nProgressDTO) :
  let d : gmap string field := default ∅ rb in
  let d' := fst (update_dtos_with_section_data key sections rb p) in
  (forall it, merge_rule it
     = if i_changed it
       then Some (mkChunk (i_source_value it) (i_target_value it))
       else match i_verb it with
            | VERB_CHANGED =>
                Some (mkChunk (i_old_source_value it) (i_target_value it))
            | VERB_CURRENT =>
                Some (mkChunk (i_source_value it) (i_target_value it))
            | VERB_NEW => None
            end)
  /\ (forall pre s post,
        sections = (pre ++ s :: post)%list ->
        existsb i_changed (s_data s) = true ->
        (forall s', s' ∈ post -> s_name s' = s_name s ->
                    existsb i_changed (s_data s') = false) ->
        d' !! s_name s
        = Some (mkField (s_type s)
                  (if decide (s_type s = TYPE_HTML)
                   then s_source_value s else VNone)
                  (omap merge_rule (s_data s))))
  /\ (forall name,
        (forall s, s ∈ sections -> s_name s = name ->
                   existsb i_changed (s_data s) = false) ->
        d' !! name = d !! name).
Proof.
  intros d d'. split; [|split].
  - intros [src old tgt v ch]. unfold merge_rule. simpl.
    destruct ch, v; reflexivity.
  - intros pre s post -> He Hpost. subst d'. simpl.
    replace (match rb with Some d0 => d0 | None => ∅ end) with d
      by (destruct rb; reflexivity).
    now apply foldl_merge_section_last.
  - intros name Hall. subst d'. simpl.
    replace (match rb with Some d0 => d0 | None => ∅ end) with d
      by (destruct rb; reflexivity).
    now apply foldl_merge_section_untouched.
Qed.

(** A title translated by hand, through [merge_rule_of_edited_sections]: the
    field is stored with the chunk of the edit. *)
Lemma merge_rule_of_edited_title :
  fst (update_dtos_with_section_data
         (mkResourceBundleKey "lesson" (VInt 1) "fr")
         [mkSection "title" VNone TYPE_STRING (VStr "")
            [mkItem (VStr "Intro") (VStr "") (VStr "Introduction")
                    VERB_NEW true]]
         None (mkProgress None None)) !! "title"
  = Some (mkField TYPE_STRING VNone
            [mkChunk (VStr "Intro") (VStr "Introduction")]).
Proof.
  apply (proj1 (proj2 (merge_rule_of_edited_sections
           (mkResourceBundleKey "lesson" (VInt 1) "fr")
           [mkSection "title" VNone TYPE_STRING (VStr "")
              [mkItem (VStr "Intro") (VStr "") (VStr "Introduction")
                      VERB_NEW true]]
           None (mkProgress None None)))
         [] _ [] eq_refl eq_refl).
  intros s' Hin. inversion Hin.
Defined.

(** C1, as stated, fails on a section without an edit: its chunk is
    [CHANGED] (a known translation offered by the section builder for a new
    text), the rules build a one-chunk list for it, and the updater stores no
    field. *)
Lemma merge_skips_section_without_edit :
  existsb (fun it => negb (bool_decide (i_verb it = VERB_NEW)))
    [mkItem (VStr "Intro") (VStr "") (VStr "Introduction") VERB_CHANGED false]
  = true
  /\ omap merge_rule
       [mkItem (VStr "Intro") (VStr "") (VStr "Introduction")
               VERB_CHANGED false]
     = [mkChunk (VStr "") (VStr "Introduction")]
  /\ fst (update_dtos_with_section_data
            (mkResourceBundleKey "lesson" (VInt 1) "fr")
            [mkSection "title" VNone TYPE_STRING (VStr "")
               [mkItem (VStr "Intro") (VStr "") (VStr "Introduction")
                       VERB_CHANGED false]]
            None (mkProgress None None)) !! "title"
     = None.
Proof. repeat split. Qed.

(** *** Progress *)

Lemma chunk_in_progress_not_done it :
  chunk_in_progress it = true -> chunk_done it = false.
Proof.
  unfold chunk_in_progress, chunk_done.
  destruct it as [src old tgt v ch]; simpl.
  destruct (truthy tgt), ch, v; simpl; rewrite ?andb_false_r; try discriminate;
    intros _; reflexivity.
Qed.

Lemma progress_item_spec any_done all_done it :
  progress_item (any_done, all_done) it
  = (any_done || (chunk_done it || chunk_in_progress it),
     all_done && chunk_done it).
Proof.
  unfold progress_item, chunk_done, chunk_in_progress.
  destruct it as [src old tgt v ch]; simpl.
  destruct (truthy src), (truthy tgt), ch, v, any_done, all_done; reflexivity.
Qed.

Lemma foldl_progress_item items any_done all_done :
  foldl progress_item (any_done, all_done) items
  = (any_done ||
       existsb (fun it => chunk_done it || chunk_in_progress it) items,
     all_done && forallb chunk_done items).
Proof.
  revert any_done all_done.
  induction items as [|it items IH]; intros any_done all_done;
    cbn [foldl existsb forallb].
  - now rewrite orb_false_r, andb_true_r.
  - rewrite progress_item_spec, IH.
    now rewrite <- !orb_assoc, <- !andb_assoc.
Qed.

Lemma foldl_progress_section sections any_done all_done :
  foldl progress_section (any_done, all_done) sections
  = (any_done ||
       existsb (fun it => chunk_done it || chunk_in_progress it)
               (all_items sections),
     all_done && forallb chunk_done (all_items sections)).
Proof.
  revert any_done all_done.
  induction sections as [|s sections IH]; intros any_done all_done;
    cbn [foldl].
  - cbn. now rewrite orb_false_r, andb_true_r.
  - unfold progress_section at 2. rewrite foldl_progress_item, IH.
    unfold all_items. cbn [map concat].
    rewrite existsb_app, forallb_app.
    now rewrite <- !orb_assoc, <- !andb_assoc.
Qed.

Lemma progress_of_spec sections :
  progress_of sections
  = if forallb chunk_done (all_items sections) then DONE
    else if existsb (fun it => chunk_done it || chunk_in_progress it)
                    (all_items sections)
         then IN_PROGRESS else NOT_STARTED.
Proof.
  unfold progress_of. rewrite foldl_progress_section. simpl. reflexivity.
Qed.

Lemma get_set_progress p l v : get_progress (set_progress p l v) l = v.
Proof. unfold get_progress, set_progress. simpl. now rewrite lookup_insert_eq. Qed.

Lemma forallb_elem_of {A} (f : A -> bool) (l : list A) :
  forallb f l = true <-> forall x, x ∈ l -> f x = true.
Proof.
  rewrite forallb_forall. split; intros Hall x Hx; apply Hall;
    now apply list_elem_of_In.
Qed.

Lemma existsb_elem_of {A} (f : A -> bool) (l : list A) :
  existsb f l = true <-> exists x, x ∈ l /\ f x = true.
Proof.
  rewrite existsb_exists. split; intros (x & Hx & Hf); exists x; split;
    try assumption; now apply list_elem_of_In.
Qed.

(** C2.  The progress that the updater writes for the locale of the key is a
    function of the sections alone ([progress_of]), whatever the progress
    record held.  A chunk is done when its source and target are both blank,
    or when its target is filled and it is [CURRENT] or edited; it is in
    progress when it is [CHANGED], not edited, and its target is filled, and
    then it is not done.  The value is [DONE] exactly when every chunk is
    done, [IN_PROGRESS] exactly when some chunk is done or in progress but
    not all are done, and [NOT_STARTED] otherwise. *)
Theorem progress_derivation (key : ResourceBundleKey) (sections : list section)
    (rb : option (gmap string field)) (p : I18nProgressDTO) :
  let items := all_items sections in
  let written :=
    get_progress (snd (update_dtos_with_section_data key sections rb p))
                 (locale key) in
  let started it := chunk_done it || chunk_in_progress it in
  (forall it, chunk_done it
     = (negb (truthy (i_source_value it)) && negb (truthy (i_target_value it)))
       || (truthy (i_target_value it) &&
           (bool_decide (i_verb it = VERB_CURRENT) || i_changed it)))
  /\ (forall it, chunk_in_progress it = true <->
        i_verb it = VERB_CHANGED /\ i_changed it = false
        /\ truthy (i_target_value it) = true)
  /\ (forall it, chunk_in_progress it = true -> chunk_done it = false)
  /\ written = progress_of sections
  /\ (written = DONE <-> forall it, it ∈ items -> chunk_done it = true)
  /\ (written = IN_PROGRESS <->
        (exists it, it ∈ items /\ started it = true)
        /\ ~ (forall it, it ∈ items -> chunk_done it = true))
  /\ (written = NOT_STARTED <->
        ~ (exists it, it ∈ items /\ started it = true)
        /\ ~ (forall it, it ∈ items -> chunk_done it = true)).
Proof.
  intros items written started.
  assert (Hw : written = progress_of sections).
  { subst written. simpl. apply get_set_progress. }
  split; [reflexivity|]. split.
  { intros it. unfold chunk_in_progress.
    rewrite !andb_true_iff, bool_decide_eq_true, negb_true_iff. tauto. }
  split; [exact chunk_in_progress_not_done|]. split; [exact Hw|].
  rewrite Hw, progress_of_spec. fold items.
  rewrite <- (forallb_elem_of chunk_done items).
  rewrite <- (existsb_elem_of started items).
  change (fun it => chunk_done it || chunk_in_progress it) with started.
  destruct (forallb chunk_done items), (existsb started items);
    unfold DONE, IN_PROGRESS, NOT_STARTED;
    repeat split; intros; try discriminate; try tauto;
    try (destruct_and?; congruence).
Qed.

(** C9.  With no section there is no chunk, every chunk is done, and the
    updater writes [DONE], not [NOT_STARTED]. *)
Theorem progress_of_no_section (key : ResourceBundleKey)
    (rb : option (gmap string field)) (p : I18nProgressDTO) :
  get_progress (snd (update_dtos_with_section_data key [] rb p)) (locale key)
    = DONE
  /\ DONE <> NOT_STARTED.
Proof.
  split; [|discriminate].
  simpl. rewrite get_set_progress. reflexivity.
Qed.

(** ** The section builder *)

Lemma mapM_result_Forall2 {A B} (f : A -> result B) l ys :
  mapM_result f l = Ok ys -> Forall2 (fun x y => f x = Ok y) l ys.
Proof.
  revert ys. induction l as [|x l IH]; intros ys; simpl.
  - intros [= <-]. constructor.
  - destruct (f x) as [y|e] eqn:Hx; simpl; [|discriminate].
    destruct (mapM_result f l) as [ys'|e]; simpl; [|discriminate].
    intros [= <-]. constructor; [exact Hx|now apply IH].
Qed.

Lemma foldl_merge_section_no_edit sections (d : gmap string field) :
  (forall s, s ∈ sections -> edited s = false) ->
  foldl merge_section d sections = d.
Proof.
  revert d. induction sections as [|s sections IH]; intros d Hall; simpl;
    [reflexivity|].
  rewrite merge_section_spec, (Hall s) by now left.
  apply IH. intros s' Hs'. apply Hall. now right.
Qed.

Lemma set_progress_twice p l v :
  set_progress (set_progress p l v) l v = set_progress p l v.
Proof.
  unfold set_progress. simpl. now rewrite insert_insert_eq.
Qed.

Section BuilderProperties.
Context `{Course} `{I18nStore}.

Lemma default_item_changed tr it :
  i_changed (default_item tr it) = i_changed it.
Proof.
  unfold default_item.
  repeat (case_decide || case_match); reflexivity.
Qed.

Lemma default_section_edited tr s : edited (default_section tr s) = edited s.
Proof.
  unfold edited, default_section. simpl.
  induction (s_data s) as [|it items IH]; simpl; [reflexivity|].
  now rewrite default_item_changed, IH.
Qed.

Lemma html_item_changed existing m it :
  html_item existing m = Ok it -> i_changed it = false.
Proof.
  unfold html_item.
  destruct (dm_target_value_index m) as [i|]; simpl.
  - destruct (existing !! i); simpl; [|discriminate]. now intros [= <-].
  - now intros [= <-].
Qed.

Lemma mapM_html_item_changed existing ms data :
  mapM_result (html_item existing) ms = Ok data ->
  existsb i_changed data = false.
Proof.
  intros Hm. apply mapM_result_Forall2 in Hm.
  induction Hm as [|m it ms data Hit _ IH]; simpl; [reflexivity|].
  now rewrite (html_item_changed _ _ _ Hit), IH.
Qed.

Lemma build_section_edited rb em m s :
  build_section rb em m = Ok (Some s) -> edited s = false.
Proof.
  unfold build_section, edited.
  destruct (decide (dm_type m = TYPE_HTML)) as [Ht|Ht]; simpl.
  - destruct (ContentIO_fromstring (dm_source_value m)) as [t|e]; simpl;
      [|discriminate].
    destruct (decompose t) as [context|e]; simpl; [|discriminate].
    destruct (mapM_result _ _) as [data|e] eqn:Hdata; simpl; [|discriminate].
    destruct (existsb _ data); intros [= <-]. simpl.
    now apply mapM_html_item_changed in Hdata.
  - destruct (truthy (dm_source_value m)); simpl; intros [= <-].
    reflexivity.
Qed.

Lemma classify_sections_edited key c rb b sections :
  classify_sections key c rb = Ok (b, sections) ->
  forall s, s ∈ sections -> edited s = false.
Proof.
  unfold classify_sections.
  destruct (bind_entity_to_schema _ _ _) as [b'|e]; simpl; [|discriminate].
  destruct (match rb with Some d => _ | None => _ end) as [em|e]; simpl;
    [|discriminate].
  destruct (mapM_result _ _) as [built|e] eqn:Hb; simpl; [|discriminate].
  intros [= <- <-] s Hs.
  apply mapM_result_Forall2 in Hb.
  apply list_elem_of_omap in Hs as (o & Ho & Hs). simpl in Hs. subst o.
  induction Hb as [|m o ms built Hm _ IH]; [inversion Ho|].
  apply elem_of_cons in Ho as [<-|Ho]; [|now apply IH].
  now apply build_section_edited in Hm.
Qed.

Lemma build_sections_edited key c rb b sections :
  build_sections_for_key key c rb = Ok (b, sections) ->
  forall s, s ∈ sections -> edited s = false.
Proof.
  unfold build_sections_for_key.
  destruct (classify_sections key c rb) as [[b' raw]|e] eqn:Hraw; simpl;
    [|discriminate].
  pose proof (classify_sections_edited _ _ _ _ _ Hraw) as Hed.
  destruct (decide (locale key ≠ default_locale c)); simpl.
  - unfold add_known_translations_as_defaults.
    destruct (get_translations (locale key)) as [tr|e]; simpl.
    + intros [= <- <-] s Hs.
      apply list_elem_of_fmap in Hs as (s0 & -> & Hs0).
      rewrite default_section_edited. now apply Hed.
    + case_decide; simpl; [|discriminate]. now intros [= <- <-].
  - now intros [= <- <-].
Qed.

(** A bundle that is absent and a blank bundle give the same sections. *)
Lemma build_section_blank em m :
  build_section (Some ∅) em m = build_section None em m.
Proof. unfold build_section. now rewrite lookup_empty. Qed.

Lemma build_sections_blank key c :
  build_sections_for_key key c (Some ∅) = build_sections_for_key key c None.
Proof.
  unfold build_sections_for_key, classify_sections.
  rewrite map_to_list_empty. simpl.
  destruct (bind_entity_to_schema _ _ _) as [b|e]; reflexivity.
Qed.

(** C3.  When the section builder and then the updater have run on a bundle
    and a progress record (no chunk is edited in between: the builder marks
    none), a second run on what the first left, with the same course, leaves
    the fields of the bundle and the progress record as the first run left
    them.  The first run itself leaves the fields of the bundle as they
    were. *)
Theorem reconciliation_idempotent (key : ResourceBundleKey) (c : course)
    (rb : option (gmap string field)) (p : I18nProgressDTO)
    (b1 : gmap string field) (p1 : I18nProgressDTO) :
  _update_progress_for_locale key c rb p = Ok (b1, p1) ->
  b1 = default ∅ rb
  /\ _update_progress_for_locale key c (Some b1) p1 = Ok (b1, p1)
  /\ _update_progress_for_locale key c rb p1 = Ok (b1, p1).
Proof.
  unfold _update_progress_for_locale, update_dtos_with_section_data.
  destruct (build_sections_for_key key c rb) as [[b sections]|e] eqn:Hb;
    simpl; [|discriminate].
  pose proof (build_sections_edited _ _ _ _ _ Hb) as Hed.
  rewrite (foldl_merge_section_no_edit _ _ Hed).
  intros [= <- <-].
  assert (Hd : match rb with Some d => d | None => ∅ end = default ∅ rb)
    by (destruct rb; reflexivity).
  assert (Hsame : build_sections_for_key key c (Some (default ∅ rb))
                  = Ok (b, sections)).
  { destruct rb as [d|]; simpl; [exact Hb|].
    now rewrite build_sections_blank. }
  split; [exact Hd|]. rewrite Hd. split.
  - rewrite Hsame. simpl.
    rewrite (foldl_merge_section_no_edit _ _ Hed), set_progress_twice.
    reflexivity.
  - simpl. rewrite set_progress_twice. reflexivity.
Qed.

(** C8.  When the locale of the key is not the default locale of the course,
    the sections of the builder are those of the classification with the
    known translations added.  A chunk that is [NEW] and whose source text is
    not empty is looked up under that text in the translations of the locale:
    when what comes back differs from the text, it becomes the target and the
    chunk becomes [CHANGED]; when the text itself comes back the chunk stays
    as it was, [NEW], with the target it had (the empty text, for a chunk of
    a composite field that the alignment matched with nothing).  Every other
    chunk stays as it was.  When the store raises [AssertionError], the
    builder returns the sections of the classification as they are. *)
Theorem known_translations_as_defaults (key : ResourceBundleKey) (c : course)
    (rb : option (gmap string field)) (b : binding) (raw : list section) :
  classify_sections key c rb = Ok (b, raw) ->
  locale key <> default_locale c ->
  let text it := unicode (py_or (i_source_value it) (VStr "")) in
  (forall tr, get_translations (locale key) = Ok tr ->
     build_sections_for_key key c rb = Ok (b, map (default_section tr) raw))
  /\ (forall tr s,
        default_section tr s
        = mkSection (s_name s) (s_label s) (s_type s) (s_source_value s)
                    (map (default_item tr) (s_data s)))
  /\ (forall it s, i_source_value it = VStr s -> text it = s)
  /\ (forall tr it,
        i_verb it = VERB_NEW -> text it <> "" ->
        gettext tr (text it) <> text it ->
        default_item tr it
        = mkItem (i_source_value it) (i_old_source_value it)
                 (VStr (gettext tr (text it))) VERB_CHANGED (i_changed it))
  /\ (forall tr it,
        i_verb it = VERB_NEW -> gettext tr (text it) = text it ->
        default_item tr it = it)
  /\ (forall tr it,
        i_verb it <> VERB_NEW \/ text it = "" -> default_item tr it = it)
  /\ (forall existing m it,
        html_item existing m = Ok it -> dm_target_value_index m = None ->
        i_target_value it = VStr "" /\ i_verb it = dm_verb m)
  /\ (forall e, get_translations (locale key) = Raise e ->
        exn_cls e = AssertionError ->
        build_sections_for_key key c rb = Ok (b, raw)).
Proof.
  intros Hraw Hloc text.
  assert (Hbuild : build_sections_for_key key c rb
                   = (sections ← add_known_translations_as_defaults
                                   (locale key) raw; mret (b, sections))).
  { unfold build_sections_for_key. rewrite Hraw. simpl.
    now rewrite decide_True by exact Hloc. }
  split; [|split; [|split; [|split; [|split; [|split; [|split]]]]]].
  - intros tr Htr. rewrite Hbuild.
    unfold add_known_translations_as_defaults. now rewrite Htr.
  - reflexivity.
  - intros it s Hs. unfold text, py_or. rewrite Hs. simpl.
    destruct (String.eqb_spec s ""); simpl; congruence.
  - intros tr it Hv Ht Hg. unfold default_item. fold (text it).
    rewrite decide_True by exact Hv.
    apply String.eqb_neq in Ht, Hg. now rewrite Ht, Hg.
  - intros tr it Hv Hg. unfold default_item. fold (text it).
    rewrite decide_True by exact Hv.
    apply String.eqb_eq in Hg. rewrite Hg. simpl.
    now destruct (negb _).
  - intros tr it [Hv|Ht]; unfold default_item; fold (text it).
    + now rewrite decide_False by exact Hv.
    + apply String.eqb_eq in Ht. rewrite Ht. simpl. now case_decide.
  - intros existing m it Hit Hidx. unfold html_item in Hit.
    rewrite Hidx in Hit. simpl in Hit. now injection Hit as <-.
  - intros e He Hcls. rewrite Hbuild.
    unfold add_known_translations_as_defaults. rewrite He.
    now rewrite decide_True by exact Hcls.
Qed.

End BuilderProperties.

(** The lesson reconciled a second time, through
    [reconciliation_idempotent]. *)
Lemma reconciliation_idempotent_lesson :
  @_update_progress_for_locale slash_content one_resource_course known_intro
    lesson_fr lesson (Some ∅)
    (mkProgress None (Some {[ "fr" := IN_PROGRESS ]}))
  = Ok (∅, mkProgress None (Some {[ "fr" := IN_PROGRESS ]})).
Proof.
  refine (proj1 (proj2
    (@reconciliation_idempotent slash_content one_resource_course known_intro
       lesson_fr lesson None (mkProgress None None) ∅
       (mkProgress None (Some {[ "fr" := IN_PROGRESS ]})) _))).
  vm_compute. reflexivity.
Defined.

(** The sections of the lesson in French, through
    [known_translations_as_defaults]: the title is offered its known
    translation, the chunks of the body stay [NEW]. *)
Lemma known_translations_as_defaults_lesson :
  @build_sections_for_key slash_content one_resource_course known_intro
    lesson_fr lesson None
  = Ok (or_fields lesson,
        [mkSection "title" VNone TYPE_STRING (VStr "")
           [mkItem (VStr "Intro") (VStr "") (VStr "Introduction")
                   VERB_CHANGED false];
         mkSection "body" VNone TYPE_HTML (VStr "Hello/World")
           [mkItem (VStr "Hello") VNone (VStr "") VERB_NEW false;
            mkItem (VStr "World") VNone (VStr "") VERB_NEW false]]).
Proof.
  refine (proj1
    (@known_translations_as_defaults slash_content one_resource_course
       known_intro lesson_fr lesson None (or_fields lesson)
       [mkSection "title" VNone TYPE_STRING (VStr "")
          [mkItem (VStr "Intro") (VStr "") VNone VERB_NEW false];
        mkSection "body" VNone TYPE_HTML (VStr "Hello/World")
          [mkItem (VStr "Hello") VNone (VStr "") VERB_NEW false;
           mkItem (VStr "World") VNone (VStr "") VERB_NEW false]]
       _ _) {[ "Intro" := "Introduction" ]} _).
  - vm_compute. reflexivity.
  - vm_compute. discriminate.
  - reflexivity.
Defined.

Example store_out_of_reach :
  @build_sections_for_key slash_content one_resource_course no_store
    lesson_fr lesson None
  = @classify_sections slash_content one_resource_course lesson_fr lesson None.
Proof. vm_compute. reflexivity. Qed.

(** ** The lazy translator *)



Section TranslatorProperties.
Context `{XContent} `{AppContext}.





End TranslatorProperties.




(** ** Upload of translations *)

Lemma upload_item_uploaded translations st it :
  snd (upload_item translations st it) = uploaded translations it.
Proof.
  unfold upload_item, uploaded, source_text.
  destruct (i_source_value it); simpl;
    (destruct (translations !! _) as [t|]; [|reflexivity]);
    destruct (String.eqb t ""); reflexivity.
Qed.

Lemma map_accum_snd {S A} (f : S -> A -> S * A) (g : A -> A) st l :
  (forall st x, snd (f st x) = g x) ->
  snd (map_accum f st l) = map g l.
Proof.
  intros Hf. revert st. induction l as [|x l IH]; intros st; simpl;
    [reflexivity|].
  specialize (Hf st x). destruct (f st x) as [st1 y]. simpl in Hf. subst y.
  specialize (IH st1). destruct (map_accum f st1 l) as [st2 ys].
  simpl in *. now rewrite IH.
Qed.

Lemma upload_section_uploaded translations st s :
  snd (upload_section translations st s)
  = mkSection (s_name s) (s_label s) (s_type s) (s_source_value s)
              (map (uploaded translations) (s_data s)).
Proof.
  unfold upload_section.
  pose proof (map_accum_snd (upload_item translations) (uploaded translations)
                st (s_data s) (upload_item_uploaded translations)) as Hm.
  destruct (map_accum _ st (s_data s)) as [st' data]. simpl in *.
  now rewrite Hm.
Qed.



(** *** Protocol errors *)

Lemma for_each_nested {S A B} (g : A -> list B)
    (f : A -> S -> B -> S * option exn) (st : S) (l : list A) :
  for_each (fun st a => for_each (f a) st (g a)) st l
  = for_each (fun st ab => f (fst ab) st (snd ab)) st
             (concat (map (fun a => map (pair a) (g a)) l)).
Proof.
  revert st. induction l as [|a l IH]; intros st; simpl; [reflexivity|].
  assert (Happ : forall (l1 l2 : list (A * B)) st0,
    for_each (fun st ab => f (fst ab) st (snd ab)) st0 (l1 ++ l2)
    = match for_each (fun st ab => f (fst ab) st (snd ab)) st0 l1 with
      | (st', None) =>
          for_each (fun st ab => f (fst ab) st (snd ab)) st' l2
      | (st', Some e) => (st', Some e)
      end).
  { induction l1 as [|x l1 IH1]; intros l2 st0; simpl; [reflexivity|].
    destruct (f (fst x) st0 (snd x)) as [st1 [e|]]; [reflexivity|].
    apply IH1. }
  rewrite Happ.
  assert (Hmap : forall bs st0,
    for_each (fun st ab => f (fst ab) st (snd ab)) st0 (map (pair a) bs)
    = for_each (f a) st0 bs).
  { induction bs as [|b bs IHb]; intros st0; simpl; [reflexivity|].
    destruct (f a st0 b) as [st1 [e|]]; [reflexivity|]. apply IHb. }
  rewrite Hmap.
  destruct (for_each (f a) st (g a)) as [st' [e|]]; [reflexivity|].
  apply IH.
Qed.






Section PostProperties.
Context `{Course} `{I18nStore} `{AppContext} `{!UploadEnv}.






End PostProperties.

Example upload_of_one_translation :
  snd (@post slash_content one_resource_course known_intro translator_viewer
         po_upload (upload_of "GCB-1|title|string|lesson:1:fr") empty_datastore)
  = Responded
      (FileUploadResponse 200 "Success."
         (Some ["For fr, made 1 total replacements in 1 resources.  0 items in the uploaded file did not have translations."]))
  /\ get_progress
       (default (mkProgress None None)
          (ds_progress
             (fst (@post slash_content one_resource_course known_intro
                     translator_viewer po_upload
                     (upload_of "GCB-1|title|string|lesson:1:fr")
                     empty_datastore)) !! "lesson:1")) "fr"
     = DONE.
Proof. split; vm_compute; reflexivity. Qed.



(** ** The scenario of the design, run

    A course whose only field is a title, with no bundle in French and no
    translation known.  The builder gives one [NEW] chunk, and the updater
    stores nothing and writes [NOT_STARTED].  With the chunk translated by
    hand the updater stores it and writes [DONE].  After the title changed
    the builder gives a [CHANGED] chunk with the old source and the stored
    target, and the updater, with no edit, leaves the stored field as it is
    and writes [IN_PROGRESS]. *)
Example scenario_new_title :
  @build_sections_for_key slash_content one_resource_course no_store lesson_fr
    (mkOneResource "en" [("title", (TYPE_STRING, VStr "Intro"))]) None
  = Ok ([("title", (TYPE_STRING, VStr "Intro"))],
        [mkSection "title" VNone TYPE_STRING (VStr "")
           [mkItem (VStr "Intro") (VStr "") VNone VERB_NEW false]])
  /\ update_dtos_with_section_data lesson_fr
       [mkSection "title" VNone TYPE_STRING (VStr "")
          [mkItem (VStr "Intro") (VStr "") VNone VERB_NEW false]]
       None (mkProgress None None)
     = (∅, mkProgress None (Some {[ "fr" := NOT_STARTED ]})).
Proof. split; vm_compute; reflexivity. Qed.

Example scenario_translated_title :
  update_dtos_with_section_data lesson_fr
    [mkSection "title" VNone TYPE_STRING (VStr "")
       [mkItem (VStr "Intro") (VStr "") (VStr "Introduction") VERB_NEW true]]
    None (mkProgress None (Some {[ "fr" := NOT_STARTED ]}))
  = ({[ "title" := mkField TYPE_STRING VNone
                     [mkChunk (VStr "Intro") (VStr "Introduction")] ]},
     mkProgress None (Some {[ "fr" := DONE ]})).
Proof. vm_compute. reflexivity. Qed.

Example scenario_changed_title :
  @_update_progress_for_locale slash_content one_resource_course no_store
    lesson_fr (mkOneResource "en" [("title", (TYPE_STRING, VStr "Intro!"))])
    (Some {[ "title" := mkField TYPE_STRING VNone
                          [mkChunk (VStr "Intro") (VStr "Introduction")] ]})
    (mkProgress None (Some {[ "fr" := DONE ]}))
  = Ok ({[ "title" := mkField TYPE_STRING VNone
                        [mkChunk (VStr "Intro") (VStr "Introduction")] ]},
        mkProgress None (Some {[ "fr" := IN_PROGRESS ]}))
  /\ @build_sections_for_key slash_content one_resource_course no_store
       lesson_fr
       (mkOneResource "en" [("title", (TYPE_STRING, VStr "Intro!"))])
       (Some {[ "title" := mkField TYPE_STRING VNone
                  [mkChunk (VStr "Intro") (VStr "Introduction")] ]})
     = Ok ([("title", (TYPE_STRING, VStr "Intro!"))],
           [mkSection "title" VNone TYPE_STRING (VStr "")
              [mkItem (VStr "Intro!") (VStr "Intro") (VStr "Introduction")
                      VERB_CHANGED false]]).
Proof. split; vm_compute; reflexivity. Qed.

(** * More of the module *)

(** ** Catalog strings *)

Lemma append_cons c a b : String c a +:+ b = String c (a +:+ b).
Proof. reflexivity. Qed.

Lemma append_nil b : EmptyString +:+ b = b.
Proof. reflexivity. Qed.




















(** ** Export of translations *)

Lemma add_translation_set t s v :
  tl_translations t = TSet s ->
  add_translation t v
  = Ok (mkTAndL (TSet (if truthy v || bool_decide (s = ∅)
                       then {[v]} ∪ s else s))
                (tl_locations t) (tl_comments t) (tl_previous_id t)).
Proof.
  intros Hs. unfold add_translation. rewrite Hs. cbn [store_is_empty].
  destruct (truthy v) eqn:Hv; cbn [orb andb].
  - cbn [mbind result_bind store_any].
    rewrite bool_decide_eq_true_2; [reflexivity|].
    exists v. split; [|exact Hv].
    now apply elem_of_union_l, elem_of_singleton.
  - destruct (bool_decide (s = ∅)); reflexivity.
Qed.

Lemma union_singleton_not_empty (v : value) (s : gset value) :
  {[v]} ∪ s <> ∅.
Proof.
  intros He. apply (not_elem_of_empty (C := gset value) v).
  rewrite <- He. apply elem_of_union_l, elem_of_singleton. reflexivity.
Qed.

Lemma fold_add_translation vs t s :
  tl_translations t = TSet s ->
  exists t' s',
    foldM_result add_translation t vs = Ok t'
    /\ tl_translations t' = TSet s'
    /\ tl_locations t' = tl_locations t
    /\ tl_comments t' = tl_comments t
    /\ tl_previous_id t' = tl_previous_id t
    /\ forall v, v ∈ s' <->
         v ∈ s \/ (truthy v = true /\ v ∈ vs)
         \/ (truthy v = false /\ s = ∅ /\ head vs = Some v).
Proof.
  revert t s. induction vs as [|v0 vs IH]; intros t s Hs.
  - exists t, s. do 5 (split; [assumption || reflexivity|]).
    intros v. split; [auto|].
    intros [Hv|[[_ Hv]|(_ & _ & Hv)]]; [exact Hv|inversion Hv|discriminate].
  - cbn [foldM_result]. rewrite (add_translation_set t s v0 Hs).
    cbn [mbind result_bind].
    destruct (IH (mkTAndL (TSet (if truthy v0 || bool_decide (s = ∅)
                                 then {[v0]} ∪ s else s))
                          (tl_locations t) (tl_comments t) (tl_previous_id t))
                 _ eq_refl)
      as (t' & s' & Hfold & Hstore & Hloc & Hcom & Hprev & Hmem).
    exists t', s'. do 5 (split; [assumption || reflexivity|]).
    intros v. split.
    + intros Hv. apply Hmem in Hv.
      destruct (truthy v0) eqn:Hv0; cbn [orb] in Hv.
      * destruct Hv as [Hv|[[Ht Hv]|(_ & He & _)]];
          [| |now apply union_singleton_not_empty in He].
        -- apply elem_of_union in Hv as [Hv|Hv]; [|now left].
           apply elem_of_singleton in Hv. subst v.
           right. left. split; [exact Hv0|left].
        -- right. left. split; [exact Ht|now right].
      * case_bool_decide as He.
        -- subst s.
           destruct Hv as [Hv|[[Ht Hv]|(_ & He' & _)]];
             [| |now apply union_singleton_not_empty in He'].
           ++ apply elem_of_union in Hv as [Hv|Hv];
                [|now apply not_elem_of_empty in Hv].
              apply elem_of_singleton in Hv. subst v.
              right. right. repeat split. exact Hv0.
           ++ right. left. split; [exact Ht|now right].
        -- destruct Hv as [Hv|[[Ht Hv]|(_ & He' & _)]];
             [now left| |contradiction].
           right. left. split; [exact Ht|now right].
    + intros Hv. apply Hmem.
      destruct Hv as [Hv|[[Ht Hv]|(Hf & He & Hhd)]].
      * left. destruct (truthy v0 || bool_decide (s = ∅));
          [now apply elem_of_union_r|exact Hv].
      * apply elem_of_cons in Hv as [->|Hv].
        -- left. rewrite Ht. cbn [orb].
           now apply elem_of_union_l, elem_of_singleton.
        -- right. left. now split.
      * cbn [head] in Hhd. injection Hhd as ->. subst s.
        left. rewrite Hf. cbn [orb].
        rewrite bool_decide_eq_true_2 by reflexivity.
        now apply elem_of_union_l, elem_of_singleton.
Qed.

(** X3.  Translations added one after the other to a fresh
    [TranslationsAndLocations]: no call raises, the translations stay a set
    (the second test of [add_translation], which would make them a list, is
    never true), and the set holds exactly the translations added that are
    not blank, and the blank one when it was the first to be added.  So a
    blank that came first stays beside the translations that follow, and the
    set is empty only when nothing was added. *)
Theorem add_translation_keeps_first_blank (vs : list value) :
  exists t s,
    foldM_result add_translation TranslationsAndLocations_init vs = Ok t
    /\ tl_translations t = TSet s
    /\ (forall v, v ∈ s <->
          (truthy v = true /\ v ∈ vs)
          \/ (truthy v = false /\ head vs = Some v))
    /\ (s = ∅ <-> vs = []).
Proof.
  destruct (fold_add_translation vs TranslationsAndLocations_init ∅ eq_refl)
    as (t & s & Hfold & Hstore & _ & _ & _ & Hmem).
  exists t, s. split; [exact Hfold|]. split; [exact Hstore|].
  assert (Hmem' : forall v, v ∈ s <->
          (truthy v = true /\ v ∈ vs)
          \/ (truthy v = false /\ head vs = Some v)).
  { intros v. rewrite Hmem. split.
    - intros [Hv|[Hv|(Hf & _ & Hhd)]];
        [now apply not_elem_of_empty in Hv|now left|now right].
    - intros [Hv|[Hf Hhd]]; [right; now left|right; right; repeat split; auto]. }
  split; [exact Hmem'|].
  split.
  - intros ->. destruct vs as [|v vs]; [reflexivity|]. exfalso.
    assert (Hin : v ∈ (∅ : gset value));
      [|now apply not_elem_of_empty in Hin].
    apply Hmem'. destruct (truthy v) eqn:Hv.
    + left. split; [reflexivity|left].
    + right. split; reflexivity.
  - intros ->. apply set_eq. intros v. rewrite Hmem'.
    split; [|intros Hv; now apply not_elem_of_empty in Hv].
    intros [[_ Hv]|[_ Hhd]]; [inversion Hv|discriminate].
Qed.

Lemma split_four a b c d :
  contains "|" a = false -> contains "|" b = false ->
  contains "|" c = false -> contains "|" d = false ->
  split "|" 4 (a +:+ "|" +:+ b +:+ "|" +:+ c +:+ "|" +:+ d) = [a; b; c; d].
Proof.
  intros Ha Hb Hc Hd.
  change (a +:+ "|" +:+ b +:+ "|" +:+ c +:+ "|" +:+ d)
    with (a +:+ String "|" (b +:+ String "|" (c +:+ String "|" d))).
  rewrite (split_first _ _ _ _ Ha), (split_first _ _ _ _ Hb),
    (split_first _ _ _ _ Hc), (split_no_sep _ _ _ Hd).
  reflexivity.
Qed.

(** X4.  A location that the export writes is one that the import reads:
    when the name and the type of the field and the string form of the key
    hold no [|], and the type and the key of the bundle key are texts
    without [:], [parse_location] on ['GCB-1|name|type|key'] raises nothing
    and files the translation of the message under the locale of the key
    and the string form of the key. *)
Theorem exported_location_is_read_back (m : message)
    (section_name section_type : string) (key : ResourceBundleKey)
    (translations : gmap string (gmap string (gmap string string)))
    (lineno : nat) :
  contains "|" section_name = false ->
  contains "|" section_type = false ->
  contains "|" (ResourceBundleKey_str key) = false ->
  colon_free key = true ->
  let by_key := default ∅ (translations !! locale key) in
  let by_id := default ∅ (by_key !! ResourceBundleKey_str key) in
  parse_location m (None, translations)
    (export_location section_name section_type key, lineno)
  = ((Some (locale key),
      <[locale key :=
          <[ResourceBundleKey_str key := <[msg_id m := msg_string m]> by_id]>
            by_key]> translations),
     None).
Proof.
  intros Hname Htype Hkey Hcolon by_key by_id.
  unfold parse_location, export_location.
  change ("GCB-1|" +:+ section_name +:+ "|" +:+ section_type +:+ "|" +:+
          ResourceBundleKey_str key)
    with ("GCB-1" +:+ "|" +:+ section_name +:+ "|" +:+ section_type +:+ "|"
          +:+ ResourceBundleKey_str key).
  rewrite (split_four "GCB-1" _ _ _ eq_refl Hname Htype Hkey).
  cbn [String.eqb Ascii.eqb Bool.eqb negb].
  rewrite (fromstring_str key Hcolon). reflexivity.
Qed.

(** The title of the lesson exported in French, through
    [exported_location_is_read_back]. *)
Lemma exported_location_of_title_is_read_back :
  parse_location (mkMessage "Intro" "Introduction" []) (None, ∅)
    (export_location "title" "string"
       (mkResourceBundleKey "lesson" (VStr "1") "fr"), 0%nat)
  = ((Some "fr",
      {[ "fr" := {[ "lesson:1:fr" := {[ "Intro" := "Introduction" ]} ]} ]}),
     None).
Proof.
  exact (exported_location_is_read_back (mkMessage "Intro" "Introduction" [])
           "title" "string" (mkResourceBundleKey "lesson" (VStr "1") "fr")
           ∅ 0%nat eq_refl eq_refl eq_refl eq_refl).
Defined.

Lemma split_join sep n s :
  s = String.concat (String sep EmptyString) (split sep n s).
Proof.
  revert n. induction s as [|c s IH]; intros n; [reflexivity|].
  cbn [split]. destruct (Ascii.eqb_spec c sep) as [->|Hne].
  - destruct n as [|n]; [reflexivity|].
    specialize (IH n).
    destruct (split sep n s) as [|hd tl] eqn:Hs.
    + cbn in IH. subst s. discriminate Hs.
    + change (String.concat (String sep EmptyString) (EmptyString :: hd :: tl))
        with (EmptyString +:+ String sep EmptyString
                +:+ String.concat (String sep EmptyString) (hd :: tl)).
      rewrite append_nil, append_cons, append_nil. now rewrite <- IH.
  - specialize (IH n).
    destruct (split sep n s) as [|hd tl] eqn:Hs.
    + cbn in IH. subst s. discriminate Hs.
    + destruct tl as [|hd' tl].
      * cbn in IH |- *. now rewrite IH.
      * change (String.concat (String sep EmptyString)
                  (String c hd :: hd' :: tl))
          with (String c hd +:+ String sep EmptyString
                  +:+ String.concat (String sep EmptyString) (hd' :: tl)).
        change (String.concat (String sep EmptyString) (hd :: hd' :: tl))
          with (hd +:+ String sep EmptyString
                  +:+ String.concat (String sep EmptyString) (hd' :: tl))
          in IH.
        rewrite append_cons. now rewrite <- IH.
Qed.

Lemma split_length sep n s :
  length (split sep n s) = S (Nat.min n (count_char sep s)).
Proof.
  revert n. induction s as [|c s IH]; intros n; cbn [split count_char].
  - now rewrite Nat.min_0_r.
  - destruct (Ascii.eqb c sep).
    + destruct n as [|n]; [reflexivity|]. cbn [length]. now rewrite IH.
    + specialize (IH n). destruct (split sep n s); [discriminate IH|exact IH].
Qed.

(** X5.  [fromstring] reads exactly the strings with two [:] or more, and
    what it reads is written back by [str] as the same string; a string with
    fewer [:] raises the [ValueError] of the tuple assignment, for one more
    value than the string has [:]. *)
Theorem fromstring_of_any_string (s : string) :
  match fromstring s with
  | Ok k => ResourceBundleKey_str k = s /\ 2 <= count_char ":" s
  | Raise e =>
      count_char ":" s < 2 /\ e = unpack_too_few (S (count_char ":" s))
  end.
Proof.
  unfold fromstring.
  pose proof (split_length ":" 2 s) as Hlen.
  pose proof (split_join ":" 2 s) as Hjoin.
  destruct (split ":" 2 s) as [|a [|b [|c [|d parts]]]]; cbn [length] in Hlen.
  - discriminate Hlen.
  - cbn. assert (count_char ":" s = 0) as -> by lia. split; [lia|reflexivity].
  - cbn. assert (count_char ":" s = 1) as -> by lia. split; [lia|reflexivity].
  - split; [|lia]. symmetry. exact Hjoin.
  - lia.
Qed.

(** ** The updater, again *)

Lemma stored_field_has_chunks s :
  edited s = true -> f_data (stored_field s) <> [].
Proof.
  unfold edited, stored_field. cbn [f_data].
  induction (s_data s) as [|[src old tgt v ch] items IH]; cbn;
    [discriminate|].
  destruct ch; cbn; [discriminate|].
  intros He. specialize (IH He). destruct v; cbn; try discriminate.
  exact IH.
Qed.

(** X6.  The updater never deletes a field of the bundle and never stores a
    field without chunks: a name that has no field afterwards had none
    before, and a field found afterwards is the one that was there or one
    written from a section of that name, with its type and at least one
    chunk. *)
Theorem updater_keeps_fields_and_stores_chunks (key : ResourceBundleKey)
    (sections : list section) (resource_bundle_dto : option bundle)
    (i18n_progress_dto : I18nProgressDTO) (name : string) :
  let before := default ∅ resource_bundle_dto in
  match fst (update_dtos_with_section_data key sections resource_bundle_dto
               i18n_progress_dto) !! name with
  | Some f =>
      before !! name = Some f
      \/ (f_data f <> []
          /\ exists s, s ∈ sections /\ s_name s = name /\ f_type f = s_type s)
  | None => before !! name = None
  end.
Proof.
  unfold update_dtos_with_section_data. cbn [fst].
  replace (match resource_bundle_dto with Some d => d | None => ∅ end)
    with (default (∅ : bundle) resource_bundle_dto)
    by now destruct resource_bundle_dto.
  cbv zeta. generalize (default (∅ : bundle) resource_bundle_dto) as d.
  induction sections as [|s sections IH] using rev_ind; intros d.
  - cbn [foldl]. destruct (d !! name); [now left|reflexivity].
  - rewrite foldl_app. cbn [foldl]. rewrite merge_section_spec.
    specialize (IH d).
    destruct (edited s) eqn:He.
    + destruct (decide (s_name s = name)) as [Hn|Hn].
      * subst name. rewrite lookup_insert_eq. right.
        split; [now apply stored_field_has_chunks|].
        exists s. split; [|split; reflexivity].
        apply elem_of_app. right. apply list_elem_of_here.
      * rewrite lookup_insert_ne by exact Hn.
        destruct (foldl merge_section d sections !! name) as [f|];
          [|exact IH].
        destruct IH as [IH|(Hdata & s' & Hin & Hname & Htype)]; [now left|].
        right. split; [exact Hdata|]. exists s'.
        split; [|now split]. apply elem_of_app. now left.
    + destruct (foldl merge_section d sections !! name) as [f|]; [|exact IH].
      destruct IH as [IH|(Hdata & s' & Hin & Hname & Htype)]; [now left|].
      right. split; [exact Hdata|]. exists s'.
      split; [|now split]. apply elem_of_app. now left.
Qed.

(** ** Upload of translations, again *)

Section UploadAccess.
Context `{Course} `{I18nStore} `{AppContext} `{!UploadEnv}.

(** X7.  An upload writes to the datastore only through
    [update_translations], and reaches it only when the viewer may translate
    every locale of the file: one locale without the right and nothing is
    written, for the other locales either. *)
Theorem upload_writes_only_with_rights_for_every_locale
    (rq : upload_request) (ds : datastore) :
  fst (post rq ds) = ds
  \/ exists file_content translations,
       rq_file rq = Some (Some file_content)
       /\ collect_translations file_content = inr translations
       /\ (forall l, is_Some (translations !! l) -> has_locale_rights l = true)
       /\ fst (post rq ds)
          = fst (fst (update_translations get_course translations [] ds)).
Proof.
  unfold post.
  destruct PRODUCTION_MODE; [now left|].
  destruct (rq_xsrf_token rq) as [token|e]; [|left; now case_decide].
  destruct (negb _); [now left|].
  destruct (rq_file rq) as [[file_content|]|]; [|now left..].
  destruct (String.eqb file_content ""); [now left|].
  destruct (collect_translations file_content) as [o|translations] eqn:Hc;
    [now left|].
  case_decide; [now left|].
  destruct (forallb _ _) eqn:Hrights; cbn [negb]; [|now left].
  right. exists file_content, translations.
  split; [reflexivity|]. split; [exact Hc|]. split.
  - intros l [resource_translations Hl].
    rewrite forallb_elem_of in Hrights. apply Hrights.
    apply list_elem_of_fmap. exists (l, resource_translations).
    split; [reflexivity|]. now apply elem_of_map_to_list.
  - destruct (update_translations get_course translations [] ds)
      as [[ds' messages] [e|]]; reflexivity.
Qed.

End UploadAccess.

(** *** The chunks collected *)

Lemma for_each_invariant {S A} (P : S -> Prop) (f : S -> A -> S * option exn)
    (st : S) (l : list A) :
  P st ->
  (forall st x, x ∈ l -> P st -> P (fst (f st x))) ->
  P (fst (for_each f st l)).
Proof.
  revert st. induction l as [|x l IH]; intros st Hst Hstep; [exact Hst|].
  cbn [for_each].
  pose proof (Hstep st x (list_elem_of_here _ _) Hst) as Hx.
  destruct (f st x) as [st' [e|]]; [exact Hx|].
  apply IH; [exact Hx|].
  intros st0 y Hy. apply Hstep. now apply list_elem_of_further.
Qed.

Lemma add_translation_locations t v t' :
  add_translation t v = Ok t' -> tl_locations t' = tl_locations t.
Proof.
  unfold add_translation.
  destruct (truthy v || store_is_empty (tl_translations t));
    [destruct (tl_translations t)|]; cbn [mbind result_bind mret result_ret];
    try discriminate; intros [= <-]; reflexivity.
Qed.

Lemma add_translation_shape t v :
  match add_translation t v with
  | Ok t' =>
      tl_locations t' = tl_locations t
      /\ forall s0, tl_translations t = TSet s0 ->
           exists s,
             tl_translations t' = TSet s
             /\ forall v', v' ∈ s -> v' ∈ s0 \/ v' = v
  | Raise _ => True
  end.
Proof.
  destruct (add_translation t v) as [t'|e] eqn:Hadd; [|exact I].
  split; [exact (add_translation_locations _ _ _ Hadd)|].
  intros s0 Hs0. rewrite (add_translation_set t s0 v Hs0) in Hadd.
  injection Hadd as <-. cbn [tl_translations]. eexists. split; [reflexivity|].
  intros v' Hv'. destruct (truthy v || bool_decide (s0 = ∅)); [|now left].
  apply elem_of_union in Hv' as [Hv'|Hv']; [|now left].
  right. now apply elem_of_singleton in Hv'.
Qed.

Section DownloadProperties.
Context `{Course} `{I18nStore} `{!UploadEnv} `{!ExportEnv}.

(** What one chunk adds to the collected translations. *)
Lemma collect_item_shape export_what locale_ key resource_key section_name
    section_type description translations it :
  let message := export_message it in
  let by_locale := default ∅ (translations !! message) in
  let t0 := default TranslationsAndLocations_init (by_locale !! locale_) in
  if is_exported export_what it then
    exists t r,
      collect_item export_what locale_ key resource_key section_name
                   section_type description translations it
      = (<[message := <[locale_ := t]> by_locale]> translations, r)
      /\ tl_locations t
         = (tl_locations t0 ++ [export_location section_name section_type key])%list
      /\ (forall s0, tl_translations t0 = TSet s0 ->
            exists s,
              tl_translations t = TSet s
              /\ forall v, v ∈ s -> truthy v = true ->
                   v ∈ s0
                   \/ (i_verb it = VERB_CURRENT
                       /\ v = py_or (i_target_value it) (VStr "")))
  else
    collect_item export_what locale_ key resource_key section_name
                 section_type description translations it
    = (translations, None).
Proof.
  intros message by_locale t0.
  unfold is_exported, collect_item. fold (export_message it). fold message.
  fold by_locale. fold t0.
  destruct (String.eqb message "") eqn:Hblank; cbn [negb andb];
    [reflexivity|].
  set (t1 := add_comment (add_location t0 _) description).
  assert (Ht1 : exists t2,
             match get_resource_title resource_key with
             | Title title =>
                 Ok (if truthy title then add_comment t1 title else t1)
             | NoHandler => Ok t1
             | TitleRaises e => Raise e
             end = Ok t2
             /\ tl_locations t2
                = (tl_locations t0
                     ++ [export_location section_name section_type key])%list
             /\ tl_translations t2 = tl_translations t0
           \/ exists e, get_resource_title resource_key = TitleRaises e).
  { destruct (get_resource_title resource_key) as [title| |e].
    - eexists. left. split; [reflexivity|]. now destruct (truthy title).
    - eexists. left. split; [reflexivity|]. now split.
    - exists t1. right. now exists e. }
  assert (Hkeep : forall s0, tl_translations t0 = TSet s0 ->
            exists s, tl_translations t1 = TSet s
              /\ forall v, v ∈ s -> truthy v = true ->
                   v ∈ s0
                   \/ (i_verb it = VERB_CURRENT
                       /\ v = py_or (i_target_value it) (VStr ""))).
  { intros s0 Hs0. exists s0. split; [exact Hs0|]. intros v Hv _. now left. }
  destruct (String.eqb export_what "all") eqn:Hall;
    case_bool_decide as Hcur; cbn [negb orb andb]; try reflexivity.
  all: destruct Ht1 as [t2 [(-> & Hloc2 & Hstore2)|[e ->]]];
    [|exists t1, (Some e); split; [reflexivity|]; split;
       [reflexivity|exact Hkeep]].
  - (* everything exported, a current chunk *)
    pose proof (add_translation_shape t2 (py_or (i_target_value it) (VStr "")))
      as Hadd.
    destruct (add_translation t2 _) as [t3|e].
    + exists t3, None. split; [reflexivity|].
      destruct Hadd as [Hloc3 Hstore3].
      split; [now rewrite Hloc3|].
      intros s0 Hs0. rewrite <- Hstore2 in Hs0.
      destruct (Hstore3 s0 Hs0) as (s & Hs & Hmem).
      exists s. split; [exact Hs|]. intros v Hv _.
      destruct (Hmem v Hv) as [Hin| ->]; [now left|right; now split].
    + exists t2, (Some e). split; [reflexivity|].
      split; [exact Hloc2|].
      intros s0 Hs0. exists s0. rewrite Hstore2. split; [exact Hs0|].
      intros v Hv _. now left.
  - (* everything exported, a chunk that is not current *)
    pose proof (add_translation_shape t2 (VStr "")) as Hadd.
    destruct (add_translation t2 _) as [t3|e].
    + destruct Hadd as [Hloc3 Hstore3].
      assert (Hstore : forall s0, tl_translations t0 = TSet s0 ->
                exists s, tl_translations t3 = TSet s
                  /\ forall v, v ∈ s -> truthy v = true ->
                       v ∈ s0
                       \/ (i_verb it = VERB_CURRENT
                           /\ v = py_or (i_target_value it) (VStr ""))).
      { intros s0 Hs0. rewrite <- Hstore2 in Hs0.
        destruct (Hstore3 s0 Hs0) as (s & Hs & Hmem).
        exists s. split; [exact Hs|]. intros v Hv Ht.
        destruct (Hmem v Hv) as [Hin| ->]; [now left|discriminate Ht]. }
      destruct (truthy (i_old_source_value it));
        [destruct (truthy (py_or (i_target_value it) (VStr "")))|];
        eexists _, None; (split; [reflexivity|]);
        (split; [cbn [tl_locations set_previous_id add_comment];
                 now rewrite Hloc3|exact Hstore]).
    + exists t2, (Some e). split; [reflexivity|].
      split; [exact Hloc2|].
      intros s0 Hs0. exists s0. rewrite Hstore2. split; [exact Hs0|].
      intros v Hv _. now left.
  - (* the new ones exported, a chunk that is not current *)
    pose proof (add_translation_shape t2 (VStr "")) as Hadd.
    destruct (add_translation t2 _) as [t3|e].
    + destruct Hadd as [Hloc3 Hstore3].
      assert (Hstore : forall s0, tl_translations t0 = TSet s0 ->
                exists s, tl_translations t3 = TSet s
                  /\ forall v, v ∈ s -> truthy v = true ->
                       v ∈ s0
                       \/ (i_verb it = VERB_CURRENT
                           /\ v = py_or (i_target_value it) (VStr ""))).
      { intros s0 Hs0. rewrite <- Hstore2 in Hs0.
        destruct (Hstore3 s0 Hs0) as (s & Hs & Hmem).
        exists s. split; [exact Hs|]. intros v Hv Ht.
        destruct (Hmem v Hv) as [Hin| ->]; [now left|discriminate Ht]. }
      destruct (truthy (i_old_source_value it));
        [destruct (truthy (py_or (i_target_value it) (VStr "")))|];
        eexists _, None; (split; [reflexivity|]);
        (split; [cbn [tl_locations set_previous_id add_comment];
                 now rewrite Hloc3|exact Hstore]).
    + exists t2, (Some e). split; [reflexivity|].
      split; [exact Hloc2|].
      intros s0 Hs0. exists s0. rewrite Hstore2. split; [exact Hs0|].
      intros v Hv _. now left.
Qed.

Lemma lookup_collected (translations : export_translations) m l t msg l' :
  default ∅ (<[m := <[l := t]> (default ∅ (translations !! m))]> translations
               !! msg) !! l'
  = if decide (msg = m /\ l' = l) then Some t
    else default ∅ (translations !! msg) !! l'.
Proof.
  destruct (decide (msg = m)) as [->|Hm].
  - rewrite lookup_insert_eq. cbn [from_option id].
    destruct (decide (l' = l)) as [->|Hl].
    + rewrite lookup_insert_eq. now rewrite decide_True.
    + rewrite lookup_insert_ne by congruence.
      rewrite decide_False by (intros [_ ?]; contradiction). reflexivity.
  - rewrite lookup_insert_ne by congruence.
    rewrite decide_False by (intros [? _]; contradiction). reflexivity.
Qed.

Lemma entry_of_collected (translations : export_translations) m l t msg l' :
  entry_of (<[m := <[l := t]> (default ∅ (translations !! m))]> translations)
           msg l'
  = if decide (msg = m /\ l' = l) then t else entry_of translations msg l'.
Proof.
  unfold entry_of. rewrite lookup_collected. now case_decide.
Qed.

Lemma collect_item_skips export_what locale_ key resource_key section_name
    section_type description translations it :
  let collected :=
    fst (collect_item export_what locale_ key resource_key section_name
                      section_type description translations it) in
  (forall msg, is_Some (collected !! msg) ->
     is_Some (translations !! msg)
     \/ (is_exported export_what it = true /\ export_message it = msg))
  /\ (forall msg l, l <> locale_ ->
        default ∅ (collected !! msg) !! l
        = default ∅ (translations !! msg) !! l).
Proof.
  pose proof (collect_item_shape export_what locale_ key resource_key
                section_name section_type description translations it)
    as Hshape.
  cbv zeta in Hshape |- *.
  destruct (is_exported export_what it).
  - destruct Hshape as (t & r & -> & _). cbn [fst]. split.
    + intros msg Hsome.
      destruct (decide (msg = export_message it)) as [->|Hne];
        [right; now split|].
      left. now rewrite lookup_insert_ne in Hsome by congruence.
    + intros msg l Hl. rewrite lookup_collected.
      rewrite decide_False by (intros [_ ?]; contradiction). reflexivity.
  - rewrite Hshape. cbn [fst]. split; [intros msg Hsome; now left|reflexivity].
Qed.

Lemma collect_item_offers Q export_what locale_ key resource_key section_name
    section_type description translations it :
  offers_only Q translations ->
  (is_exported export_what it = true -> i_verb it = VERB_CURRENT ->
   truthy (i_target_value it) = true ->
   Q (export_message it) locale_ (i_target_value it)) ->
  offers_only Q
    (fst (collect_item export_what locale_ key resource_key section_name
                       section_type description translations it)).
Proof.
  intros Hoffers HQ.
  pose proof (collect_item_shape export_what locale_ key resource_key
                section_name section_type description translations it)
    as Hshape.
  cbv zeta in Hshape.
  destruct (is_exported export_what it); [|now rewrite Hshape].
  destruct Hshape as (t & r & -> & _ & Hstore). cbn [fst].
  intros msg l. rewrite entry_of_collected.
  case_decide as Hcase; [|apply Hoffers].
  destruct Hcase as [-> ->].
  destruct (Hoffers (export_message it) locale_) as (s0 & Hs0 & Hmem0).
  destruct (Hstore s0 Hs0) as (s & Hs & Hmem).
  exists s. split; [exact Hs|]. intros v Hv Ht.
  destruct (Hmem v Hv Ht) as [Hin|[Hcur ->]]; [now apply Hmem0|].
  unfold py_or in Ht |- *.
  destruct (truthy (i_target_value it)) eqn:Htarget; [|discriminate Ht].
  now apply HQ.
Qed.

Lemma elem_of_all_items it s sections :
  s ∈ sections -> it ∈ s_data s -> it ∈ all_items sections.
Proof.
  intros Hs Hit. unfold all_items.
  apply list_elem_of_In, in_concat. exists (s_data s).
  split; [|now apply list_elem_of_In].
  apply in_map. now apply list_elem_of_In.
Qed.

(** X8.  What the export of a resource collects, whatever the way it ends:
    a message is added only for a chunk with a source that is not blank and,
    unless everything is asked for, that is not [CURRENT]; and the entries of
    the other locales are left as they were. *)
Theorem export_skips_blank_and_current_chunks
    (translations : export_translations) (sections : list section)
    (binding_ : binding) (export_what locale_ : string)
    (key : ResourceBundleKey) (resource_key : string * value) :
  let collected :=
    fst (_collect_section_translations translations sections binding_
           export_what locale_ key resource_key) in
  (forall msg, is_Some (collected !! msg) ->
     is_Some (translations !! msg)
     \/ exists it, it ∈ all_items sections
                   /\ is_exported export_what it = true
                   /\ export_message it = msg)
  /\ (forall msg l, l <> locale_ ->
        default ∅ (collected !! msg) !! l
        = default ∅ (translations !! msg) !! l).
Proof.
  cbv zeta. unfold _collect_section_translations.
  apply (for_each_invariant
           (fun collected : export_translations =>
              (forall msg, is_Some (collected !! msg) ->
                 is_Some (translations !! msg)
                 \/ exists it, it ∈ all_items sections
                               /\ is_exported export_what it = true
                               /\ export_message it = msg)
              /\ (forall msg l, l <> locale_ ->
                    default ∅ (collected !! msg) !! l
                    = default ∅ (translations !! msg) !! l))).
  { split; [intros msg Hsome; now left|reflexivity]. }
  intros tr s Hs Htr. unfold collect_section.
  destruct (find_field_description binding_ (s_name s)) as [description|e];
    [|exact Htr].
  apply for_each_invariant; [exact Htr|].
  intros tr' it Hit [Hdom Hother].
  destruct (collect_item_skips export_what locale_ key resource_key (s_name s)
              (s_type s) (py_or description (VStr "")) tr' it)
    as [Hdom' Hother'].
  split.
  - intros msg Hsome. destruct (Hdom' msg Hsome) as [Hold|[Hexp Hmsg]];
      [now apply Hdom|].
    right. exists it. split; [now apply (elem_of_all_items it s)|now split].
  - intros msg l Hl. rewrite Hother' by exact Hl. now apply Hother.
Qed.

(** X9.  The export offers as a translation only the target of a [CURRENT]
    chunk: collected from nothing, the translations of a message are a set
    whose members that are not blank are each the target of a [CURRENT]
    chunk with that source, for the locale of the export.  The translation of
    a chunk whose source has changed is never offered. *)
Theorem export_offers_only_current_translations (sections : list section)
    (binding_ : binding) (export_what locale_ : string)
    (key : ResourceBundleKey) (resource_key : string * value)
    (message l : string) :
  exists s,
    tl_translations
      (entry_of (fst (_collect_section_translations ∅ sections binding_
                        export_what locale_ key resource_key)) message l)
    = TSet s
    /\ forall v, v ∈ s -> truthy v = true ->
         l = locale_
         /\ exists it, it ∈ all_items sections
                       /\ i_verb it = VERB_CURRENT
                       /\ export_message it = message
                       /\ i_target_value it = v.
Proof.
  revert message l.
  change (offers_only
            (fun message l v =>
               l = locale_
               /\ exists it, it ∈ all_items sections
                             /\ i_verb it = VERB_CURRENT
                             /\ export_message it = message
                             /\ i_target_value it = v)
            (fst (_collect_section_translations ∅ sections binding_
                    export_what locale_ key resource_key))).
  unfold _collect_section_translations.
  apply for_each_invariant.
  { intros msg l'. exists ∅. unfold entry_of. rewrite lookup_empty.
    cbn [from_option id]. rewrite lookup_empty. split; [reflexivity|].
    intros v Hv. now apply not_elem_of_empty in Hv. }
  intros tr s Hs Htr. unfold collect_section.
  destruct (find_field_description binding_ (s_name s)) as [description|e];
    [|exact Htr].
  apply for_each_invariant; [exact Htr|].
  intros tr' it Hit Htr'.
  apply collect_item_offers; [exact Htr'|].
  intros Hexp Hcur _. split; [reflexivity|].
  exists it. split; [now apply (elem_of_all_items it s)|].
  split; [exact Hcur|]. now split.
Qed.

Lemma collect_items_locations export_what locale_ key resource_key
    section_name section_type description items :
  forall translations collected,
  for_each (collect_item export_what locale_ key resource_key section_name
                         section_type description) translations items
  = (collected, None) ->
  forall message,
    tl_locations (entry_of collected message locale_)
    = (tl_locations (entry_of translations message locale_)
       ++ map (fun _ => export_location section_name section_type key)
              (List.filter
                 (fun it => is_exported export_what it
                            && String.eqb (export_message it) message)
                 items))%list.
Proof.
  induction items as [|it items IH]; intros translations collected Hrun message.
  - injection Hrun as <-. cbn. now rewrite app_nil_r.
  - cbn [for_each List.filter] in Hrun |- *.
    pose proof (collect_item_shape export_what locale_ key resource_key
                  section_name section_type description translations it)
      as Hshape.
    cbv zeta in Hshape.
    destruct (is_exported export_what it); cbn [andb].
    + destruct Hshape as (t & r & Hitem & Hloc & _). rewrite Hitem in Hrun.
      destruct r as [e|]; [discriminate Hrun|].
      rewrite (IH _ _ Hrun message), entry_of_collected.
      destruct (String.eqb_spec (export_message it) message) as [<-|Hne].
      * rewrite decide_True by (now split). rewrite Hloc.
        unfold entry_of. cbn [map]. now rewrite <- app_assoc.
      * rewrite decide_False by (intros [? _]; congruence). reflexivity.
    + rewrite Hshape in Hrun. exact (IH _ _ Hrun message).
Qed.

(** X10.  When the export of a resource raises nothing, every exported
    chunk has its location on record: the locations of a message, for the
    locale of the export, are those it had followed by one location
    ['GCB-1|name|type|key'] for each exported chunk with that source, in the
    order of the sections and of their chunks. *)
Theorem export_location_for_every_chunk
    (translations collected : export_translations) (sections : list section)
    (binding_ : binding) (export_what locale_ : string)
    (key : ResourceBundleKey) (resource_key : string * value)
    (message : string) :
  _collect_section_translations translations sections binding_ export_what
    locale_ key resource_key = (collected, None) ->
  tl_locations (entry_of collected message locale_)
  = (tl_locations (entry_of translations message locale_)
     ++ exported_locations export_what key message sections)%list.
Proof.
  unfold _collect_section_translations, exported_locations.
  revert translations.
  induction sections as [|s sections IH]; intros translations Hrun.
  - injection Hrun as <-. cbn. now rewrite app_nil_r.
  - cbn [for_each map concat] in Hrun |- *.
    unfold collect_section at 1 in Hrun.
    destruct (find_field_description binding_ (s_name s)) as [description|e];
      [|discriminate Hrun].
    destruct (for_each _ translations (s_data s)) as [tr [e|]] eqn:Hitems;
      [discriminate Hrun|].
    rewrite (IH _ Hrun), (collect_items_locations _ _ _ _ _ _ _ _ _ _ Hitems).
    now rewrite <- app_assoc.
Qed.

End DownloadProperties.

(** The title and the body of the lesson, not yet translated, exported to
    French, through [export_location_for_every_chunk]: the title has its
    location on record. *)
Lemma export_location_of_new_title :
  tl_locations
    (entry_of
       (fst (@_collect_section_translations _ _ po_upload described_export ∅
               [mkSection "title" VNone TYPE_STRING (VStr "Intro")
                  [mkItem (VStr "Intro") VNone VNone VERB_NEW false]]
               [] "new" "fr" lesson_fr ("lesson", VInt 1)))
       "Intro" "fr")
  = ["GCB-1|title|string|lesson:1:fr"].
Proof.
  exact (@export_location_for_every_chunk _ _ po_upload described_export ∅ _
           [mkSection "title" VNone TYPE_STRING (VStr "Intro")
              [mkItem (VStr "Intro") VNone VNone VERB_NEW false]]
           [] "new" "fr" lesson_fr ("lesson", VInt 1) "Intro" eq_refl).
Defined.

(** *** The datastore after an export *)

Lemma fromstring_of_plain_key resource_key l :
  plain_resource_key resource_key = true ->
  exists k,
    fromstring (ResourceBundleKey_str
                  (mkResourceBundleKey (fst resource_key) (snd resource_key) l))
    = Ok k
    /\ locale k = l.
Proof.
  unfold plain_resource_key. intros Hplain.
  apply andb_true_iff in Hplain as [Ht Hk]. apply negb_true_iff in Ht, Hk.
  unfold fromstring, ResourceBundleKey_str. cbn [_type _key _locale].
  change (fst resource_key +:+ ":" +:+ unicode (snd resource_key) +:+ ":" +:+ l)
    with (fst resource_key
            +:+ String ":" (unicode (snd resource_key) +:+ String ":" l)).
  rewrite (split_first _ _ _ _ Ht), (split_first _ _ _ _ Hk), split_zero.
  eexists. split; reflexivity.
Qed.

Lemma save_all_bundles_lookup dtos stored bundles the_id :
  save_all_bundles dtos stored = Ok bundles ->
  bundles !! the_id
  = match dtos !! the_id with
    | Some d =>
        match fromstring the_id with
        | Ok k => Some (locale k, d)
        | Raise _ => None
        end
    | None => stored !! the_id
    end.
Proof.
  unfold save_all_bundles.
  destruct (mapM_result _ (map_to_list dtos)) as [entities|e] eqn:Hent;
    cbn [mbind result_bind mret result_ret]; [|discriminate].
  intros [= <-].
  apply mapM_result_Forall2 in Hent.
  assert (Hfst : entities.*1 = (map_to_list dtos).*1).
  { induction Hent as [|[i d] y l l' Hy _ IH]; [reflexivity|].
    destruct (fromstring i) as [k|e]; [|discriminate Hy].
    injection Hy as <-. cbn. now rewrite IH. }
  assert (Hin : forall i d, (i, d) ∈ map_to_list dtos ->
            exists k, fromstring i = Ok k /\ (i, (locale k, d)) ∈ entities).
  { intros i d. induction Hent as [|[j d'] y l l' Hy _ IH];
      [intros Hi; inversion Hi|].
    intros Hi. destruct (fromstring j) as [k|e] eqn:Hk; [|discriminate Hy].
    injection Hy as <-.
    apply elem_of_cons in Hi as [[= -> ->]|Hi].
    - exists k. split; [exact Hk|apply list_elem_of_here].
    - cbn in Hfst. injection Hfst as Hfst.
      destruct (IH Hfst Hi) as (k' & Hk' & Hin').
      exists k'. split; [exact Hk'|now apply list_elem_of_further]. }
  destruct (dtos !! the_id) as [d|] eqn:Hd.
  - apply elem_of_map_to_list in Hd.
    destruct (Hin _ _ Hd) as (k & -> & Hk).
    apply lookup_union_Some_l, elem_of_list_to_map_1; [|exact Hk].
    rewrite Hfst. apply NoDup_fst_map_to_list.
  - rewrite lookup_union_r; [reflexivity|].
    apply not_elem_of_list_to_map_1. rewrite Hfst.
    intros Hin'. apply list_elem_of_fmap in Hin' as ([i d] & -> & Hi).
    apply elem_of_map_to_list in Hi. cbn in Hd. congruence.
Qed.

Lemma get_all_for_locale_lookup ds l the_id :
  get_all_for_locale ds l !! the_id
  = match ds_bundles ds !! the_id with
    | Some (l0, d) => if decide (l0 = l) then Some d else None
    | None => None
    end.
Proof.
  unfold get_all_for_locale. rewrite lookup_fmap, map_lookup_filter.
  destruct (ds_bundles ds !! the_id) as [[l0 d]|]; [|reflexivity].
  cbn. destruct (decide (l0 = l)) as [Hl|Hl];
    [rewrite option_guard_True by exact Hl
    |rewrite option_guard_False by exact Hl]; reflexivity.
Qed.

(** What an export or an upload leaves of a stored bundle: the bundle as it
    was, and for an id without a bundle nothing or a blank bundle. *)
Lemma kept_bundles_trans (a b c : gmap string (string * bundle)) the_id :
  match a !! the_id with
  | Some stored => b !! the_id = Some stored
  | None => b !! the_id = None \/ exists l, b !! the_id = Some (l, ∅)
  end ->
  match b !! the_id with
  | Some stored => c !! the_id = Some stored
  | None => c !! the_id = None \/ exists l, c !! the_id = Some (l, ∅)
  end ->
  match a !! the_id with
  | Some stored => c !! the_id = Some stored
  | None => c !! the_id = None \/ exists l, c !! the_id = Some (l, ∅)
  end.
Proof.
  destruct (a !! the_id) as [stored|].
  - intros ->. auto.
  - intros [->|[l ->]]; [auto|]. intros ->. right. now exists l.
Qed.

Section ExportDatastore.
Context `{Course} `{I18nStore} `{!UploadEnv} `{!ExportEnv}.

Lemma export_resource_bundles c export_what l st resource_key :
  let key_str :=
    ResourceBundleKey_str
      (mkResourceBundleKey (fst resource_key) (snd resource_key) l) in
  es_bundle_by_key (fst (export_resource c export_what l st resource_key))
  = <[key_str := default ∅ (es_bundle_by_key st !! key_str)]>
      (es_bundle_by_key st).
Proof.
  cbv zeta. unfold export_resource.
  destruct (build_sections_for_key _ c _) as [[b sections]|e] eqn:Hb;
    [|reflexivity].
  unfold update_dtos_with_section_data.
  rewrite (foldl_merge_section_no_edit _ _ (build_sections_edited _ _ _ _ _ Hb)).
  destruct (_collect_section_translations _ _ _ _ _ _ _) as [tr r].
  cbn [fst es_bundle_by_key]. now rewrite insert_insert_eq.
Qed.

Lemma export_locale_bundles c export_what ds progress_by_key translations l :
  filed ds ->
  (forall resource_key, resource_key ∈ get_resources_and_keys c ->
     plain_resource_key resource_key = true) ->
  let after :=
    fst (fst (fst (export_locale c export_what
                     (ds, progress_by_key, translations) l))) in
  filed after
  /\ ds_progress after = ds_progress ds
  /\ forall the_id,
       match ds_bundles ds !! the_id with
       | Some stored => ds_bundles after !! the_id = Some stored
       | None =>
           ds_bundles after !! the_id = None
           \/ exists l', ds_bundles after !! the_id = Some (l', ∅)
       end.
Proof.
  intros Hfiled Hplain.
  assert (Hsame : filed ds /\ ds_progress ds = ds_progress ds
            /\ forall the_id,
                 match ds_bundles ds !! the_id with
                 | Some stored => ds_bundles ds !! the_id = Some stored
                 | None =>
                     ds_bundles ds !! the_id = None
                     \/ exists l', ds_bundles ds !! the_id = Some (l', ∅)
                 end).
  { split; [exact Hfiled|]. split; [reflexivity|]. intros the_id.
    destruct (ds_bundles ds !! the_id); auto. }
  cbv zeta. unfold export_locale.
  pose proof (for_each_invariant
    (fun es : export_state =>
       forall the_id,
         es_bundle_by_key es !! the_id = get_all_for_locale ds l !! the_id
         \/ (get_all_for_locale ds l !! the_id = None
             /\ es_bundle_by_key es !! the_id = Some ∅
             /\ exists resource_key,
                  resource_key ∈ get_resources_and_keys c
                  /\ the_id
                     = ResourceBundleKey_str
                         (mkResourceBundleKey (fst resource_key)
                                              (snd resource_key) l)))
    (export_resource c export_what l)
    (mkExportState translations (get_all_for_locale ds l) progress_by_key)
    (get_resources_and_keys c)) as Hinv.
  destruct (for_each _ _ (get_resources_and_keys c)) as [es [e|]];
    [exact Hsame|].
  destruct (save_all_bundles (es_bundle_by_key es) (ds_bundles ds))
    as [bundles|e] eqn:Hsave; [|exact Hsame].
  cbn [fst ds_bundles ds_progress].
  cbn [fst] in Hinv.
  assert (Hes : forall the_id,
            es_bundle_by_key es !! the_id = get_all_for_locale ds l !! the_id
            \/ (get_all_for_locale ds l !! the_id = None
                /\ es_bundle_by_key es !! the_id = Some ∅
                /\ exists resource_key,
                     resource_key ∈ get_resources_and_keys c
                     /\ the_id
                        = ResourceBundleKey_str
                            (mkResourceBundleKey (fst resource_key)
                                                 (snd resource_key) l))).
  { apply Hinv; [intros the_id; now left|].
    intros st resource_key Hin Hst the_id.
    rewrite export_resource_bundles.
    destruct (decide (the_id = ResourceBundleKey_str
                         (mkResourceBundleKey (fst resource_key)
                                              (snd resource_key) l)))
      as [->|Hne]; [|rewrite lookup_insert_ne by congruence; apply Hst].
    rewrite lookup_insert_eq.
    destruct (Hst (ResourceBundleKey_str
                     (mkResourceBundleKey (fst resource_key)
                                          (snd resource_key) l)))
      as [Heq|(Hnone & Hblank & _)].
    - destruct (es_bundle_by_key st !! _) as [d|]; cbn [from_option id];
        [now left|].
      right. split; [now symmetry|]. split; [reflexivity|].
      now exists resource_key.
    - rewrite Hblank. cbn [from_option id]. right.
      split; [exact Hnone|]. split; [reflexivity|]. now exists resource_key. }
  clear Hinv.
  split; [|split; [reflexivity|]].
  - intros the_id l0 d Hl. cbn [ds_bundles] in Hl.
    rewrite (save_all_bundles_lookup _ _ _ the_id Hsave) in Hl.
    destruct (es_bundle_by_key es !! the_id) as [d'|];
      [|exact (Hfiled _ _ _ Hl)].
    destruct (fromstring the_id) as [k|e]; [|discriminate Hl].
    injection Hl as <- <-. now exists k.
  - intros the_id.
    rewrite (save_all_bundles_lookup _ _ _ the_id Hsave).
    specialize (Hes the_id). rewrite get_all_for_locale_lookup in Hes.
    destruct (ds_bundles ds !! the_id) as [[l0 d0]|] eqn:Hstored.
    + destruct (Hfiled _ _ _ Hstored) as (k0 & Hk0 & Hl0).
      destruct Hes as [Heq|(Hnone & _ & resource_key & Hin & ->)].
      * rewrite Heq. case_decide; [|reflexivity].
        rewrite Hk0, Hl0. reflexivity.
      * destruct (fromstring_of_plain_key resource_key l (Hplain _ Hin))
          as (k & Hk & Hl).
        rewrite Hk in Hk0. injection Hk0 as <-.
        rewrite decide_True in Hnone by congruence. discriminate Hnone.
    + destruct Hes as [->|(_ & -> & _)]; [now left|].
      destruct (fromstring the_id) as [k|e]; [right; now eexists|now left].
Qed.

(** X11.  An export leaves every stored bundle as it was.  On a datastore
    as the DAO writes it, and for resources whose type and key print without
    [:], [build_translations] changes no bundle that was there, whatever the
    way it ends; for an id without a bundle it stores nothing or a blank
    bundle; and the datastore is again as the DAO writes it. *)
Theorem export_keeps_stored_translations (c : course) (locales : list string)
    (export_what : string) (ds : datastore) :
  filed ds ->
  (forall resource_key, resource_key ∈ get_resources_and_keys c ->
     plain_resource_key resource_key = true) ->
  let after := fst (build_translations c locales export_what ds) in
  filed after
  /\ forall the_id,
       match ds_bundles ds !! the_id with
       | Some stored => ds_bundles after !! the_id = Some stored
       | None =>
           ds_bundles after !! the_id = None
           \/ exists l, ds_bundles after !! the_id = Some (l, ∅)
       end.
Proof.
  intros Hfiled Hplain. cbv zeta. unfold build_translations.
  pose proof (for_each_invariant
    (fun st : datastore * gmap string I18nProgressDTO * export_translations =>
       filed (fst (fst st))
       /\ forall the_id,
            match ds_bundles ds !! the_id with
            | Some stored => ds_bundles (fst (fst st)) !! the_id = Some stored
            | None =>
                ds_bundles (fst (fst st)) !! the_id = None
                \/ exists l, ds_bundles (fst (fst st)) !! the_id = Some (l, ∅)
            end)
    (export_locale c export_what) (ds, ds_progress ds, ∅) locales) as Hinv.
  assert (Hend : filed (fst (fst (fst (for_each (export_locale c export_what)
                                         (ds, ds_progress ds, ∅) locales))))
            /\ forall the_id,
                 match ds_bundles ds !! the_id with
                 | Some stored =>
                     ds_bundles
                       (fst (fst (fst (for_each (export_locale c export_what)
                                         (ds, ds_progress ds, ∅) locales))))
                       !! the_id = Some stored
                 | None =>
                     ds_bundles
                       (fst (fst (fst (for_each (export_locale c export_what)
                                         (ds, ds_progress ds, ∅) locales))))
                       !! the_id = None
                     \/ exists l,
                          ds_bundles
                            (fst (fst (fst (for_each
                                              (export_locale c export_what)
                                              (ds, ds_progress ds, ∅)
                                              locales))))
                            !! the_id = Some (l, ∅)
                 end).
  { apply Hinv.
    - cbn [fst]. split; [exact Hfiled|]. intros the_id.
      destruct (ds_bundles ds !! the_id); auto.
    - intros [[ds1 progress_by_key] translations] l _ [Hfiled1 Hkept1].
      cbn [fst] in Hfiled1, Hkept1.
      destruct (export_locale_bundles c export_what ds1 progress_by_key
                  translations l Hfiled1 Hplain) as (Hfiled2 & _ & Hkept2).
      split; [exact Hfiled2|]. intros the_id.
      exact (kept_bundles_trans _ _ _ the_id (Hkept1 the_id) (Hkept2 the_id)). }
  clear Hinv.
  destruct (for_each _ _ locales) as [[[ds1 progress_by_key] translations] [e|]];
    cbn [fst] in Hend |- *; [exact Hend|].
  destruct Hend as [Hfiled1 Hkept1]. split; [exact Hfiled1|exact Hkept1].
Qed.

End ExportDatastore.

Lemma french_title_stored_filed : filed french_title_stored.
Proof.
  intros the_id l d Hl. unfold french_title_stored in Hl. cbn [ds_bundles] in Hl.
  apply lookup_singleton_Some in Hl as [<- [= <- <-]].
  eexists. split; reflexivity.
Defined.

Lemma lesson_key_plain (c : @course _ one_resource_course) resource_key :
  resource_key ∈ @get_resources_and_keys _ _ po_upload c ->
  plain_resource_key resource_key = true.
Proof.
  cbn [get_resources_and_keys po_upload]. intros Hin.
  apply list_elem_of_singleton in Hin as ->. reflexivity.
Defined.

(** The French title of the lesson is still stored after an export of
    everything to French, through [export_keeps_stored_translations]. *)
Lemma export_keeps_french_title :
  ds_bundles
    (fst (@build_translations _ _ known_intro po_upload described_export
            lesson ["fr"] "all" french_title_stored))
    !! "lesson:1:fr"
  = Some ("fr", title_in_french).
Proof.
  destruct (@export_keeps_stored_translations _ _ known_intro po_upload
              described_export lesson ["fr"] "all" french_title_stored
              french_title_stored_filed (lesson_key_plain lesson))
    as [_ Hkept].
  exact (Hkept "lesson:1:fr").
Defined.

(** *** The datastore after an upload *)

Lemma get_progress_set_other p l1 v l :
  l <> l1 -> get_progress (set_progress p l1 v) l = get_progress p l.
Proof.
  intros Hl. unfold get_progress, set_progress. cbn [p_progress from_option id].
  now rewrite lookup_insert_ne by congruence.
Qed.

Section UploadDatastore.
Context `{Course} `{I18nStore} `{!UploadEnv}.

Lemma update_resource_bundles c l rt st resource_key the_id :
  the_id <> ResourceBundleKey_str
              (mkResourceBundleKey (fst resource_key) (snd resource_key) l) ->
  ls_bundle_by_key (fst (update_resource c l rt st resource_key)) !! the_id
  = ls_bundle_by_key st !! the_id.
Proof.
  intros Hne. unfold update_resource.
  destruct (match rt !! _ with Some _ => _ | None => _ end) as [tr used].
  destruct (build_sections_for_key _ c _) as [[b sections]|e].
  - destruct (upload_sections _ _ _) as [us sections'].
    destruct (update_dtos_with_section_data _ _ _ _) as [d p].
    cbn [fst ls_bundle_by_key].
    now rewrite !lookup_insert_ne by congruence.
  - cbn [fst ls_bundle_by_key]. now rewrite lookup_insert_ne by congruence.
Qed.

Lemma update_resource_progress c l rt st resource_key the_id :
  progress_record
    (ls_progress_by_key (fst (update_resource c l rt st resource_key))) the_id
  = progress_record (ls_progress_by_key st) the_id
  \/ exists v,
       progress_record
         (ls_progress_by_key (fst (update_resource c l rt st resource_key)))
         the_id
       = set_progress (progress_record (ls_progress_by_key st) the_id) l v.
Proof.
  unfold update_resource.
  destruct (match rt !! _ with Some _ => _ | None => _ end) as [tr used].
  set (pid := resource_key_str (fst resource_key) (snd resource_key)).
  destruct (build_sections_for_key _ c _) as [[b sections]|e].
  - destruct (upload_sections _ _ _) as [us sections'].
    unfold update_dtos_with_section_data.
    cbn [fst ls_progress_by_key]. unfold progress_record.
    destruct (decide (the_id = pid)) as [->|Hne].
    + right. rewrite lookup_insert_eq. cbn [from_option id]. eexists.
      reflexivity.
    + left. now rewrite !lookup_insert_ne by congruence.
  - left. cbn [fst ls_progress_by_key]. unfold progress_record.
    destruct (decide (the_id = pid)) as [->|Hne].
    + rewrite lookup_insert_eq. reflexivity.
    + now rewrite lookup_insert_ne by congruence.
Qed.

Lemma update_locale_effect c ds progress_by_key messages l1 rt :
  filed ds ->
  (forall resource_key, resource_key ∈ get_resources_and_keys c ->
     plain_resource_key resource_key = true) ->
  let st' := fst (update_locale c (ds, progress_by_key, messages) (l1, rt)) in
  filed (fst (fst st'))
  /\ ds_progress (fst (fst st')) = ds_progress ds
  /\ (forall the_id,
        ds_bundles (fst (fst st')) !! the_id = ds_bundles ds !! the_id
        \/ ((exists d, ds_bundles (fst (fst st')) !! the_id = Some (l1, d))
            /\ (ds_bundles ds !! the_id = None
                \/ exists d0, ds_bundles ds !! the_id = Some (l1, d0))))
  /\ (forall the_id,
        is_translatable (progress_record (snd (fst st')) the_id)
        = is_translatable (progress_record progress_by_key the_id)
        /\ forall l, l <> l1 ->
             get_progress (progress_record (snd (fst st')) the_id) l
             = get_progress (progress_record progress_by_key the_id) l).
Proof.
  intros Hfiled Hplain. cbv zeta. unfold update_locale.
  fold (get_all_for_locale ds l1).
  pose proof (for_each_invariant
    (fun ls : locale_state =>
       (forall the_id,
          is_Some (ls_bundle_by_key ls !! the_id) ->
          is_Some (get_all_for_locale ds l1 !! the_id)
          \/ exists resource_key,
               resource_key ∈ get_resources_and_keys c
               /\ the_id
                  = ResourceBundleKey_str
                      (mkResourceBundleKey (fst resource_key)
                                           (snd resource_key) l1))
       /\ (forall the_id,
             is_translatable (progress_record (ls_progress_by_key ls) the_id)
             = is_translatable (progress_record progress_by_key the_id)
             /\ forall l, l <> l1 ->
                  get_progress (progress_record (ls_progress_by_key ls) the_id) l
                  = get_progress (progress_record progress_by_key the_id) l))
    (update_resource c l1 rt)
    (mkLocaleState messages ∅ 0 0 0 (get_all_for_locale ds l1) progress_by_key)
    (get_resources_and_keys c)) as Hinv.
  assert (Hls : let ls :=
                  fst (for_each (update_resource c l1 rt)
                         (mkLocaleState messages ∅ 0 0 0
                            (get_all_for_locale ds l1) progress_by_key)
                         (get_resources_and_keys c)) in
            (forall the_id,
               is_Some (ls_bundle_by_key ls !! the_id) ->
               is_Some (get_all_for_locale ds l1 !! the_id)
               \/ exists resource_key,
                    resource_key ∈ get_resources_and_keys c
                    /\ the_id
                       = ResourceBundleKey_str
                           (mkResourceBundleKey (fst resource_key)
                                                (snd resource_key) l1))
            /\ (forall the_id,
                  is_translatable
                    (progress_record (ls_progress_by_key ls) the_id)
                  = is_translatable (progress_record progress_by_key the_id)
                  /\ forall l, l <> l1 ->
                       get_progress
                         (progress_record (ls_progress_by_key ls) the_id) l
                       = get_progress
                           (progress_record progress_by_key the_id) l)).
  { apply Hinv.
    - cbn [ls_bundle_by_key ls_progress_by_key].
      split; [intros the_id Hsome; now left|]. intros the_id. now split.
    - intros st resource_key Hin [Hby Hprogress]. split.
      + intros the_id Hsome.
        destruct (decide (the_id = ResourceBundleKey_str
                             (mkResourceBundleKey (fst resource_key)
                                                  (snd resource_key) l1)))
          as [->|Hne]; [right; now exists resource_key|].
        rewrite update_resource_bundles in Hsome by exact Hne.
        now apply Hby.
      + intros the_id. destruct (Hprogress the_id) as [Hi18n Hother].
        destruct (update_resource_progress c l1 rt st resource_key the_id)
          as [->|[v ->]]; [now split|].
        split; [exact Hi18n|]. intros l Hl.
        rewrite get_progress_set_other by exact Hl. now apply Hother. }
  clear Hinv. cbv zeta in Hls.
  assert (Hsame : forall the_id,
            ds_bundles ds !! the_id = ds_bundles ds !! the_id
            \/ ((exists d, ds_bundles ds !! the_id = Some (l1, d))
                /\ (ds_bundles ds !! the_id = None
                    \/ exists d0, ds_bundles ds !! the_id = Some (l1, d0))))
    by (intros the_id; now left).
  destruct (for_each _ _ (get_resources_and_keys c)) as [ls [e|]];
    cbn [fst] in Hls; destruct Hls as [Hby Hprogress];
    [cbn [fst snd];
     exact (conj Hfiled (conj eq_refl (conj Hsame Hprogress)))|].
  destruct (save_all_bundles (ls_bundle_by_key ls) (ds_bundles ds))
    as [bundles|e] eqn:Hsave; cbn [fst snd];
    [|exact (conj Hfiled (conj eq_refl (conj Hsame Hprogress)))].
  cbn [ds_progress ds_bundles].
  split; [|split; [reflexivity|split; [|exact Hprogress]]].
  - intros the_id l0 d Hl. cbn [ds_bundles] in Hl.
    rewrite (save_all_bundles_lookup _ _ _ the_id Hsave) in Hl.
    destruct (ls_bundle_by_key ls !! the_id) as [d'|];
      [|exact (Hfiled _ _ _ Hl)].
    destruct (fromstring the_id) as [k|e]; [|discriminate Hl].
    injection Hl as <- <-. now exists k.
  - intros the_id.
    rewrite (save_all_bundles_lookup _ _ _ the_id Hsave).
    specialize (Hby the_id).
    destruct (ls_bundle_by_key ls !! the_id) as [d|]; [|now left].
    right.
    destruct (Hby (mk_is_Some _ _ eq_refl))
      as [Hloaded|(resource_key & Hin & ->)].
    + rewrite get_all_for_locale_lookup in Hloaded.
      destruct (ds_bundles ds !! the_id) as [[l0 d0]|] eqn:Hstored;
        [|now destruct Hloaded].
      case_decide as Hl0; [subst l0|now destruct Hloaded].
      destruct (Hfiled _ _ _ Hstored) as (k0 & -> & ->).
      split; [now eexists|right; now eexists].
    + destruct (fromstring_of_plain_key resource_key l1 (Hplain _ Hin))
        as (k & Hk & Hl).
      rewrite Hk, Hl. split; [now eexists|].
      destruct (ds_bundles ds !! _) as [[l0 d0]|] eqn:Hstored; [|now left].
      destruct (Hfiled _ _ _ Hstored) as (k0 & Hk0 & Hl0).
      rewrite Hk in Hk0. injection Hk0 as <-. rewrite Hl in Hl0. subst l0.
      right. now eexists.
Qed.

(** X12.  An upload leaves the other locales alone.  On a datastore as the
    DAO writes it, and for resources whose type and key print without [:],
    [update_translations] leaves the bundles of every locale that the
    translations do not name as they were, and in every progress record the
    progress of such a locale and the mark of what is translatable, whatever
    the way it ends. *)
Theorem upload_keeps_other_locales (c : course)
    (translations : upload_translations) (messages : list string)
    (ds : datastore) :
  filed ds ->
  (forall resource_key, resource_key ∈ get_resources_and_keys c ->
     plain_resource_key resource_key = true) ->
  let after := fst (fst (update_translations c translations messages ds)) in
  filed after
  /\ (forall l, translations !! l = None ->
        get_all_for_locale after l = get_all_for_locale ds l)
  /\ (forall the_id,
        is_translatable (progress_record (ds_progress after) the_id)
        = is_translatable (progress_record (ds_progress ds) the_id)
        /\ forall l, translations !! l = None ->
             get_progress (progress_record (ds_progress after) the_id) l
             = get_progress (progress_record (ds_progress ds) the_id) l).
Proof.
  intros Hfiled Hplain. cbv zeta. unfold update_translations.
  pose proof (for_each_invariant
    (fun st : datastore * gmap string I18nProgressDTO * list string =>
       filed (fst (fst st))
       /\ ds_progress (fst (fst st)) = ds_progress ds
       /\ (forall l, translations !! l = None ->
             get_all_for_locale (fst (fst st)) l = get_all_for_locale ds l)
       /\ (forall the_id,
             is_translatable (progress_record (snd (fst st)) the_id)
             = is_translatable (progress_record (ds_progress ds) the_id)
             /\ forall l, translations !! l = None ->
                  get_progress (progress_record (snd (fst st)) the_id) l
                  = get_progress (progress_record (ds_progress ds) the_id) l))
    (update_locale c) (ds, ds_progress ds, messages)
    (map_to_list translations)) as Hinv.
  assert (Hend : let st :=
                   fst (for_each (update_locale c)
                          (ds, ds_progress ds, messages)
                          (map_to_list translations)) in
            filed (fst (fst st))
            /\ ds_progress (fst (fst st)) = ds_progress ds
            /\ (forall l, translations !! l = None ->
                  get_all_for_locale (fst (fst st)) l = get_all_for_locale ds l)
            /\ (forall the_id,
                  is_translatable (progress_record (snd (fst st)) the_id)
                  = is_translatable (progress_record (ds_progress ds) the_id)
                  /\ forall l, translations !! l = None ->
                       get_progress (progress_record (snd (fst st)) the_id) l
                       = get_progress
                           (progress_record (ds_progress ds) the_id) l)).
  { apply Hinv.
    - cbn [fst snd]. split; [exact Hfiled|]. split; [reflexivity|].
      split; [reflexivity|]. intros the_id. now split.
    - intros [[ds1 progress_by_key] messages1] [l1 rt] Hin
        (Hfiled1 & Hprogress1 & Hbundles1 & Hrecords1).
      cbn [fst snd] in Hfiled1, Hprogress1, Hbundles1, Hrecords1.
      apply elem_of_map_to_list in Hin.
      destruct (update_locale_effect c ds1 progress_by_key messages1 l1 rt
                  Hfiled1 Hplain)
        as (Hfiled2 & Hprogress2 & Hbundles2 & Hrecords2).
      split; [exact Hfiled2|]. split; [congruence|]. split.
      + intros l Hl. rewrite <- (Hbundles1 l Hl).
        assert (Hne : l1 <> l) by congruence.
        apply map_eq. intros the_id. rewrite !get_all_for_locale_lookup.
        destruct (Hbundles2 the_id) as [->|[[d ->] [->|[d0 ->]]]];
          [reflexivity| |]; now rewrite !decide_False by exact Hne.
      + intros the_id.
        destruct (Hrecords1 the_id) as [Hi18n1 Hother1].
        destruct (Hrecords2 the_id) as [Hi18n2 Hother2].
        split; [congruence|]. intros l Hl.
        rewrite Hother2 by congruence. now apply Hother1. }
  clear Hinv. cbv zeta in Hend.
  destruct (for_each _ _ (map_to_list translations))
    as [[[ds1 progress_by_key] messages1] [e|]];
    cbn [fst snd] in Hend |- *;
    destruct Hend as (Hfiled1 & Hprogress1 & Hbundles1 & Hrecords1).
  - split; [exact Hfiled1|]. split; [exact Hbundles1|].
    rewrite Hprogress1. intros the_id. now split.
  - split; [exact Hfiled1|]. split; [exact Hbundles1|].
    cbn [ds_progress]. rewrite Hprogress1. intros the_id.
    assert (Hrecord :
              progress_record (progress_by_key ∪ ds_progress ds) the_id
              = progress_record progress_by_key the_id
              \/ progress_record (progress_by_key ∪ ds_progress ds) the_id
                 = progress_record (ds_progress ds) the_id).
    { unfold progress_record. rewrite lookup_union.
      destruct (progress_by_key !! the_id) as [p|];
        destruct (ds_progress ds !! the_id) as [p0|]; cbn; auto. }
    destruct Hrecord as [->| ->]; [apply Hrecords1|now split].
Qed.

End UploadDatastore.

(** The upload of the German title leaves the French bundles as they were,
    through [upload_keeps_other_locales]. *)
Lemma upload_of_german_keeps_french :
  get_all_for_locale
    (fst (fst (@update_translations _ _ known_intro po_upload lesson
                 german_title [] french_title_stored))) "fr"
  = get_all_for_locale french_title_stored "fr".
Proof.
  destruct (@upload_keeps_other_locales _ _ known_intro po_upload lesson
              german_title [] french_title_stored
              french_title_stored_filed (lesson_key_plain lesson))
    as (_ & Hbundles & _).
  exact (Hbundles "fr" eq_refl).
Defined.

(** ** Deletion of translations *)

Lemma list_remove_app {A} `{EqDecision A} (x : A) (l1 l2 : list A) :
  x ∉ l1 -> list_remove x (l1 ++ x :: l2)%list = Ok (l1 ++ l2)%list.
Proof.
  induction l1 as [|y l1 IH]; intros Hx; cbn [app list_remove].
  - now rewrite decide_True.
  - rewrite decide_False
      by (intros ->; apply Hx; apply list_elem_of_here).
    rewrite IH by (intros Hin; apply Hx; now apply list_elem_of_further).
    reflexivity.
Qed.

Lemma remove_locales_from (locales : list string)
    (pre post : list configured_locale) :
  foldM_result
    (fun remaining configured_locale =>
       if bool_decide (cl_locale configured_locale ∈ locales)
       then list_remove configured_locale remaining
       else Ok remaining)
    (filter (fun cl => cl_locale cl ∉ locales) pre ++ post)%list post
  = Ok (filter (fun cl => cl_locale cl ∉ locales) (pre ++ post)%list).
Proof.
  revert pre. induction post as [|x post IH]; intros pre;
    cbn [foldM_result].
  - now rewrite !app_nil_r.
  - case_bool_decide as Hx.
    + rewrite list_remove_app.
      2:{ intros Hin. apply list_elem_of_filter in Hin as [Hkeep _].
          now apply Hkeep. }
      cbn [mbind result_bind].
      replace (filter (fun cl => cl_locale cl ∉ locales) pre)
        with (filter (fun cl => cl_locale cl ∉ locales) (pre ++ [x])%list).
      2:{ rewrite filter_app, filter_cons_False by (intros Hk; now apply Hk).
          now rewrite filter_nil, app_nil_r. }
      rewrite IH. now rewrite <- app_assoc.
    + cbn [mbind result_bind].
      replace (filter (fun cl => cl_locale cl ∉ locales) pre ++ x :: post)%list
        with (filter (fun cl => cl_locale cl ∉ locales) (pre ++ [x])
                ++ post)%list.
      2:{ rewrite filter_app, filter_cons_True by exact Hx.
          now rewrite filter_nil, <- app_assoc. }
      rewrite IH. now rewrite <- app_assoc.
Qed.

(** X13.  The loop of [delete_locales] over the setting [extra_locales]
    never raises, and what it leaves is the list without the entries of the
    deleted locales, the others in their order; entries that are equal are
    all removed. *)
Theorem delete_locales_filters_the_setting (locales : list string)
    (ds : datastore) (extra_locales : list configured_locale) :
  remove_locales locales extra_locales
  = Ok (filter (fun cl => cl_locale cl ∉ locales) extra_locales)
  /\ snd (delete_locales locales ds (Some extra_locales))
     = Ok (Some (filter (fun cl => cl_locale cl ∉ locales) extra_locales))
  /\ snd (delete_locales locales ds None) = Ok None.
Proof.
  assert (Hloop : remove_locales locales extra_locales
            = Ok (filter (fun cl => cl_locale cl ∉ locales) extra_locales)).
  { exact (remove_locales_from locales [] extra_locales). }
  split; [exact Hloop|]. split; [|reflexivity].
  unfold delete_locales. cbn [snd]. now rewrite Hloop.
Qed.

Lemma get_progress_cleared p (locales : list string) l :
  get_progress (foldl clear_progress p locales) l
  = if bool_decide (l ∈ locales) then NOT_STARTED else get_progress p l.
Proof.
  revert p. induction locales as [|l1 locales IH]; intros p; cbn [foldl].
  - reflexivity.
  - rewrite IH. case_bool_decide as Hin.
    + rewrite bool_decide_eq_true_2 by now apply list_elem_of_further.
      reflexivity.
    + destruct (decide (l = l1)) as [->|Hne].
      * rewrite bool_decide_eq_true_2 by apply list_elem_of_here.
        unfold get_progress, clear_progress. cbn [p_progress].
        destruct (p_progress p) as [m|]; cbn; [|reflexivity].
        now rewrite lookup_delete_eq.
      * rewrite bool_decide_eq_false_2
          by (intros Hin'; apply elem_of_cons in Hin' as [?|?]; contradiction).
        unfold get_progress, clear_progress. cbn [p_progress].
        destruct (p_progress p) as [m|]; cbn; [|reflexivity].
        now rewrite lookup_delete_ne by congruence.
Qed.

Lemma is_translatable_cleared p locales :
  is_translatable (foldl clear_progress p locales) = is_translatable p.
Proof.
  revert p. induction locales as [|l1 locales IH]; intros p; cbn [foldl];
    [reflexivity|]. now rewrite IH.
Qed.

Lemma lookup_deleted_locales (locales : list string)
    (bundles : gmap string (string * bundle)) the_id :
  foldl (fun bundles locale => delete_all_for_locale locale bundles)
        bundles locales !! the_id
  = match bundles !! the_id with
    | Some (l0, d) => if bool_decide (l0 ∈ locales) then None else Some (l0, d)
    | None => None
    end.
Proof.
  revert bundles. induction locales as [|l1 locales IH]; intros bundles;
    cbn [foldl].
  - now destruct (bundles !! the_id) as [[l0 d]|].
  - rewrite IH. unfold delete_all_for_locale. rewrite map_lookup_filter.
    destruct (bundles !! the_id) as [[l0 d]|]; cbn; [|reflexivity].
    destruct (decide (l0 = l1)) as [->|Hne].
    + rewrite option_guard_False by (intros Hk; now apply Hk). cbn.
      now rewrite bool_decide_eq_true_2 by apply list_elem_of_here.
    + rewrite option_guard_True by exact Hne. cbn.
      case_bool_decide as Hin.
      * now rewrite bool_decide_eq_true_2 by now apply list_elem_of_further.
      * rewrite bool_decide_eq_false_2; [reflexivity|].
        intros Hin'. apply elem_of_cons in Hin' as [?|?]; contradiction.
Qed.

(** X14.  After [delete_locales], a deleted locale has no bundle left and
    reads [NOT_STARTED] in every progress record; the bundles and the
    progress of the other locales, and the mark of what is translatable, are
    as they were. *)
Theorem delete_locales_clears_the_locales (locales : list string)
    (ds : datastore) (extra_locales : option (list configured_locale)) :
  let after := fst (delete_locales locales ds extra_locales) in
  (forall l, l ∈ locales ->
     get_all_for_locale after l = ∅
     /\ forall the_id,
          get_progress (progress_record (ds_progress after) the_id) l
          = NOT_STARTED)
  /\ (forall l, l ∉ locales ->
        get_all_for_locale after l = get_all_for_locale ds l
        /\ forall the_id,
             get_progress (progress_record (ds_progress after) the_id) l
             = get_progress (progress_record (ds_progress ds) the_id) l)
  /\ (forall the_id,
        is_translatable (progress_record (ds_progress after) the_id)
        = is_translatable (progress_record (ds_progress ds) the_id)).
Proof.
  cbv zeta. unfold delete_locales. cbn [fst].
  assert (Hrecord : forall the_id,
            progress_record
              ((fun p => foldl clear_progress p locales) <$> ds_progress ds)
              the_id
            = foldl clear_progress (progress_record (ds_progress ds) the_id)
                    locales).
  { intros the_id. unfold progress_record. rewrite lookup_fmap.
    destruct (ds_progress ds !! the_id) as [p|]; cbn; [reflexivity|].
    clear. induction locales as [|l locales IH]; [reflexivity|].
    cbn [foldl]. exact IH. }
  split; [|split].
  - intros l Hl. split.
    + apply map_eq. intros the_id.
      rewrite get_all_for_locale_lookup, lookup_empty. cbn [ds_bundles].
      rewrite lookup_deleted_locales.
      destruct (ds_bundles ds !! the_id) as [[l0 d]|]; [|reflexivity].
      case_bool_decide as Hin; [reflexivity|].
      rewrite decide_False by congruence. reflexivity.
    + intros the_id. cbn [ds_progress].
      rewrite Hrecord, get_progress_cleared.
      now rewrite bool_decide_eq_true_2 by exact Hl.
  - intros l Hl. split.
    + apply map_eq. intros the_id.
      rewrite !get_all_for_locale_lookup. cbn [ds_bundles].
      rewrite lookup_deleted_locales.
      destruct (ds_bundles ds !! the_id) as [[l0 d]|]; [|reflexivity].
      case_bool_decide as Hin; [|reflexivity].
      rewrite decide_False by congruence. reflexivity.
    + intros the_id. cbn [ds_progress].
      rewrite Hrecord, get_progress_cleared.
      now rewrite bool_decide_eq_false_2 by exact Hl.
  - intros the_id. cbn [ds_progress].
    now rewrite Hrecord, is_translatable_cleared.
Qed.

(** ** The deferred update of progress *)

Section DeferredUpdaterProperties.
Context `{Course} `{I18nStore}.

Lemma update_progress_steps c ds resource_key all_locales :
  forall p p',
  foldM_result (update_progress_step c ds resource_key) p all_locales = Ok p' ->
  is_translatable p' = is_translatable p
  /\ forall l,
       if bool_decide (l ∈ all_locales /\ l <> default_locale c) then
         exists b sections,
           build_sections_for_key
             (mkResourceBundleKey (fst resource_key) (snd resource_key) l) c
             (snd <$> ds_bundles ds
                        !! ResourceBundleKey_str
                             (mkResourceBundleKey (fst resource_key)
                                                  (snd resource_key) l))
           = Ok (b, sections)
           /\ get_progress p' l = progress_of sections
       else get_progress p' l = get_progress p l.
Proof.
  induction all_locales as [|l1 all_locales IH]; intros p p' Hrun.
  - injection Hrun as <-. split; [reflexivity|]. intros l.
    rewrite bool_decide_eq_false_2; [reflexivity|].
    intros [Hin _]. inversion Hin.
  - cbn [foldM_result] in Hrun.
    destruct (update_progress_step c ds resource_key p l1) as [p1|e] eqn:Hstep;
      [|discriminate Hrun].
    cbn [mbind result_bind] in Hrun.
    destruct (IH _ _ Hrun) as [Hi18n Hrest].
    unfold update_progress_step in Hstep.
    destruct (decide (l1 <> default_locale c)) as [Hl1|Hl1].
    + unfold _update_progress_for_locale in Hstep.
      destruct (build_sections_for_key _ c _) as [[b sections]|e] eqn:Hb;
        [|discriminate Hstep].
      cbn in Hstep. injection Hstep as <-.
      split; [exact Hi18n|]. intros l. specialize (Hrest l).
      case_bool_decide as Hl.
      * rewrite bool_decide_eq_true_2
          by (destruct Hl; split; [now apply list_elem_of_further|assumption]).
        exact Hrest.
      * destruct (decide (l = l1)) as [->|Hne].
        -- rewrite bool_decide_eq_true_2
             by (split; [apply list_elem_of_here|assumption]).
           exists b, sections. split; [exact Hb|].
           rewrite Hrest. apply get_set_progress.
        -- rewrite bool_decide_eq_false_2.
           2:{ intros [Hin Hd]. apply Hl. split; [|exact Hd].
               apply elem_of_cons in Hin as [?|?]; [contradiction|assumption]. }
           rewrite Hrest. now apply get_progress_set_other.
    + injection Hstep as <-. split; [exact Hi18n|]. intros l.
      specialize (Hrest l).
      case_bool_decide as Hl.
      * rewrite bool_decide_eq_true_2
          by (destruct Hl; split; [now apply list_elem_of_further|assumption]).
        exact Hrest.
      * rewrite bool_decide_eq_false_2; [exact Hrest|].
        intros [Hin Hd]. apply Hl. split; [|exact Hd].
        apply elem_of_cons in Hin as [->|?]; [|assumption].
        exfalso. apply Hl1. exact Hd.
Qed.

(** X15.  The deferred update of a resource is all or nothing: when the
    section builder raises for a locale the datastore is left as it was; and
    otherwise only the progress record of the resource changes, where every
    locale of the course but the default one reads the progress of the
    sections built for it, the other locales read what they read, and the
    mark of what is translatable is kept.  No bundle is written. *)
Theorem deferred_update_of_a_resource (c : course) (all_locales : list string)
    (ds : datastore) (resource_key : string * value) :
  let progress_id := resource_key_str (fst resource_key) (snd resource_key) in
  let after := fst (_update_progress_for_resource c all_locales ds resource_key) in
  match snd (_update_progress_for_resource c all_locales ds resource_key) with
  | Some _ => after = ds
  | None =>
      ds_bundles after = ds_bundles ds
      /\ (forall the_id, the_id <> progress_id ->
            ds_progress after !! the_id = ds_progress ds !! the_id)
      /\ is_Some (ds_progress after !! progress_id)
      /\ is_translatable (progress_record (ds_progress after) progress_id)
         = is_translatable (progress_record (ds_progress ds) progress_id)
      /\ forall l,
           if bool_decide (l ∈ all_locales /\ l <> default_locale c) then
             exists b sections,
               build_sections_for_key
                 (mkResourceBundleKey (fst resource_key) (snd resource_key) l)
                 c
                 (snd <$> ds_bundles ds
                            !! ResourceBundleKey_str
                                 (mkResourceBundleKey (fst resource_key)
                                                      (snd resource_key) l))
               = Ok (b, sections)
               /\ get_progress (progress_record (ds_progress after) progress_id)
                               l
                  = progress_of sections
           else
             get_progress (progress_record (ds_progress after) progress_id) l
             = get_progress (progress_record (ds_progress ds) progress_id) l
  end.
Proof.
  cbv zeta. unfold _update_progress_for_resource.
  destruct (foldM_result _ _ all_locales) as [p'|e] eqn:Hrun;
    cbn [fst snd]; [|reflexivity].
  destruct (update_progress_steps _ _ _ _ _ _ Hrun) as [Hi18n Hlocales].
  cbn [ds_bundles ds_progress].
  split; [reflexivity|].
  split; [intros the_id Hne; now rewrite lookup_insert_ne by congruence|].
  unfold progress_record. rewrite lookup_insert_eq. cbn [from_option id].
  split; [now eexists|]. split; [exact Hi18n|exact Hlocales].
Qed.

End DeferredUpdaterProperties.

(** ** The translation console *)

Lemma str_of_fromstring s k :
  fromstring s = Ok k -> ResourceBundleKey_str k = s.
Proof.
  unfold fromstring. pose proof (split_join ":" 2 s) as Hjoin.
  destruct (split ":" 2 s) as [|a [|b [|c [|d parts]]]]; cbn; try discriminate.
  intros [= <-]. symmetry. exact Hjoin.
Qed.

Section ConsoleProperties.
Context `{XContent} `{AppContext}.

(** X16.  The console writes only on a request to save, by a user with the
    rights of the locale of the key, with a token that passes and a payload
    that reads.  It stores then, and answers [Saved], the bundle merged with
    the sections under the key of the request, with the locale of the key,
    where the bundles of that locale find it, and the progress record of the
    resource; a datastore as the DAO writes it stays so.  Any other request,
    one to validate among them, leaves the datastore as it was. *)
Theorem console_put_saves_or_leaves (request : result console_request)
    (ds : datastore) :
  fst (put request ds) = ds
  \/ exists rq key sections,
       request = Ok rq
       /\ fromstring (cr_key rq) = Ok key
       /\ cr_sections rq = Ok sections
       /\ cr_validate rq = false
       /\ cr_xsrf_ok rq = true
       /\ has_locale_rights (locale key) = true
       /\ snd (put request ds) = Saved
       /\ (let progress_id := resource_key_str (_type key) (_key key) in
           let updated :=
             update_dtos_with_section_data key sections
               (Some (default ∅ (snd <$> ds_bundles ds !! cr_key rq)))
               (progress_record (ds_progress ds) progress_id) in
           fst (put request ds)
           = mkDatastore (<[progress_id := snd updated]> (ds_progress ds))
               (<[cr_key rq := (locale key, fst updated)]> (ds_bundles ds))
           /\ get_all_for_locale (fst (put request ds)) (locale key)
                !! cr_key rq
              = Some (fst updated)
           /\ (filed ds -> filed (fst (put request ds)))).
Proof.
  unfold put.
  destruct request as [rq|e]; [|now left].
  destruct (fromstring (cr_key rq)) as [key|e] eqn:Hkey; [|now left].
  destruct (cr_xsrf_ok rq) eqn:Hxsrf; cbn [negb]; [|now left].
  destruct (has_locale_rights (locale key)) eqn:Hrights; cbn [negb];
    [|now left].
  destruct (cr_sections rq) as [sections|e] eqn:Hsections; [|now left].
  rewrite (str_of_fromstring _ _ Hkey).
  unfold update_dtos_with_section_data.
  destruct (cr_validate rq) eqn:Hvalidate.
  { destruct (_get_validation_report _ _ _); now left. }
  rewrite Hkey. cbn [fst snd]. right. exists rq, key, sections.
  do 7 (split; [reflexivity || assumption|]).
  cbv zeta. cbn [fst snd]. unfold progress_record.
  split; [reflexivity|]. split.
  - rewrite get_all_for_locale_lookup. cbn [ds_bundles].
    rewrite lookup_insert_eq. now rewrite decide_True.
  - intros Hfiled the_id l d Hl. cbn [ds_bundles] in Hl.
    destruct (decide (the_id = cr_key rq)) as [->|Hne].
    + rewrite lookup_insert_eq in Hl. injection Hl as <- <-. now exists key.
    + rewrite lookup_insert_ne in Hl by congruence.
      exact (Hfiled _ _ _ Hl).
Qed.




End ConsoleProperties.


(** ** The lazy translator, again *)

Section TranslatorTwice.
Context `{XContent} `{AppContext}.

(** X18.  Resolving a translator a second time gives what the first time
    gave, the text or the exception, and leaves the translator, its status
    and message as the first time left them: a composite field is recomposed
    once and its body kept, and a text field reads the same stored target
    again. *)
Theorem translator_resolves_the_same_twice (t : LazyTranslator) :
  LazyTranslator_str (snd (LazyTranslator_str t)) = LazyTranslator_str t.
Proof.
  destruct t as [key source target dict status errm].
  unfold LazyTranslator_str at 2 3.
  cbn [lt_target_value lt_source_value lt_translation_dict].
  destruct target as [|cached|cached]; [|reflexivity..].
  destruct source as [|source|source]; [reflexivity| |reflexivity].
  destruct (String.eqb (strip source) "") eqn:Hblank; [now cbn; rewrite Hblank|].
  destruct (decide (f_type dict = TYPE_HTML)) as [Htype|Htype].
  - destruct (_translate_html _) as [body t1]. destruct t1. reflexivity.
  - unfold _translate_text, LazyTranslator_str, set_status, set_target_value.
    cbn -[strip String.eqb].
    destruct (f_data dict !! 0%nat) as [c|] eqn:Hc; cbn -[strip String.eqb].
    + destruct (c_target_value c) as [|v|v] eqn:Hv; [|reflexivity..].
      rewrite Hblank, decide_False by exact Htype.
      unfold _translate_text, set_status. cbn -[strip String.eqb].
      now rewrite Hc, Hv.
    + rewrite Hblank, decide_False by exact Htype.
      unfold _translate_text, set_status. cbn -[strip String.eqb].
      now rewrite Hc.
Qed.

End TranslatorTwice.

(** ** The section builder, again *)

Section BuilderShape.
Context `{Course} `{I18nStore}.

Lemma build_section_well_built rb em m s :
  build_section rb em m = Ok (Some s) -> well_built s.
Proof.
  unfold build_section, well_built.
  destruct (decide (dm_type m = TYPE_HTML)) as [Ht|Ht];
    cbn [mbind result_bind mret result_ret].
  - destruct (ContentIO_fromstring (dm_source_value m)) as [t|e];
      cbn [mbind result_bind]; [|discriminate].
    destruct (decompose t) as [context|e]; cbn [mbind result_bind];
      [|discriminate].
    destruct (mapM_result _ _) as [data|e]; cbn [mbind result_bind mret
                                                  result_ret]; [|discriminate].
    destruct (existsb _ data) eqn:Hsome; intros [= <-].
    cbn [s_data s_type]. split; [exact Hsome|]. intros Hne. contradiction.
  - destruct (existsb _ _) eqn:Hsome; intros [= <-].
    cbn [s_data s_type s_source_value]. split; [exact Hsome|].
    intros _. now split.
Qed.

Lemma default_section_well_built tr s :
  well_built s -> well_built (default_section tr s).
Proof.
  unfold well_built, default_section.
  cbn [s_data s_type s_source_value]. intros [Hsome Hone]. split.
  - clear Hone. induction (s_data s) as [|it items IH]; [discriminate Hsome|].
    cbn [map existsb] in Hsome |- *.
    assert (Hsrc : i_source_value (default_item tr it) = i_source_value it).
    { unfold default_item. repeat (case_decide || case_match); reflexivity. }
    rewrite Hsrc. destruct (truthy (i_source_value it)); [reflexivity|].
    cbn [orb] in Hsome |- *. now apply IH.
  - intros Hne. rewrite length_map. now apply Hone.
Qed.

(** X19.  Every section that the builder returns has a chunk with a source
    that is not blank, and a section of a type other than [html] is a single
    chunk, with no source value of its own: a field without any source gives no
    section. *)
Theorem built_sections_have_a_source (key : ResourceBundleKey) (c : course)
    (rb : option bundle) (b : binding) (sections : list section) :
  build_sections_for_key key c rb = Ok (b, sections) ->
  forall s, s ∈ sections -> well_built s.
Proof.
  unfold build_sections_for_key.
  destruct (classify_sections key c rb) as [[b' raw]|e] eqn:Hraw;
    cbn [mbind result_bind]; [|discriminate].
  assert (Hbuilt : forall s, s ∈ raw -> well_built s).
  { revert Hraw. unfold classify_sections.
    destruct (bind_entity_to_schema _ _ _) as [b''|e];
      cbn [mbind result_bind]; [|discriminate].
    destruct (match rb with Some d => _ | None => _ end) as [em|e];
      cbn [mbind result_bind]; [|discriminate].
    destruct (mapM_result _ _) as [built|e] eqn:Hb;
      cbn [mbind result_bind mret result_ret]; [|discriminate].
    intros [= <- <-] s Hs.
    apply mapM_result_Forall2 in Hb.
    apply list_elem_of_omap in Hs as (o & Ho & Hs). cbn in Hs. subst o.
    induction Hb as [|m o ms built Hm _ IH]; [inversion Ho|].
    apply elem_of_cons in Ho as [<-|Ho]; [|now apply IH].
    now apply build_section_well_built in Hm. }
  destruct (decide (locale key ≠ default_locale c));
    cbn [mbind result_bind mret result_ret].
  - unfold add_known_translations_as_defaults.
    destruct (get_translations (locale key)) as [tr|e];
      cbn [mbind result_bind mret result_ret].
    + intros [= <- <-] s Hs.
      apply list_elem_of_fmap in Hs as (s0 & -> & Hs0).
      apply default_section_well_built. now apply Hbuilt.
    + case_decide; cbn [mbind result_bind mret result_ret]; [|discriminate].
      now intros [= <- <-].
  - now intros [= <- <-].
Qed.

End BuilderShape.

(** The title of the lesson, as the builder gives it for French, through
    [built_sections_have_a_source]. *)
Lemma built_title_has_a_source :
  well_built
    (mkSection "title" VNone TYPE_STRING (VStr "")
       [mkItem (VStr "Intro") (VStr "") (VStr "Introduction")
               VERB_CHANGED false]).
Proof.
  refine (@built_sections_have_a_source slash_content one_resource_course
            known_intro lesson_fr lesson None (or_fields lesson)
            [mkSection "title" VNone TYPE_STRING (VStr "")
               [mkItem (VStr "Intro") (VStr "") (VStr "Introduction")
                       VERB_CHANGED false];
             mkSection "body" VNone TYPE_HTML (VStr "Hello/World")
               [mkItem (VStr "Hello") VNone (VStr "") VERB_NEW false;
                mkItem (VStr "World") VNone (VStr "") VERB_NEW false]]
            _ _ _).
  - vm_compute. reflexivity.
  - apply list_elem_of_here.
Defined.

(** ** The parsing of a catalog, when it succeeds *)

Lemma parse_location_success m st loc n st' :
  parse_location m st (loc, n) = (st', None) ->
  exists a b key k,
    split "|" 4 loc = ["GCB-1"; a; b; key]
    /\ fromstring key = Ok k
    /\ (forall l0, fst st = Some l0 -> l0 = locale k)
    /\ st'
       = (Some (locale k),
          <[locale k :=
              <[key := <[msg_id m := msg_string m]>
                         (default ∅ (default ∅ (snd st !! locale k) !! key))]>
                (default ∅ (snd st !! locale k))]> (snd st)).
Proof.
  unfold parse_location. destruct st as [lo translations].
  destruct (split "|" 4 loc) as [|p [|a [|b [|key [|x parts]]]]];
    try discriminate.
  destruct (String.eqb_spec p "GCB-1") as [->|Hp]; cbn [negb];
    [|discriminate].
  destruct (fromstring key) as [k|e] eqn:Hk; [|discriminate].
  destruct lo as [l|].
  - destruct (String.eqb_spec l (locale k)) as [->|Hne]; cbn [negb];
      [|discriminate].
    intros [= <-]. exists a, b, key, k. cbn [fst snd].
    split; [reflexivity|]. split; [exact Hk|]. split; [|reflexivity].
    now intros l0 [= <-].
  - intros [= <-]. exists a, b, key, k. cbn [fst snd].
    split; [reflexivity|]. split; [exact Hk|]. split; [|reflexivity].
    intros l0 [=].
Qed.

Lemma on_file_kept (translations : upload_translations) l key id_ s q :
  (forall a b k,
     split "|" 4 (fst (snd q)) = ["GCB-1"; a; b; key] ->
     fromstring key = Ok k -> locale k = l -> msg_id (fst q) = id_ ->
     msg_string (fst q) = s) ->
  on_file translations q ->
  on_file
    (<[l := <[key := <[id_ := s]>
                       (default ∅ (default ∅ (translations !! l) !! key))]>
              (default ∅ (translations !! l))]> translations) q.
Proof.
  intros Hsame (a & b & key' & k & by_key & by_id & Hsplit & Hk & Hl & Hkey & Hid).
  destruct (decide (locale k = l)) as [Heq|Hne].
  2:{ exists a, b, key', k, by_key, by_id.
      do 2 (split; [assumption|]).
      split; [now rewrite lookup_insert_ne by congruence|]. now split. }
  subst l. rewrite Hl. cbn [from_option id].
  destruct (decide (key' = key)) as [->|Hnk].
  2:{ exists a, b, key', k, (<[key := <[id_ := s]> (default ∅ (by_key !! key))]>
                               by_key), by_id.
      do 2 (split; [assumption|]).
      split; [apply lookup_insert_eq|].
      split; [now rewrite lookup_insert_ne by congruence|assumption]. }
  rewrite Hkey. cbn [from_option id].
  exists a, b, key, k, (<[key := <[id_ := s]> by_id]> by_key),
    (<[id_ := s]> by_id).
  do 2 (split; [assumption|]).
  split; [apply lookup_insert_eq|]. split; [apply lookup_insert_eq|].
  destruct (decide (msg_id (fst q) = id_)) as [Hi|Hi].
  - rewrite <- Hi, lookup_insert_eq. f_equal. symmetry.
    exact (Hsame a b k Hsplit Hk eq_refl Hi).
  - now rewrite lookup_insert_ne by congruence.
Qed.

Lemma parse_pairs_success (pairs : list (message * (string * nat))) :
  forall st st',
  (forall p q, p ∈ pairs -> q ∈ pairs ->
     msg_id (fst p) = msg_id (fst q) -> msg_string (fst p) = msg_string (fst q)) ->
  for_each (fun st p => parse_location (fst p) st (snd p)) st pairs
  = (st', None) ->
  (forall l, is_Some (snd st !! l) -> fst st = Some l) ->
  (forall l, is_Some (snd st' !! l) -> fst st' = Some l)
  /\ (forall l0, fst st = Some l0 -> fst st' = Some l0)
  /\ (forall p, p ∈ pairs -> on_file (snd st') p)
  /\ (forall q,
        (forall p, p ∈ pairs -> msg_id (fst p) = msg_id (fst q) ->
           msg_string (fst p) = msg_string (fst q)) ->
        on_file (snd st) q -> on_file (snd st') q).
Proof.
  induction pairs as [|[m [loc n]] pairs IH]; intros st st' Hsame Hrun Hdom.
  - injection Hrun as <-. repeat split; auto. intros p Hp. inversion Hp.
  - cbn [for_each fst snd] in Hrun.
    destruct (parse_location m st (loc, n)) as [st1 [e|]] eqn:Hstep;
      [discriminate Hrun|].
    destruct (parse_location_success _ _ _ _ _ Hstep)
      as (a & b & key & k & Hsplit & Hk & Hlocale & ->).
    destruct (IH _ _ (fun p q Hp Hq =>
                        Hsame p q (list_elem_of_further _ _ _ Hp)
                                  (list_elem_of_further _ _ _ Hq))
                 Hrun) as (Hdom' & Hkeep & Hall & Hold).
    { cbn [fst snd]. intros l Hl.
      destruct (decide (l = locale k)) as [->|Hne]; [reflexivity|].
      rewrite lookup_insert_ne in Hl by congruence.
      rewrite (Hlocale _ (Hdom l Hl)) in Hne. contradiction. }
    cbn [fst snd] in Hkeep, Hold.
    split; [exact Hdom'|]. split.
    { intros l0 Hl0. apply Hkeep. now rewrite (Hlocale _ Hl0). }
    split.
    + intros p Hp. apply elem_of_cons in Hp as [->|Hp]; [|now apply Hall].
      apply Hold.
      * intros p' Hp' Hid. symmetry.
        apply (Hsame (m, (loc, n)) p');
          [apply list_elem_of_here|now apply list_elem_of_further|].
        now symmetry.
      * exists a, b, key, k. eexists _, _. cbn [fst snd].
        do 2 (split; [assumption|]).
        split; [apply lookup_insert_eq|]. split; apply lookup_insert_eq.
    + intros q Hq Hfile. apply Hold.
      * intros p Hp. apply Hq. now apply list_elem_of_further.
      * apply on_file_kept; [|exact Hfile].
        intros a' b' k' _ _ _ Hid. symmetry.
        now apply (Hq (m, (loc, n)) (list_elem_of_here _ _)).
Qed.

Lemma elem_of_pairs (catalog : list message) (p : message * (string * nat)) :
  p ∈ concat (map (fun m => map (pair m) (msg_locations m)) catalog)
  <-> fst p ∈ catalog /\ snd p ∈ msg_locations (fst p).
Proof.
  rewrite list_elem_of_In, in_concat. split.
  - intros (pairs & Hpairs & Hp).
    apply in_map_iff in Hpairs as (m & <- & Hm).
    apply in_map_iff in Hp as (location & <- & Hlocation).
    cbn [fst snd]. split; now apply list_elem_of_In.
  - intros [Hm Hlocation]. destruct p as [m location]. cbn [fst snd] in *.
    exists (map (pair m) (msg_locations m)). split.
    + apply in_map_iff. exists m. split; [reflexivity|].
      now apply list_elem_of_In.
    + apply in_map. now apply list_elem_of_In.
Qed.

Lemma distinct_ids (catalog : list message) m m' :
  NoDup (map msg_id catalog) ->
  m ∈ catalog -> m' ∈ catalog -> msg_id m = msg_id m' -> m = m'.
Proof.
  induction catalog as [|m0 catalog IH]; intros Hids Hm Hm' Hid;
    [inversion Hm|].
  cbn [map] in Hids. apply NoDup_cons in Hids as [Hfresh Hids].
  assert (Hin : forall x, x ∈ catalog -> msg_id x ∈ map msg_id catalog).
  { intros x Hx. apply list_elem_of_In, in_map. now apply list_elem_of_In. }
  apply elem_of_cons in Hm as [->|Hm], Hm' as [->|Hm'].
  - reflexivity.
  - exfalso. apply Hfresh. rewrite Hid. now apply Hin.
  - exfalso. apply Hfresh. rewrite <- Hid. now apply Hin.
  - now apply IH.
Qed.

Section ParseProperties.
Context `{UploadEnv}.

(** X20.  A file that parses to the end is filed under one locale: when
    [parse_po_file], started on an empty dictionary, raises nothing on a
    catalog whose messages have distinct ids, the dictionary has at most one
    locale, every location of every message has the tag [GCB-1] and a bundle
    key that reads, and under the locale and the text of that key the id of
    the message gives its translation. *)
Theorem parsed_catalog_is_filed (content : string) (catalog : list message)
    (translations : upload_translations) :
  read_po content = Ok catalog ->
  NoDup (map msg_id catalog) ->
  parse_po_file ∅ content = (translations, None) ->
  (forall l l', is_Some (translations !! l) -> is_Some (translations !! l') ->
     l = l')
  /\ forall m location, m ∈ catalog -> location ∈ msg_locations m ->
       on_file translations (m, location).
Proof.
  intros Hread Hids. unfold parse_po_file. rewrite Hread.
  unfold parse_message.
  rewrite (for_each_nested msg_locations parse_location).
  destruct (for_each _ _ _) as [[lo tr] r] eqn:Hrun.
  intros [= -> ->].
  destruct (parse_pairs_success _ _ _
              (fun p q Hp Hq Hid =>
                 f_equal msg_string
                   (distinct_ids catalog (fst p) (fst q) Hids
                      (proj1 (proj1 (elem_of_pairs catalog p) Hp))
                      (proj1 (proj1 (elem_of_pairs catalog q) Hq)) Hid))
              Hrun) as (Hdom & _ & Hall & _).
  { cbn [fst snd]. intros l Hl. rewrite lookup_empty in Hl.
    now destruct Hl. }
  cbn [fst snd] in Hdom, Hall. split.
  - intros l l' Hl Hl'. apply Hdom in Hl, Hl'. congruence.
  - intros m location Hm Hlocation. apply Hall, elem_of_pairs. now split.
Qed.

End ParseProperties.

(** The catalog of the title of the lesson, parsed, through
    [parsed_catalog_is_filed]: the translation is on file. *)
Lemma parsed_title_is_filed :
  on_file
    (fst (@parse_po_file _ _ po_upload ∅ "GCB-1|title|string|lesson:1:fr"))
    (mkMessage "Intro" "Introduction"
               [("GCB-1|title|string|lesson:1:fr", 1%nat)],
     ("GCB-1|title|string|lesson:1:fr", 1%nat)).
Proof.
  refine (proj2
            (@parsed_catalog_is_filed _ _ po_upload
               "GCB-1|title|string|lesson:1:fr"
               [mkMessage "Intro" "Introduction"
                          [("GCB-1|title|string|lesson:1:fr", 1%nat)]]
               _ eq_refl _ eq_refl) _ _ _ _).
  - apply NoDup_cons. split; [intros Hin; inversion Hin|apply NoDup_nil_2].
  - apply list_elem_of_here.
  - apply list_elem_of_here.
Defined.

(** ** The mark of what is translatable *)

(** X21.  Marking a resource as translatable or not loses no progress and
    touches no bundle: after [post] every progress record reads for every
    locale what it read, the bundles are the same, and the records of the
    other resources are as they were.  The mark is set, and the answer is
    [OK], only for a value that is a [bool]; in every other case the
    datastore is left as it was. *)
Theorem translatable_mark_keeps_progress (rq : translatable_request)
    (ds : datastore) :
  let after := fst (is_translatable_post rq ds) in
  (forall the_id l,
     get_progress (progress_record (ds_progress after) the_id) l
     = get_progress (progress_record (ds_progress ds) the_id) l)
  /\ ds_bundles after = ds_bundles ds
  /\ (forall the_id, the_id <> tq_resource_key rq ->
        ds_progress after !! the_id = ds_progress ds !! the_id)
  /\ match snd (is_translatable_post rq ds) with
     | TranslatableOk =>
         exists b,
           tq_value rq = inl b
           /\ is_translatable
                (progress_record (ds_progress after) (tq_resource_key rq))
              = b
     | _ => after = ds
     end.
Proof.
  cbv zeta. unfold is_translatable_post.
  destruct (tq_xsrf_ok rq); cbn [negb]; [|now repeat split].
  destruct (tq_can_edit rq); cbn [negb]; [|now repeat split].
  destruct (tq_value rq) as [b|v]; cbn [set_is_translatable];
    [|now repeat split].
  cbn [fst snd ds_progress ds_bundles]. split; [|split; [reflexivity|split]].
  - intros the_id l. unfold progress_record.
    destruct (decide (the_id = tq_resource_key rq)) as [->|Hne].
    + rewrite lookup_insert_eq. reflexivity.
    + now rewrite lookup_insert_ne by congruence.
  - intros the_id Hne. now rewrite lookup_insert_ne by congruence.
  - exists b. split; [reflexivity|]. unfold progress_record.
    rewrite lookup_insert_eq. reflexivity.
Qed.

(** ** The translation of loaded resources *)

Lemma translate_fields_from key (fields : list (string * field)) :
  forall name_to_value : gmap string bound_value,
  NoDup (fields.*1) ->
  match foldM_result (translate_field key) name_to_value fields with
  | Ok translated =>
      (forall name f, (name, f) ∈ fields ->
         exists v,
           name_to_value !! name = Some (Plain v)
           /\ LazyTranslator_init key v f
              = Ok (mkLazyTranslator key v VNone f NOT_STARTED_TRANSLATION "")
           /\ translated !! name
              = Some (Translated
                        (mkLazyTranslator key v VNone f
                                          NOT_STARTED_TRANSLATION "")))
      /\ (forall name, name ∉ fields.*1 ->
            translated !! name = name_to_value !! name)
  | Raise e =>
      exists name f,
        (name, f) ∈ fields
        /\ forall v, name_to_value !! name = Some (Plain v) ->
             exists e', LazyTranslator_init key v f = Raise e'
  end.
Proof.
  induction fields as [|[name f] fields IH]; intros name_to_value Hdup.
  - cbn [foldM_result]. split; [intros name f Hin; inversion Hin|reflexivity].
  - cbn [fmap list_fmap fst] in Hdup. apply NoDup_cons in Hdup as [Hfresh Hdup].
    cbn [foldM_result].
    destruct (translate_field key name_to_value (name, f)) as [step|e]
      eqn:Hstep; cbn [mbind result_bind].
    + unfold translate_field in Hstep.
      destruct (name_to_value !! name) as [[v|t]|] eqn:Hname;
        try discriminate Hstep.
      destruct (LazyTranslator_init key v f) as [translator|e] eqn:Hinit;
        cbn [mbind result_bind mret result_ret] in Hstep;
        [|discriminate Hstep].
      injection Hstep as <-.
      assert (Htranslator : translator
                = mkLazyTranslator key v VNone f NOT_STARTED_TRANSLATION "").
      { destruct v; cbn in Hinit; congruence. }
      subst translator.
      specialize (IH (<[name := Translated
                          (mkLazyTranslator key v VNone f
                             NOT_STARTED_TRANSLATION "")]> name_to_value)
                     Hdup).
      destruct (foldM_result _ _ fields) as [translated|e].
      * destruct IH as [Hall Hrest]. split.
        -- intros name' f' Hin. apply elem_of_cons in Hin as [Heq|Hin].
           ++ injection Heq as -> ->. exists v. split; [exact Hname|].
              split; [exact Hinit|].
              rewrite (Hrest _ Hfresh). apply lookup_insert_eq.
           ++ destruct (Hall _ _ Hin) as (v' & Hv' & Hinit' & Ht').
              assert (Hne : name' <> name).
              { intros ->. apply Hfresh. apply list_elem_of_fmap.
                now exists (name, f'). }
              rewrite lookup_insert_ne in Hv' by congruence.
              now exists v'.
        -- intros name' Hnot.
           assert (Hne : name' <> name)
             by (intros ->; apply Hnot; apply list_elem_of_here).
           rewrite Hrest
             by (intros Hin; apply Hnot; now apply list_elem_of_further).
           now rewrite lookup_insert_ne by congruence.
      * destruct IH as (name' & f' & Hin & Hraise).
        exists name', f'. split; [now apply list_elem_of_further|].
        intros v' Hv'. apply Hraise.
        assert (Hne : name' <> name).
        { intros ->. apply Hfresh. apply list_elem_of_fmap.
          now exists (name, f'). }
        now rewrite lookup_insert_ne by congruence.
    + exists name, f. split; [apply list_elem_of_here|].
      intros v' Hv'. unfold translate_field in Hstep. rewrite Hv' in Hstep.
      destruct (LazyTranslator_init key v' f) as [translator|e'];
        [discriminate Hstep|now exists e'].
Qed.

(** X22.  The translation of a loaded resource puts a fresh translator, on
    the value that was there, in the place of every field that the bundle
    names, and leaves the other fields as they were.  It raises instead when
    the bundle names a field that the resource does not have, that holds a
    translator already, or whose value is no text: a second translation of
    the same resource with a bundle that is not blank always raises. *)
Theorem translation_of_a_loaded_resource (key : ResourceBundleKey)
    (name_to_value : gmap string bound_value) (resource_bundle_dto : bundle) :
  match translate_fields key name_to_value resource_bundle_dto with
  | Ok translated =>
      (forall name,
         match resource_bundle_dto !! name with
         | Some f =>
             exists v,
               name_to_value !! name = Some (Plain v)
               /\ translated !! name
                  = Some (Translated
                            (mkLazyTranslator key v VNone f
                                              NOT_STARTED_TRANSLATION ""))
         | None => translated !! name = name_to_value !! name
         end)
      /\ (resource_bundle_dto = ∅
          \/ exists e,
               translate_fields key translated resource_bundle_dto = Raise e)
  | Raise e =>
      exists name f,
        resource_bundle_dto !! name = Some f
        /\ forall v, name_to_value !! name = Some (Plain v) ->
             exists e', LazyTranslator_init key v f = Raise e'
  end.
Proof.
  unfold translate_fields.
  pose proof (translate_fields_from key (map_to_list resource_bundle_dto)
                name_to_value (NoDup_fst_map_to_list _)) as Hrun.
  destruct (foldM_result _ name_to_value _) as [translated|e].
  - destruct Hrun as [Hall Hrest].
    assert (Hfields : forall name,
              match resource_bundle_dto !! name with
              | Some f =>
                  exists v,
                    name_to_value !! name = Some (Plain v)
                    /\ translated !! name
                       = Some (Translated
                                 (mkLazyTranslator key v VNone f
                                                   NOT_STARTED_TRANSLATION ""))
              | None => translated !! name = name_to_value !! name
              end).
    { intros name. destruct (resource_bundle_dto !! name) as [f|] eqn:Hf.
      - apply elem_of_map_to_list in Hf.
        destruct (Hall _ _ Hf) as (v & Hv & _ & Ht). now exists v.
      - apply Hrest. intros Hin.
        apply list_elem_of_fmap in Hin as ([name' f] & -> & Hin).
        apply elem_of_map_to_list in Hin. cbn in Hf. congruence. }
    split; [exact Hfields|].
    destruct (decide (resource_bundle_dto = ∅)) as [Hblank|Hfilled];
      [now left|right].
    pose proof (translate_fields_from key (map_to_list resource_bundle_dto)
                  translated (NoDup_fst_map_to_list _)) as Hagain.
    destruct (foldM_result _ translated _) as [again|e]; [|now exists e].
    exfalso. destruct Hagain as [Hall' _].
    apply map_choose in Hfilled as (name & f & Hf).
    pose proof (Hfields name) as Hname. rewrite Hf in Hname.
    destruct Hname as (v & _ & Ht).
    apply elem_of_map_to_list in Hf.
    destruct (Hall' _ _ Hf) as (v' & Hv' & _). congruence.
  - destruct Hrun as (name & f & Hin & Hraise).
    exists name, f. split; [now apply elem_of_map_to_list|exact Hraise].
Qed.

(** ** An export and an upload of nothing *)

Lemma for_each_simulation {S1 S2 A} (R : S1 -> S2 -> Prop)
    (f : S1 -> A -> S1 * option exn) (g : S2 -> A -> S2 * option exn)
    (l : list A) :
  (forall st1 st2 x, R st1 st2 ->
     R (fst (f st1 x)) (fst (g st2 x))
     /\ (snd (f st1 x) = None -> snd (g st2 x) = None)) ->
  forall st1 st2,
    R st1 st2 ->
    snd (for_each f st1 l) = None ->
    R (fst (for_each f st1 l)) (fst (for_each g st2 l))
    /\ snd (for_each g st2 l) = None.
Proof.
  intros Hstep. induction l as [|x l IH]; intros st1 st2 HR Hrun.
  - now split.
  - cbn [for_each] in Hrun |- *.
    destruct (Hstep st1 st2 x HR) as [HR' Hnone].
    destruct (f st1 x) as [st1' [e|]]; [discriminate Hrun|].
    destruct (g st2 x) as [st2' [e|]]; [now discriminate Hnone|].
    now apply IH.
Qed.

Lemma upload_sections_of_nothing st sections :
  snd (upload_sections ∅ st sections) = sections.
Proof.
  unfold upload_sections.
  rewrite (map_accum_snd (upload_section ∅)
             (fun s => mkSection (s_name s) (s_label s) (s_type s)
                                 (s_source_value s)
                                 (map (uploaded ∅) (s_data s)))
             st sections (upload_section_uploaded ∅)).
  assert (Hdata : forall data : list item, map (uploaded ∅) data = data).
  { induction data as [|it data IHd]; [reflexivity|].
    cbn [map]. rewrite IHd. unfold uploaded. now rewrite lookup_empty. }
  induction sections as [|s sections IH]; [reflexivity|].
  cbn [map]. rewrite IH, Hdata. now destruct s.
Qed.

Section ExportAsUpload.
Context `{Course} `{I18nStore} `{!UploadEnv} `{!ExportEnv}.

Lemma export_resource_as_upload c export_what l es ls resource_key :
  es_bundle_by_key es = ls_bundle_by_key ls ->
  es_progress_by_key es = ls_progress_by_key ls ->
  (es_bundle_by_key (fst (export_resource c export_what l es resource_key))
   = ls_bundle_by_key (fst (update_resource c l ∅ ls resource_key))
   /\ es_progress_by_key (fst (export_resource c export_what l es resource_key))
      = ls_progress_by_key (fst (update_resource c l ∅ ls resource_key)))
  /\ (snd (export_resource c export_what l es resource_key) = None ->
      snd (update_resource c l ∅ ls resource_key) = None).
Proof.
  intros Hbundles Hprogress. unfold export_resource, update_resource.
  rewrite Hbundles, Hprogress, lookup_empty.
  destruct (build_sections_for_key _ c _) as [[b sections]|e].
  - pose proof (upload_sections_of_nothing
                  (mkUploadState (ls_messages ls) ∅ (ls_num_replacements ls)
                                 (ls_num_blank_translations ls)) sections)
      as Hsame.
    destruct (upload_sections ∅ _ sections) as [us sections'].
    cbn [snd] in Hsame. subst sections'.
    destruct (update_dtos_with_section_data _ sections _ _) as [d p].
    destruct (_collect_section_translations _ _ _ _ _ _ _) as [tr r].
    cbn [fst snd es_bundle_by_key es_progress_by_key ls_bundle_by_key
         ls_progress_by_key].
    now repeat split.
  - cbn [fst snd es_bundle_by_key es_progress_by_key ls_bundle_by_key
         ls_progress_by_key].
    split; [now split|discriminate].
Qed.

(** X23.  An export writes to the datastore what an upload without any
    translation writes: when [build_translations] for a locale raises
    nothing, the datastore it leaves is the one that [update_translations]
    leaves for that locale and no translation, which raises nothing
    either. *)
Theorem export_writes_what_an_empty_upload_writes (c : course) (l : string)
    (export_what : string) (ds : datastore) (messages : list string)
    (collected : export_translations) :
  snd (build_translations c [l] export_what ds) = Ok collected ->
  fst (build_translations c [l] export_what ds)
  = fst (fst (update_translations c {[ l := ∅ ]} messages ds))
  /\ snd (update_translations c {[ l := ∅ ]} messages ds) = None.
Proof.
  unfold build_translations, update_translations.
  rewrite map_to_list_singleton. cbn [for_each].
  unfold export_locale, update_locale.
  fold (get_all_for_locale ds l).
  pose proof (for_each_simulation
    (fun (es : export_state) (ls : locale_state) =>
       es_bundle_by_key es = ls_bundle_by_key ls
       /\ es_progress_by_key es = ls_progress_by_key ls)
    (export_resource c export_what l) (update_resource c l ∅)
    (get_resources_and_keys c)
    (fun es ls resource_key HR =>
       export_resource_as_upload c export_what l es ls resource_key
         (proj1 HR) (proj2 HR))
    (mkExportState ∅ (get_all_for_locale ds l) (ds_progress ds))
    (mkLocaleState messages ∅ 0 0 0 (get_all_for_locale ds l) (ds_progress ds))
    (conj eq_refl eq_refl)) as Hsim.
  destruct (for_each (export_resource c export_what l) _ _) as [es [e|]];
    [discriminate|].
  destruct (Hsim eq_refl) as [[Hbundles Hprogress] Hnone]. clear Hsim.
  destruct (for_each (update_resource c l ∅) _ _) as [ls r].
  cbn [fst snd] in Hbundles, Hprogress, Hnone. subst r.
  rewrite <- Hbundles, <- Hprogress.
  destruct (save_all_bundles (es_bundle_by_key es) (ds_bundles ds))
    as [bundles|e]; [|discriminate].
  intros _. cbn [fst snd]. now split.
Qed.

End ExportAsUpload.

(** The export of the lesson to French and the upload of nothing for
    French, on the datastore that holds the French title, through
    [export_writes_what_an_empty_upload_writes]. *)
Lemma export_of_lesson_as_empty_upload :
  fst (@build_translations _ _ known_intro po_upload described_export
         lesson ["fr"] "all" french_title_stored)
  = fst (fst (@update_translations _ _ known_intro po_upload lesson
                {[ "fr" := ∅ ]} [] french_title_stored)).
Proof.
  refine (proj1
            (@export_writes_what_an_empty_upload_writes _ _ known_intro
               po_upload described_export lesson "fr" "all"
               french_title_stored [] _ _)).
  vm_compute. reflexivity.
Defined.

(** ** The registry of translatable resources *)

Lemma insert_by_key_perm {A} (key : A -> Z) (x : A) (l : list A) :
  insert_by_key key x l ≡ₚ x :: l.
Proof.
  induction l as [|y l IH]; cbn [insert_by_key]; [reflexivity|].
  destruct (key x <=? key y)%Z; [reflexivity|].
  rewrite IH. apply Permutation_swap.
Qed.

Lemma sorted_by_key_perm {A} (key : A -> Z) (l : list A) :
  sorted_by_key key l ≡ₚ l.
Proof.
  induction l as [|x l IH]; [reflexivity|].
  unfold sorted_by_key in *. cbn [foldr].
  rewrite insert_by_key_perm. now rewrite IH.
Qed.

Lemma insert_by_key_sorted {A} (key : A -> Z) (x : A) (l : list A) :
  Sorted (fun a b => (key a <= key b)%Z) l ->
  Sorted (fun a b => (key a <= key b)%Z) (insert_by_key key x l).
Proof.
  induction l as [|y l IH]; intros Hs; cbn [insert_by_key].
  - repeat constructor.
  - destruct (Z.leb_spec (key x) (key y)) as [Hle|Hgt].
    + constructor; [exact Hs|]. constructor. exact Hle.
    + apply Sorted_inv in Hs as [Hs Hhd]. constructor; [now apply IH|].
      destruct l as [|z l]; cbn [insert_by_key].
      * constructor. lia.
      * destruct (key x <=? key z)%Z; constructor; [lia|].
        now apply HdRel_inv in Hhd.
Qed.

Section RegistryProperties.
Context `{Course}.

(** X24.  The registry of translatable resources, filled by any calls of
    [register] from the empty one: the titles of the registered types are
    pairwise distinct and are exactly the titles on record, a further
    [register] raises exactly for a title on record, and [get_all] lists
    every registered type once, by ordering. *)
Theorem registry_keeps_titles_distinct (ts : list translatable_resource)
    (t : translatable_resource) :
  let reg := register_all empty_registry ts in
  NoDup (map get_title (_RESOURCE_TYPES reg))
  /\ (forall title,
        title ∈ _RESOURCE_TITLES reg
        <-> title ∈ map get_title (_RESOURCE_TYPES reg))
  /\ ((exists e, register reg t = Raise e)
      <-> get_title t ∈ map get_title (_RESOURCE_TYPES reg))
  /\ get_all reg ≡ₚ _RESOURCE_TYPES reg
  /\ Sorted (fun a b => (get_ordering a <= get_ordering b)%Z) (get_all reg).
Proof.
  cbv zeta.
  assert (Hinv : forall reg,
            NoDup (map get_title (_RESOURCE_TYPES reg))
            /\ (forall title,
                  title ∈ _RESOURCE_TITLES reg
                  <-> title ∈ map get_title (_RESOURCE_TYPES reg)) ->
            NoDup (map get_title (_RESOURCE_TYPES (register_all reg ts)))
            /\ (forall title,
                  title ∈ _RESOURCE_TITLES (register_all reg ts)
                  <-> title ∈ map get_title
                                  (_RESOURCE_TYPES (register_all reg ts)))).
  { unfold register_all.
    induction ts as [|t0 ts IH]; intros reg Hreg; [exact Hreg|].
    cbn [foldl]. apply IH. unfold register.
    destruct Hreg as [Hdup Htitles].
    case_decide as Hin; [now split|].
    cbn [_RESOURCE_TYPES _RESOURCE_TITLES]. rewrite map_app. cbn [map].
    split.
    - apply NoDup_app. split; [exact Hdup|]. split.
      + intros title Htitle Hnew. apply list_elem_of_singleton in Hnew as ->.
        apply Hin. now apply Htitles.
      + apply NoDup_singleton.
    - intros title. rewrite elem_of_union, elem_of_singleton, elem_of_app,
        list_elem_of_singleton, Htitles. tauto. }
  destruct (Hinv empty_registry) as [Hdup Htitles].
  { cbn. split; [apply NoDup_nil_2|]. intros title.
    split; intros Hin; [now apply not_elem_of_empty in Hin|inversion Hin]. }
  split; [exact Hdup|]. split; [exact Htitles|]. split; [|split].
  - unfold register. case_decide as Hin.
    + split; [intros _; now apply Htitles|intros _; now eexists].
    + split; [intros [e He]; discriminate He|].
      intros Hin'. exfalso. apply Hin. now apply Htitles.
  - apply sorted_by_key_perm.
  - unfold get_all, sorted_by_key.
    generalize (_RESOURCE_TYPES (register_all empty_registry ts)) as l.
    clear. intros l. induction l as [|x l IH]; cbn [foldr]; [constructor|].
    apply insert_by_key_sorted. exact IH.
Qed.

End RegistryProperties.

(** ** The messages of an upload *)

Lemma accounted_nil translations st : accounted translations [] st st.
Proof.
  split; [|split].
  - intros msg. split; [now left|].
    intros [Hin|(it & Hit & _)]; [exact Hin|inversion Hit].
  - intros src. split; [now left|].
    intros [Hin|(it & Hit & _)]; [exact Hin|inversion Hit].
  - cbn. lia.
Qed.

Lemma accounted_app translations items1 items2 st st1 st2 :
  accounted translations items1 st st1 ->
  accounted translations items2 st1 st2 ->
  accounted translations (items1 ++ items2)%list st st2.
Proof.
  intros (Hm1 & Hu1 & Hc1) (Hm2 & Hu2 & Hc2). split; [|split].
  - intros msg. rewrite Hm2, Hm1. setoid_rewrite elem_of_app. split.
    + intros [[Hin|(it & Hit & Hrest)]|(it & Hit & Hrest)]; [now left| |];
        right; exists it; tauto.
    + intros [Hin|(it & [Hit|Hit] & Hrest)]; [now left; left| |].
      * left. right. now exists it.
      * right. now exists it.
  - intros src. rewrite Hu2, Hu1. setoid_rewrite elem_of_app. split.
    + intros [[Hin|(it & Hit & Hrest)]|(it & Hit & Hrest)]; [now left| |];
        right; exists it; tauto.
    + intros [Hin|(it & [Hit|Hit] & Hrest)]; [now left; left| |].
      * left. right. now exists it.
      * right. now exists it.
  - rewrite List.filter_app, length_app. lia.
Qed.

Lemma upload_item_accounted translations st it :
  accounted translations [it] st (fst (upload_item translations st it)).
Proof.
  unfold upload_item. fold (source_text it).
  destruct (translations !! source_text it) as [t|] eqn:Ht.
  - assert (Hfilter : List.filter
              (fun it => bool_decide (is_Some (translations !! source_text it)))
              [it] = [it]).
    { cbn. now rewrite bool_decide_eq_true_2 by (rewrite Ht; now eexists). }
    assert (Hused : forall (used : gset string) src,
              src ∈ {[source_text it]} ∪ used <->
              src ∈ used
              \/ exists it', it' ∈ [it] /\ source_text it' = src
                             /\ is_Some (translations !! src)).
    { intros used src. rewrite elem_of_union, elem_of_singleton. split.
      - intros [->|Hin]; [right|now left].
        exists it. split; [apply list_elem_of_here|].
        split; [reflexivity|]. rewrite Ht. now eexists.
      - intros [Hin|(it' & Hit' & <- & _)]; [now right|].
        apply list_elem_of_singleton in Hit' as ->. now left. }
    assert (Hmsgs : forall msg,
              msg ∈ us_messages st <->
              msg ∈ us_messages st
              \/ exists it', it' ∈ [it]
                             /\ translations !! source_text it' = None
                             /\ msg = "Did not find translation for "
                                        +:+ quoted (source_text it')).
    { intros msg. split; [now left|].
      intros [Hin|(it' & Hit' & Hnone & _)]; [exact Hin|].
      apply list_elem_of_singleton in Hit' as ->. congruence. }
    destruct (String.eqb t ""); cbn [negb fst];
      (split; [exact Hmsgs|split; [apply Hused|]]);
      cbn [us_num_replacements us_num_blank_translations];
      rewrite Hfilter; cbn [length]; lia.
  - cbn [fst]. split; [|split].
    + intros msg. cbn [us_messages]. rewrite elem_of_app,
        list_elem_of_singleton. split.
      * intros [Hin| ->]; [now left|right].
        exists it. split; [apply list_elem_of_here|now split].
      * intros [Hin|(it' & Hit' & _ & ->)]; [now left|].
        apply list_elem_of_singleton in Hit' as ->. now right.
    + intros src. cbn [us_used_translations]. split; [now left|].
      intros [Hin|(it' & Hit' & <- & Hsome)]; [exact Hin|].
      apply list_elem_of_singleton in Hit' as ->. rewrite Ht in Hsome.
      now destruct Hsome.
    + cbn [us_num_replacements us_num_blank_translations List.filter].
      rewrite bool_decide_eq_false_2
        by (rewrite Ht; intros [? ?]; discriminate).
      cbn. lia.
Qed.

Lemma upload_items_accounted translations items :
  forall st,
    accounted translations items st
      (fst (map_accum (upload_item translations) st items)).
Proof.
  induction items as [|it items IH]; intros st; [apply accounted_nil|].
  cbn [map_accum].
  pose proof (upload_item_accounted translations st it) as Hit.
  destruct (upload_item translations st it) as [st1 it'].
  specialize (IH st1).
  destruct (map_accum (upload_item translations) st1 items) as [st2 items'].
  cbn [fst] in *.
  exact (accounted_app translations [it] items st st1 st2 Hit IH).
Qed.

Lemma upload_sections_accounted translations sections :
  forall st,
    accounted translations (all_items sections) st
      (fst (upload_sections translations st sections)).
Proof.
  unfold upload_sections.
  induction sections as [|s sections IH]; intros st; [apply accounted_nil|].
  cbn [map_accum]. unfold upload_section at 1.
  pose proof (upload_items_accounted translations (s_data s) st) as Hs.
  destruct (map_accum (upload_item translations) st (s_data s))
    as [st1 data].
  specialize (IH st1).
  destruct (map_accum (upload_section translations) st1 sections)
    as [st2 sections'].
  cbn [fst] in *.
  exact (accounted_app translations (s_data s) (all_items sections)
           st st1 st2 Hs IH).
Qed.

Section UploadMessages.
Context `{Course} `{I18nStore}.

(** X25.  An upload accounts for every translation of a resource.  When
    the section builder returns the sections of the resource, the upload of
    the resource raises nothing, keeps the messages that were there, and
    adds: for every chunk whose source text has no translation in the file,
    the message that none was found; and for every translation in the file
    whose text is the source of no chunk, the message that it is present but
    not used.  The two counters grow, together, by the number of chunks whose
    source text has a translation in the file, blank or not. *)
Theorem upload_accounts_for_every_translation (c : course) (l : string)
    (rt : gmap string (gmap string string)) (st : locale_state)
    (resource_key : string * value) (b : binding) (sections : list section) :
  let key := mkResourceBundleKey (fst resource_key) (snd resource_key) l in
  let translations := default ∅ (rt !! ResourceBundleKey_str key) in
  let st' := fst (update_resource c l rt st resource_key) in
  build_sections_for_key key c
    (Some (default ∅ (ls_bundle_by_key st !! ResourceBundleKey_str key)))
  = Ok (b, sections) ->
  snd (update_resource c l rt st resource_key) = None
  /\ (forall msg, msg ∈ ls_messages st -> msg ∈ ls_messages st')
  /\ (forall it, it ∈ all_items sections ->
        translations !! source_text it = None ->
        ("Did not find translation for " +:+ quoted (source_text it))
          ∈ ls_messages st')
  /\ (forall src, is_Some (translations !! src) ->
        (exists it, it ∈ all_items sections /\ source_text it = src)
        \/ ("Translation for " +:+ quoted src +:+ " present but not used.")
             ∈ ls_messages st')
  /\ (ls_num_replacements st' + ls_num_blank_translations st'
      = ls_num_replacements st + ls_num_blank_translations st
        + length (List.filter
                    (fun it => bool_decide
                                 (is_Some (translations !! source_text it)))
                    (all_items sections)))%nat.
Proof.
  intros key translations st' Hbuild. subst st'. unfold update_resource.
  fold key. rewrite Hbuild.
  assert (Htr : (match rt !! ResourceBundleKey_str key with
                 | Some t =>
                     if decide (t = ∅)
                     then (∅, ls_used_resource_translations st)
                     else (t, {[ResourceBundleKey_str key]}
                                ∪ ls_used_resource_translations st)
                 | None => (∅, ls_used_resource_translations st)
                 end).1 = translations).
  { subst translations. destruct (rt !! ResourceBundleKey_str key) as [t|];
      [|reflexivity]. now case_decide; subst. }
  destruct (match rt !! ResourceBundleKey_str key with
            | Some t => _
            | None => _
            end) as [tr used].
  cbn [fst] in Htr. subst tr.
  pose proof (upload_sections_accounted translations sections
                (mkUploadState (ls_messages st) ∅ (ls_num_replacements st)
                               (ls_num_blank_translations st)))
    as (Hmsgs & Hused & Hcount).
  destruct (upload_sections translations _ sections) as [us sections'].
  destruct (update_dtos_with_section_data _ sections' _ _) as [d p].
  cbn [fst snd ls_messages ls_num_replacements ls_num_blank_translations
       us_messages us_used_translations us_num_replacements
       us_num_blank_translations] in *.
  split; [reflexivity|]. split; [|split; [|split; [|exact Hcount]]].
  - intros msg Hin. apply elem_of_app. left. apply Hmsgs. now left.
  - intros it Hit Hnone. apply elem_of_app. left. apply Hmsgs. right.
    now exists it.
  - intros src Hsome.
    destruct (decide (src ∈ us_used_translations us)) as [Hin|Hnot].
    + apply Hused in Hin as [Hin|(it & Hit & Hsrc & _)];
        [now apply not_elem_of_empty in Hin|].
      left. now exists it.
    + right. apply elem_of_app. right.
      apply list_elem_of_fmap. exists src. split; [reflexivity|].
      apply elem_of_elements, elem_of_difference.
      split; [now apply elem_of_dom|exact Hnot].
Qed.

End UploadMessages.

(** The upload of the title and of a text that the lesson does not have,
    through [upload_accounts_for_every_translation]: the text is reported. *)
Lemma upload_reports_the_unused_text :
  (exists it,
     it ∈ all_items
            [mkSection "title" VNone TYPE_STRING (VStr "")
               [mkItem (VStr "Intro") (VStr "") (VStr "Introduction")
                       VERB_CHANGED false];
             mkSection "body" VNone TYPE_HTML (VStr "Hello/World")
               [mkItem (VStr "Hello") VNone (VStr "") VERB_NEW false;
                mkItem (VStr "World") VNone (VStr "") VERB_NEW false]]
     /\ source_text it = "Gone")
  \/ ("Translation for " +:+ quoted "Gone" +:+ " present but not used.")
       ∈ ls_messages
           (fst (@update_resource _ _ known_intro lesson "fr"
                   french_title_and_more
                   (mkLocaleState [] ∅ 0 0 0 ∅ ∅) ("lesson", VInt 1))).
Proof.
  refine (proj1 (proj2 (proj2 (proj2
            (@upload_accounts_for_every_translation _ _ known_intro
               lesson "fr" french_title_and_more
               (mkLocaleState [] ∅ 0 0 0 ∅ ∅) ("lesson", VInt 1)
               (or_fields lesson) _ _)))) "Gone" _).
  - vm_compute. reflexivity.
  - vm_compute. now eexists.
Defined.
